(** * The RAG chatbot backend

    A shallow embedding of
      - [utils/text_processor.py]      (chunker, token budgeter),
      - [services/retrieval_service.py] (ingest, query, context assembly),
      - [database/qdrant_client.py] and [database/mongo_client.py]
        (the thin wrappers around the two stores),
      - [config/settings.py]           (the RAG settings),
      - [services/chat_service.py] and [api/routes.py]
        (the chat over the retrieval pipeline, and its endpoints),
      - [mongotoqdrant.py]             (the retries of the migration),
    followed by the properties of the specification that concern them and
    by further properties of the code. *)

From Stdlib Require Import ZArith QArith Lia Ascii String.
From stdpp Require Import base list strings gmap pretty sorting.

Local Open Scope string_scope.
Local Open Scope list_scope.
Local Open Scope Z_scope.

(** ** Exceptions and results *)

Inductive exn :=
| ValueError (msg : string)
| KeyError (key : string)
| TypeError (msg : string)
| StoreUnavailable (store : string)
| EmbeddingFailure
| UnexpectedResponse (msg : string).

Inductive result (A : Type) :=
| Ok (a : A)
| Raise (e : exn).
Arguments Ok {A} a.
Arguments Raise {A} e.

Definition is_ok {A} (r : result A) : bool :=
  match r with Ok _ => true | Raise _ => false end.

(** ** The Python primitives the code relies on

    A [str] is modelled as a [string] of one-byte code points. *)

Module Py.

(** [x or d] on an optional integer: [None] and [0] are falsy. *)
Definition or_default (x : option Z) (d : Z) : Z :=
  match x with
  | Some v => if v =? 0 then d else v
  | None => d
  end.

(** [str.isspace] on one-byte code points. *)
Definition isspace (c : ascii) : bool :=
  let n := Z.of_nat (nat_of_ascii c) in
  ((9 <=? n) && (n <=? 13)) || ((28 <=? n) && (n <=? 32))
  || (n =? 133) || (n =? 160).

Definition truthy (s : string) : bool :=
  match s with
  | EmptyString => false
  | String _ _ => true
  end.

(** [text.split()]: maximal runs of non-whitespace characters. [cur] is
    the word being read. *)
Fixpoint split_from (cur : string) (s : string) : list string :=
  match s with
  | EmptyString => if truthy cur then [cur] else []
  | String c s' =>
      if isspace c
      then (if truthy cur then cur :: split_from "" s' else split_from "" s')
      else split_from (cur +:+ String c "") s'
  end.

Definition split (text : string) : list string := split_from "" text.

(** [sep.join(l)] *)
Fixpoint join (sep : string) (l : list string) : string :=
  match l with
  | [] => ""
  | [x] => x
  | x :: rest => x +:+ sep +:+ join sep rest
  end.

(** Bound of a slice, as [PySlice_AdjustIndices] clips it. *)
Definition clip_index (len i : Z) : Z :=
  if i <? 0 then Z.max (len + i) 0 else Z.min i len.

(** [l[lo:hi]] *)
Definition slice {A} (l : list A) (lo hi : Z) : list A :=
  let n := Z.of_nat (length l) in
  let lo' := clip_index n lo in
  let hi' := clip_index n hi in
  take (Z.to_nat (hi' - lo')) (drop (Z.to_nat lo') l).

(** [len(range(start, stop, step))] for a non-zero step. *)
Definition range_len (start stop step : Z) : Z :=
  if 0 <? step
  then (if start <? stop then (stop - start - 1) / step + 1 else 0)
  else (if stop <? start then (start - stop - 1) / (- step) + 1 else 0).

(** [range(start, stop, step)], which raises on a zero step. *)
Definition range (start stop step : Z) : result (list Z) :=
  if step =? 0
  then Raise (ValueError "range() arg 3 must not be zero")
  else Ok (map (fun k => start + Z.of_nat k * step)
               (seq 0 (Z.to_nat (range_len start stop step)))).

End Py.

(** ** config/settings.py: the RAG settings *)

Record Settings := {
  TOP_K_RESULTS : Z;
  MAX_CONTEXT_LENGTH : Z;
  CHUNK_SIZE : Z;
  CHUNK_OVERLAP : Z
}.

Definition settings : Settings := {|
  TOP_K_RESULTS := 5;
  MAX_CONTEXT_LENGTH := 3000;
  CHUNK_SIZE := 500;
  CHUNK_OVERLAP := 50
|}.

(** ** utils/text_processor.py *)

(** The tokenizer behind [TextProcessor.encoding], an encoding of the
    [tiktoken] library. [encode] raises on a text that holds one of the
    encoding's special tokens; [decode] puts the replacement character
    where the bytes of the tokens are not the bytes of a text. *)
Record Tokenizer := {
  encode : string -> result (list Z);
  decode : list Z -> string
}.

Module TextProcessor.

(** The body of the [for] loop of [chunk_text], run over the indices
    [idxs] with the chunks collected so far. *)
Fixpoint chunk_loop (words : list string) (chunk_size : Z)
    (idxs : list Z) (chunks : list string) : list string :=
  match idxs with
  | [] => chunks
  | i :: rest =>
      let chunk := Py.join " " (Py.slice words i (i + chunk_size)) in
      chunk_loop words chunk_size rest
        (if Py.truthy chunk then chunks ++ [chunk] else chunks)
  end.

Definition chunk_text (cfg : Settings) (text : string)
    (chunk_size overlap : option Z) : result (list string) :=
  let chunk_size := Py.or_default chunk_size (CHUNK_SIZE cfg) in
  let overlap := Py.or_default overlap (CHUNK_OVERLAP cfg) in
  let words := Py.split text in
  match Py.range 0 (Z.of_nat (length words)) (chunk_size - overlap) with
  | Raise e => Raise e
  | Ok idxs => Ok (chunk_loop words chunk_size idxs [])
  end.

Definition count_tokens (enc : Tokenizer) (text : string) : result Z :=
  match encode enc text with
  | Raise e => Raise e
  | Ok tokens => Ok (Z.of_nat (length tokens))
  end.

Definition truncate_to_token_limit (enc : Tokenizer) (text : string)
    (max_tokens : Z) : result string :=
  match encode enc text with
  | Raise e => Raise e
  | Ok tokens =>
      if Z.of_nat (length tokens) <=? max_tokens
      then Ok text
      else Ok (decode enc (Py.slice tokens 0 max_tokens))
  end.

End TextProcessor.

(** ** Data held by the two stores *)

(** Metadata values; a document's metadata is a [Dict[str, Any]] of
    scalars. *)
Inductive scalar :=
| SStr (s : string)
| SInt (n : Z)
| SBool (b : bool).

(** Values of a point's payload. *)
Inductive pyval :=
| VStr (s : string)
| VInt (n : Z)
| VDict (m : gmap string scalar).

Record Document := {
  doc_id : string;
  doc_content : string;
  doc_metadata : gmap string scalar;
  created_at : Z
}.

Record PointStruct := {
  point_id : string;
  vector : list Q;
  payload : gmap string pyval
}.

(** One entry of the list [QdrantDatabase.search] returns. *)
Record Hit := {
  hit_id : string;
  score : Q;
  hit_payload : gmap string pyval
}.

(** ** The world the services run in *)

(** Requests sent to the external services, in the order they are
    issued. *)
Inductive Call :=
| InsertOne (d : Document)
| Embeddings (texts : list string)
| Upsert (points : list PointStruct)
| QueryPoints (query : list Q) (limit : Z) (score_threshold : Q).

Record World := {
  documents : list Document;
  collection : list PointStruct;
  uuid_counter : nat;
  calls : list Call
}.

(** What the program does not control: the identifiers drawn, the clock,
    whether each store answers, the embedding model and the similarity
    the index computes. *)
Record Env := {
  uuid4 : nat -> string;
  utcnow : Z;
  mongo_up : bool;
  qdrant_up : bool;
  embedding_model : string -> option (list Q);
  similarity : list Q -> list Q -> Q
}.

(** Computations that read and write the world and may raise; what was
    written before an exception stays written. *)
Definition M (A : Type) : Type := World -> result A * World.

Definition ret {A} (a : A) : M A := fun w => (Ok a, w).

Definition bind {A B} (m : M A) (f : A -> M B) : M B := fun w =>
  match m w with
  | (Ok a, w') => f a w'
  | (Raise e, w') => (Raise e, w')
  end.

Notation "x <-- m ;; k" := (bind m (fun x => k))
  (at level 100, m at next level, right associativity).

Definition raise {A} (e : exn) : M A := fun w => (Raise e, w).

Definition lift {A} (r : result A) : M A := fun w => (r, w).

Definition log (c : Call) : M unit := fun w =>
  (Ok tt, {| documents := documents w; collection := collection w;
             uuid_counter := uuid_counter w; calls := calls w ++ [c] |}).

Definition fresh_uuid (env : Env) : M string := fun w =>
  (Ok (uuid4 env (uuid_counter w)),
   {| documents := documents w; collection := collection w;
      uuid_counter := S (uuid_counter w); calls := calls w |}).

(** [metadata or {}] *)
Definition or_empty (metadata : option (gmap string scalar))
  : gmap string scalar :=
  match metadata with
  | Some m => if decide (m = ∅) then ∅ else m
  | None => ∅
  end.

(** ** database/mongo_client.py *)

Module MongoDatabase.

Definition insert_one (env : Env) (d : Document) : M unit :=
  _ <-- log (InsertOne d) ;;
  if mongo_up env
  then fun w =>
    (Ok tt, {| documents := documents w ++ [d]; collection := collection w;
               uuid_counter := uuid_counter w; calls := calls w |})
  else raise (StoreUnavailable "mongodb").

Definition add_document (env : Env) (content : string)
    (metadata : option (gmap string scalar)) : M string :=
  doc_id <-- fresh_uuid env ;;
  let document := {| doc_id := doc_id; doc_content := content;
                     doc_metadata := or_empty metadata;
                     created_at := utcnow env |} in
  _ <-- insert_one env document ;;
  ret doc_id.

End MongoDatabase.

(** ** services/embedding_service.py *)

Module EmbeddingService.

(** Modelled from the spec: the file [services/embedding_service.py] is
    not part of the sources. The specification gives the embedder as
    [embed(text) -> vector] and [embed_batch(list of text) -> list of
    vector], the vector of a chunk not depending on the batch it is in,
    and a failure on any text failing the whole request. *)
Fixpoint embed_batch (env : Env) (texts : list string)
  : option (list (list Q)) :=
  match texts with
  | [] => Some []
  | t :: rest =>
      match embedding_model env t, embed_batch env rest with
      | Some v, Some vs => Some (v :: vs)
      | _, _ => None
      end
  end.

(** Modelled from the spec: [get_embeddings(texts)], as
    [RetrievalService.add_document] calls it, is the batch request. *)
Definition get_embeddings (env : Env) (texts : list string)
  : M (list (list Q)) :=
  _ <-- log (Embeddings texts) ;;
  match embed_batch env texts with
  | Some vs => ret vs
  | None => raise EmbeddingFailure
  end.

(** Modelled from the spec: [get_embedding(text)], as
    [RetrievalService.retrieve_relevant_context] calls it, is the request
    for one text. *)
Definition get_embedding (env : Env) (text : string) : M (list Q) :=
  _ <-- log (Embeddings [text]) ;;
  match embedding_model env text with
  | Some v => ret v
  | None => raise EmbeddingFailure
  end.

End EmbeddingService.

(** ** database/qdrant_client.py *)

Module QdrantDatabase.

(** [client.upsert], as the index (an external service) performs it: a
    point replaces the stored point of the same id, or is added; a request
    without any point is refused. *)
Definition upsert_point (coll : list PointStruct) (p : PointStruct)
  : list PointStruct :=
  if existsb (fun q => bool_decide (point_id q = point_id p)) coll
  then map (fun q => if bool_decide (point_id q = point_id p) then p else q)
           coll
  else coll ++ [p].

Definition upsert (env : Env) (points : list PointStruct) : M unit :=
  _ <-- log (Upsert points) ;;
  if negb (qdrant_up env) then raise (StoreUnavailable "qdrant")
  else if bool_decide (points = [])
  then raise (UnexpectedResponse "Empty update request")
  else fun w =>
    (Ok tt, {| documents := documents w;
               collection := fold_left upsert_point points (collection w);
               uuid_counter := uuid_counter w; calls := calls w |}).

(** [[str(uuid.uuid4()) for _ in vectors]] *)
Fixpoint fresh_uuids {A} (env : Env) (vectors : list A) : M (list string) :=
  match vectors with
  | [] => ret []
  | _ :: rest =>
      i <-- fresh_uuid env ;;
      more <-- fresh_uuids env rest ;;
      ret (i :: more)
  end.

(** [zip(ids, vectors, payloads)], as long as its shortest argument. *)
Fixpoint zip_points (ids : list string) (vectors : list (list Q))
    (payloads : list (gmap string pyval)) : list PointStruct :=
  match ids, vectors, payloads with
  | i :: ids', v :: vectors', p :: payloads' =>
      {| point_id := i; vector := v; payload := p |}
      :: zip_points ids' vectors' payloads'
  | _, _, _ => []
  end.

Definition add_vectors (env : Env) (vectors : list (list Q))
    (payloads : list (gmap string pyval)) : M (list string) :=
  ids <-- fresh_uuids env vectors ;;
  let points := zip_points ids vectors payloads in
  _ <-- upsert env points ;;
  ret ids.

(** The index scores every stored point against the query. *)
Definition score_point (env : Env) (query : list Q) (p : PointStruct) : Hit :=
  {| hit_id := point_id p;
     score := similarity env query (vector p);
     hit_payload := payload p |}.

Fixpoint insert_hit (h : Hit) (l : list Hit) : list Hit :=
  match l with
  | [] => [h]
  | h' :: rest =>
      if Qle_bool (score h') (score h)
      then h :: l
      else h' :: insert_hit h rest
  end.

Definition sort_hits (l : list Hit) : list Hit :=
  foldr insert_hit [] l.

(** [client.query_points], as the index (an external service) performs
    it: the nearest neighbours of [query] whose score is above
    [score_threshold], best first, at most [limit] of them. The index
    refuses a limit below 1. *)
Definition query_points (env : Env) (query : list Q) (limit : Z)
    (score_threshold : Q) : M (list Hit) :=
  _ <-- log (QueryPoints query limit score_threshold) ;;
  if negb (qdrant_up env) then raise (StoreUnavailable "qdrant")
  else if limit <? 1 then raise (UnexpectedResponse "limit")
  else fun w =>
    (Ok (take (Z.to_nat limit)
           (sort_hits
              (List.filter
                 (fun h => negb (Qle_bool (score h) score_threshold))
                 (map (score_point env query) (collection w))))), w).

(** Default of the [score_threshold] argument of [search]. *)
Definition default_score_threshold : Q := 7 # 10.

Definition search (env : Env) (query_vector : list Q) (limit : Z)
    (score_threshold : Q) : M (list Hit) :=
  results <-- query_points env query_vector limit score_threshold ;;
  ret (map (fun hit => {| hit_id := hit_id hit; score := score hit;
                          hit_payload := hit_payload hit |}) results).

End QdrantDatabase.

(** ** services/retrieval_service.py *)

Definition newline : ascii := ascii_of_nat 10.

Module RetrievalService.

(** The payload built for chunk [i] of document [doc_id]. *)
Definition chunk_payload (doc_id : string)
    (metadata : option (gmap string scalar)) (i : nat) (chunk : string)
  : gmap string pyval :=
  <["doc_id" := VStr doc_id]>
    (<["chunk_index" := VInt (Z.of_nat i)]>
       (<["content" := VStr chunk]>
          (<["metadata" := VDict (or_empty metadata)]> ∅))).

Definition add_document (cfg : Settings) (env : Env) (content : string)
    (metadata : option (gmap string scalar)) : M string :=
  doc_id <-- MongoDatabase.add_document env content metadata ;;
  chunks <-- lift (TextProcessor.chunk_text cfg content None None) ;;
  embeddings <-- EmbeddingService.get_embeddings env chunks ;;
  let payloads := imap (chunk_payload doc_id metadata) chunks in
  _ <-- QdrantDatabase.add_vectors env embeddings payloads ;;
  ret doc_id.

Definition retrieve_relevant_context (cfg : Settings) (env : Env)
    (query : string) (top_k : option Z) : M (list Hit) :=
  let top_k := Py.or_default top_k (TOP_K_RESULTS cfg) in
  query_embedding <-- EmbeddingService.get_embedding env query ;;
  results <-- QdrantDatabase.search env query_embedding top_k
                QdrantDatabase.default_score_threshold ;;
  ret results.

(** The loop of [get_context_string]: [result["payload"]["content"]]
    of every result, a missing key raising [KeyError]. *)
Fixpoint context_loop (results : list Hit) (context_parts : list pyval)
  : result (list pyval) :=
  match results with
  | [] => Ok context_parts
  | r :: rest =>
      match hit_payload r !! "content" with
      | Some content => context_loop rest (context_parts ++ [content])
      | None => Raise (KeyError "content")
      end
  end.

(** [type(v).__name__] *)
Definition type_name (v : pyval) : string :=
  match v with
  | VStr _ => "str"
  | VInt _ => "int"
  | VDict _ => "dict"
  end.

(** The message of [str.join] for item [i] when it is not a string. *)
Definition join_error (i : nat) (v : pyval) : string :=
  "sequence item " +:+ pretty i +:+ ": expected str instance, "
  +:+ type_name v +:+ " found".

(** [sep.join] needs strings: the items from index [i] on. *)
Fixpoint as_strings_from (i : nat) (parts : list pyval)
  : result (list string) :=
  match parts with
  | [] => Ok []
  | VStr s :: rest =>
      match as_strings_from (S i) rest with
      | Ok l => Ok (s :: l)
      | Raise e => Raise e
      end
  | v :: _ => Raise (TypeError (join_error i v))
  end.

Definition as_strings (parts : list pyval) : result (list string) :=
  as_strings_from 0 parts.

Definition get_context_string (cfg : Settings) (enc : Tokenizer)
    (results : list Hit) : result string :=
  match context_loop results [] with
  | Raise e => Raise e
  | Ok context_parts =>
      match as_strings context_parts with
      | Raise e => Raise e
      | Ok parts =>
          let context := Py.join (String newline (String newline "")) parts in
          TextProcessor.truncate_to_token_limit enc context
            (MAX_CONTEXT_LENGTH cfg)
      end
  end.

End RetrievalService.

(** ** More of the Python primitives *)

Module PyExt.

(** [l[lo:]] *)
Definition slice_from {A} (l : list A) (lo : Z) : list A :=
  drop (Z.to_nat (Py.clip_index (Z.of_nat (length l)) lo)) l.

(** [s[:n]] on a [str] *)
Definition str_slice_to (s : string) (n : Z) : string :=
  string_of_list_ascii (Py.slice (list_ascii_of_string s) 0 n).

(** [str.lower] on one-byte code points: [A-Z] and the capital letters of
    Latin-1. *)
Definition lower_char (c : ascii) : ascii :=
  let n := Z.of_nat (nat_of_ascii c) in
  if ((65 <=? n) && (n <=? 90))
     || ((192 <=? n) && (n <=? 222) && negb (n =? 215))
  then ascii_of_nat (nat_of_ascii c + 32)
  else c.

Fixpoint lower (s : string) : string :=
  match s with
  | EmptyString => EmptyString
  | String c s' => String (lower_char c) (lower s')
  end.

(** [s.startswith(p)] *)
Fixpoint startswith (s p : string) : bool :=
  match p, s with
  | EmptyString, _ => true
  | String _ _, EmptyString => false
  | String a p', String b s' => Ascii.eqb a b && startswith s' p'
  end.

(** [sub in s] *)
Fixpoint contains (s sub : string) : bool :=
  startswith s sub
  || match s with
     | EmptyString => false
     | String _ s' => contains s' sub
     end.

(** [s.endswith(suffix)] *)
Fixpoint endswith (s suffix : string) : bool :=
  String.eqb s suffix
  || match s with
     | EmptyString => false
     | String _ s' => endswith s' suffix
     end.

(** [s.split(sep)] for a one-character separator; [cur] is the piece being
    read. Empty pieces are kept. *)
Fixpoint split_on (sep : ascii) (cur : string) (s : string) : list string :=
  match s with
  | EmptyString => [cur]
  | String c s' =>
      if Ascii.eqb c sep
      then cur :: split_on sep "" s'
      else split_on sep (cur +:+ String c "") s'
  end.

(** [s.split(sep)[-1]] *)
Definition last_piece (sep : ascii) (s : string) : string :=
  List.last (split_on sep "" s) "".

End PyExt.

(** ** database/mongo_client.py: reading and deleting documents *)

Module MongoDocuments.

(** [find_one({"id": doc_id})]: the first document under that id. *)
Definition get_document (env : Env) (id : string) : M (option Document) :=
  if mongo_up env
  then fun w =>
    (Ok (List.find (fun d => bool_decide (doc_id d = id)) (documents w)), w)
  else raise (StoreUnavailable "mongodb").

Definition get_all_documents (env : Env) : M (list Document) :=
  if mongo_up env
  then fun w => (Ok (documents w), w)
  else raise (StoreUnavailable "mongodb").

(** What [delete_one] leaves: the first match is removed. *)
Fixpoint delete_first {A} (f : A -> bool) (l : list A) : list A :=
  match l with
  | [] => []
  | x :: rest => if f x then rest else x :: delete_first f rest
  end.

Definition delete_document (env : Env) (id : string) : M unit :=
  if mongo_up env
  then fun w =>
    (Ok tt,
     {| documents :=
          delete_first (fun d => bool_decide (doc_id d = id)) (documents w);
        collection := collection w;
        uuid_counter := uuid_counter w; calls := calls w |})
  else raise (StoreUnavailable "mongodb").

End MongoDocuments.

(** ** database/qdrant_client.py: deleting a point *)

Module QdrantPoints.

(** [client.delete(points_selector=[point_id])], as the index performs it:
    the points of that id are gone. *)
Definition delete_by_id (env : Env) (id : string) : M unit :=
  if qdrant_up env
  then fun w =>
    (Ok tt,
     {| documents := documents w;
        collection :=
          List.filter (fun p => negb (bool_decide (point_id p = id)))
            (collection w);
        uuid_counter := uuid_counter w; calls := calls w |})
  else raise (StoreUnavailable "qdrant").

End QdrantPoints.

(** ** Chat sessions *)

Record ChatMessage := {
  msg_role : string;
  msg_content : string;
  msg_timestamp : Z
}.

Record ChatSession := {
  session_id : string;
  messages : list ChatMessage;
  session_created_at : Z;
  session_updated_at : Z
}.

(** One message of a chat-completion request. *)
Record PromptMessage := {
  prompt_role : string;
  prompt_content : string
}.

(** The stores of the retrieval pipeline, the collection of chat sessions
    and the chat-completion requests sent so far. *)
Record Backend := {
  stores : World;
  chat_sessions : list ChatSession;
  completion_requests : list (list PromptMessage)
}.

(** What can go wrong above the retrieval pipeline. *)
Inductive error :=
| Exn (e : exn)
| DuplicateKeyError (key : string)
| APIError.

Inductive outcome (A : Type) :=
| Done (a : A)
| Fail (e : error).
Arguments Done {A} a.
Arguments Fail {A} e.

Definition B (A : Type) : Type := Backend -> outcome A * Backend.

Definition done {A} (a : A) : B A := fun b => (Done a, b).

Definition fail {A} (e : error) : B A := fun b => (Fail e, b).

Definition and_then {A C} (m : B A) (f : A -> B C) : B C := fun b =>
  match m b with
  | (Done a, b') => f a b'
  | (Fail e, b') => (Fail e, b')
  end.

Notation "x <== m ;; k" := (and_then m (fun x => k))
  (at level 100, m at next level, right associativity).

(** A computation on the stores, run inside the backend. *)
Definition on_stores {A} (m : M A) : B A := fun b =>
  match m (stores b) with
  | (Ok a, w) =>
      (Done a, {| stores := w; chat_sessions := chat_sessions b;
                  completion_requests := completion_requests b |})
  | (Raise e, w) =>
      (Fail (Exn e), {| stores := w; chat_sessions := chat_sessions b;
                        completion_requests := completion_requests b |})
  end.

Definition with_sessions (b : Backend) (l : list ChatSession) : Backend :=
  {| stores := stores b; chat_sessions := l;
     completion_requests := completion_requests b |}.

(** ** database/mongo_client.py: the sessions *)

Module MongoSessions.

(** [insert_one] into the sessions, which carry a unique index on
    [session_id]. *)
Definition create_session (env : Env) (id : string) : B string :=
  if mongo_up env
  then fun b =>
    let session := {| session_id := id; messages := [];
                      session_created_at := utcnow env;
                      session_updated_at := utcnow env |} in
    if existsb (fun s => bool_decide (session_id s = id)) (chat_sessions b)
    then (Fail (DuplicateKeyError "session_id"), b)
    else (Done id, with_sessions b (chat_sessions b ++ [session]))
  else fail (Exn (StoreUnavailable "mongodb")).

(** [update_one]: the first session under [id] has the message pushed and
    its [updated_at] set; no session is created. *)
Fixpoint push_message (id : string) (message : ChatMessage) (now : Z)
    (l : list ChatSession) : list ChatSession :=
  match l with
  | [] => []
  | s :: rest =>
      if bool_decide (session_id s = id)
      then {| session_id := session_id s;
              messages := messages s ++ [message];
              session_created_at := session_created_at s;
              session_updated_at := now |} :: rest
      else s :: push_message id message now rest
  end.

Definition add_message (env : Env) (id role content : string) : B unit :=
  if mongo_up env
  then fun b =>
    let message := {| msg_role := role; msg_content := content;
                      msg_timestamp := utcnow env |} in
    (Done tt,
     with_sessions b (push_message id message (utcnow env) (chat_sessions b)))
  else fail (Exn (StoreUnavailable "mongodb")).

Definition get_session (env : Env) (id : string) : B (option ChatSession) :=
  if mongo_up env
  then fun b =>
    (Done (List.find (fun s => bool_decide (session_id s = id))
             (chat_sessions b)), b)
  else fail (Exn (StoreUnavailable "mongodb")).

Definition get_session_history (env : Env) (id : string) (limit : Z)
  : B (list ChatMessage) :=
  session <== get_session env id ;;
  match session with
  | Some s => done (PyExt.slice_from (messages s) (- limit))
  | None => done []
  end.

End MongoSessions.

(** ** services/chat_service.py *)

(** The chat model behind [client.chat.completions.create]: the answer to
    a list of messages, or a failure. *)
Record LanguageModel := {
  chat_completion : list PromptMessage -> option string
}.

(** One entry of [result["sources"]]. *)
Record Source := {
  source_content : pyval;
  source_score : Q;
  source_metadata : pyval
}.

(** The dictionary [chat] returns. *)
Record ChatResult := {
  answer : string;
  sources : list Source;
  result_session_id : string
}.

Module ChatService.

(** The parts of the system prompt of [chat], as the source spells them. *)
Definition dq : string := String (ascii_of_nat 34) "".

Definition contact_url : string := "https://shivohm.com/contact-us/".

Definition system_prompt : string :=
  "You are Shivohm's friendly AI assistant, here to help with questions about our services and solutions.

Your personality:
- Warm, helpful, and conversational - like talking to a knowledgeable colleague
- Enthusiastic about technology and how it can solve real business problems
- Professional but approachable - avoid overly formal or robotic language
- Concise and clear - get to the point quickly without long-winded explanations

Response guidelines:
- Keep answers brief and conversational (2-4 sentences for simple questions)
- Use natural, flowing language - no bullet points unless specifically asked
- When discussing our services, be informative but not sales-pushy
- If you don't know something from the context, be honest and offer to connect them with our team
- Sprinkle in relevant details about Shivohm naturally (like " +:+ dq +:+ "We've delivered 170+ projects" +:+ dq +:+ " or " +:+ dq +:+ "Our team of 150+ experts" +:+ dq +:+ ")
- For technical questions, explain clearly without overwhelming jargon
- Always be ready to ask follow-up questions to better understand their needs

Context from our knowledge base:
".

Definition contact_instruction : string :=
  ("

IMPORTANT: The user wants to connect with the team or get in touch. Provide them with our contact page URL in a friendly, natural way.

Use ONE of these response styles:
- " +:+ dq +:+ "I'd love to help connect you with our team! You can reach out to us here: ") +:+ contact_url +:+ ("" +:+ dq +:+ "
- " +:+ dq +:+ "Great! Our team would be happy to discuss this with you. Please visit our contact page: ") +:+ contact_url +:+ ("" +:+ dq +:+ "
- " +:+ dq +:+ "Perfect! To connect with our experts, please visit: ") +:+ contact_url +:+ ("" +:+ dq +:+ "
- " +:+ dq +:+ "I can help with that! Feel free to reach out to our team at: ") +:+ contact_url +:+ ("" +:+ dq +:+ "

Keep your response brief (1-2 sentences) and always include the contact URL.
").

Definition fallback_instruction : string :=
  "

If the answer isn't in the context, let the user know conversationally and offer alternative help like connecting them with our team at info@shivohm.com or calling +91-90811-12202.".

(** The phrases [_detect_contact_intent] looks for. *)
Definition strong_contact_phrases : list string :=
  ["connect with"; "talk to"; "speak with"; "speak to"; "reach out";
   "get in touch"; "contact"; "meet with"; "meeting"; "demo"; "schedule";
   "book"; "appointment"; "connect me"; "introduce me"; "put me in touch";
   "connect you"; "reach you"; "talk with you"; "connect your";
   "reach your"; "talk to your"; "expert"; "team"; "representative";
   "sales"].

Definition _detect_contact_intent (query : string) : bool :=
  let query_lower := PyExt.lower query in
  existsb (fun phrase => PyExt.contains query_lower phrase)
    strong_contact_phrases.

(** [not session_id] *)
Definition no_session_id (session_id : option string) : bool :=
  match session_id with
  | Some id => negb (Py.truthy id)
  | None => true
  end.

(** The request to the chat model, recorded before it is answered. *)
Definition create_completion (llm : LanguageModel)
    (messages : list PromptMessage) : B string := fun b =>
  let b' := {| stores := stores b; chat_sessions := chat_sessions b;
               completion_requests := completion_requests b ++ [messages] |} in
  match chat_completion llm messages with
  | Some answer => (Done answer, b')
  | None => (Fail APIError, b')
  end.

(** One source: the content cut to 200 characters and marked with dots
    when it is longer, the score, the metadata of the payload. *)
Definition source_of (r : Hit) : result Source :=
  match hit_payload r !! "content" with
  | None => Raise (KeyError "content")
  | Some content =>
      let metadata := default (VDict ∅) (hit_payload r !! "metadata") in
      match content with
      | VStr s =>
          Ok {| source_content :=
                  VStr (if 200 <? Z.of_nat (String.length s)
                        then PyExt.str_slice_to s 200 +:+ "..."
                        else s);
                source_score := score r;
                source_metadata := metadata |}
      | VInt _ => Raise (TypeError "object of type 'int' has no len()")
      | VDict m =>
          if 200 <? Z.of_nat (size m)
          then Raise (TypeError "unhashable type: 'slice'")
          else Ok {| source_content := content; source_score := score r;
                     source_metadata := metadata |}
      end
  end.

Fixpoint sources_of (results : list Hit) : result (list Source) :=
  match results with
  | [] => Ok []
  | r :: rest =>
      match source_of r with
      | Raise e => Raise e
      | Ok s =>
          match sources_of rest with
          | Raise e => Raise e
          | Ok l => Ok (s :: l)
          end
      end
  end.

Definition from_result {A} (r : result A) : B A :=
  match r with
  | Ok a => done a
  | Raise e => fail (Exn e)
  end.

(** The environment at one request to the document store, which answers
    it ([up]) or not, whatever it did at the requests before. *)
Definition at_request (env : Env) (up : bool) : Env :=
  {| uuid4 := uuid4 env; utcnow := utcnow env; mongo_up := up;
     qdrant_up := qdrant_up env; embedding_model := embedding_model env;
     similarity := similarity env |}.

(** [chat] sends up to four requests to the document store: it creates
    the session (request 0), reads the history (1), saves the query (2)
    and saves the answer (3). [answers k] says whether the store answers
    request [k]; the field [mongo_up] of [env] is not read. *)
Definition chat (cfg : Settings) (env : Env) (answers : nat -> bool)
    (enc : Tokenizer) (llm : LanguageModel) (query : string)
    (session_id : option string) (top_k : option Z) : B ChatResult :=
  session_id <==
    (if no_session_id session_id
     then
       id <== on_stores (fresh_uuid env) ;;
       _ <== MongoSessions.create_session (at_request env (answers 0%nat)) id ;;
       done id
     else done (default "" session_id)) ;;
  let has_contact_intent := _detect_contact_intent query in
  retrieval_results <==
    on_stores (RetrievalService.retrieve_relevant_context cfg env query top_k) ;;
  context <==
    from_result (RetrievalService.get_context_string cfg enc retrieval_results) ;;
  history <==
    MongoSessions.get_session_history (at_request env (answers 1%nat))
      session_id 10 ;;
  let system_content :=
    system_prompt +:+ context
    +:+ (if has_contact_intent
         then contact_instruction
         else fallback_instruction) in
  let messages :=
    [{| prompt_role := "system"; prompt_content := system_content |}]
    ++ map (fun msg => {| prompt_role := msg_role msg;
                          prompt_content := msg_content msg |})
         (PyExt.slice_from history (-5))
    ++ [{| prompt_role := "user"; prompt_content := query |}] in
  answer <== create_completion llm messages ;;
  _ <== MongoSessions.add_message (at_request env (answers 2%nat))
          session_id "user" query ;;
  _ <== MongoSessions.add_message (at_request env (answers 3%nat))
          session_id "assistant" answer ;;
  sources <== from_result (sources_of retrieval_results) ;;
  done {| answer := answer; sources := sources;
          result_session_id := session_id |}.

End ChatService.

(** ** api/routes.py *)

(** The detail of an [HTTPException]: a text of the source, or [str(e)] of
    the exception caught. *)
Inductive detail :=
| Literal (text : string)
| StrOfError (e : error)
| StrOfHTTPException (status_code : Z) (text : string).

Inductive http (A : Type) :=
| Response (body : A)
| HTTPException (status_code : Z) (d : detail).
Arguments Response {A} body.
Arguments HTTPException {A} status_code d.

(** [QueryRequest] of models/schemas.py *)
Record QueryRequest := {
  request_query : string;
  request_session_id : option string;
  request_top_k : option Z
}.

(** What reads the uploaded bytes and the metadata text: the paragraphs of
    a Word file, the page texts of a PDF file, the UTF-8 decoder and the
    JSON parser. *)
Record Parsers := {
  docx_paragraphs : string -> result (list string);
  pdf_page_texts : string -> result (list string);
  decode_utf8 : string -> result string;
  json_loads : string -> result (gmap string scalar)
}.

(** The body [upload_document] returns. *)
Record Uploaded := {
  uploaded_doc_id : string;
  uploaded_filename : string;
  uploaded_message : string
}.

Module Routes.

Definition chat (cfg : Settings) (env : Env) (answers : nat -> bool)
    (enc : Tokenizer) (llm : LanguageModel) (request : QueryRequest)
  : Backend -> http ChatResult * Backend := fun b =>
  match ChatService.chat cfg env answers enc llm (request_query request)
          (request_session_id request) (request_top_k request) b with
  | (Done result, b') => (Response result, b')
  | (Fail e, b') => (HTTPException 500 (StrOfError e), b')
  end.

Definition add_document (cfg : Settings) (env : Env) (content : string)
    (metadata : gmap string scalar)
  : Backend -> http (string * string) * Backend := fun b =>
  match on_stores (RetrievalService.add_document cfg env content
                     (Some metadata)) b with
  | (Done doc_id, b') =>
      (Response (doc_id, "Document added successfully"), b')
  | (Fail e, b') => (HTTPException 500 (StrOfError e), b')
  end.

(** The text of the uploaded file, or the exception raised in the [try]
    block while extracting it. *)
Definition extract_text (parsers : Parsers) (filename content_bytes : string)
  : http string :=
  if PyExt.endswith filename ".docx" then
    match docx_paragraphs parsers content_bytes with
    | Ok paragraphs => Response (Py.join (String newline "") paragraphs)
    | Raise e => HTTPException 500 (StrOfError (Exn e))
    end
  else if PyExt.endswith filename ".pdf" then
    match pdf_page_texts parsers content_bytes with
    | Ok pages =>
        Response (fold_left (fun content page =>
                               content +:+ (page +:+ String newline ""))
                    pages "")
    | Raise e => HTTPException 500 (StrOfError (Exn e))
    end
  else if PyExt.endswith filename ".txt" then
    match decode_utf8 parsers content_bytes with
    | Ok content => Response content
    | Raise e => HTTPException 500 (StrOfError (Exn e))
    end
  else
    HTTPException 500
      (StrOfHTTPException 400
         "Unsupported file type. Use .docx, .pdf, or .txt").

Definition upload_document (cfg : Settings) (env : Env) (parsers : Parsers)
    (filename content_bytes : string) (metadata : option string)
  : Backend -> http Uploaded * Backend := fun b =>
  match extract_text parsers filename content_bytes with
  | HTTPException status_code d => (HTTPException status_code d, b)
  | Response content =>
      let parsed :=
        match metadata with
        | Some text => if Py.truthy text then json_loads parsers text
                       else Ok ∅
        | None => Ok ∅
        end in
      match parsed with
      | Raise e => (HTTPException 500 (StrOfError (Exn e)), b)
      | Ok meta =>
          let meta := <["filename" := SStr filename]> meta in
          let meta :=
            <["file_type" := SStr (PyExt.last_piece "."%char filename)]> meta in
          match on_stores (RetrievalService.add_document cfg env content
                             (Some meta)) b with
          | (Done doc_id, b') =>
              (Response {| uploaded_doc_id := doc_id;
                           uploaded_filename := filename;
                           uploaded_message :=
                             "File uploaded and processed successfully" |},
               b')
          | (Fail e, b') => (HTTPException 500 (StrOfError e), b')
          end
      end
  end.

End Routes.

(** ** mongotoqdrant.py: the embedding of one text, with retries *)

(** How [create_embedding] ends: with the embedding, by falling out of the
    loop, which returns [None], or with the exception raised after the
    last attempt. *)
Inductive embedding_outcome :=
| Embedding (v : list Q)
| ReturnedNone
| FailedAfter (retry_count : Z).

(** The requests sent to the embedding API and the seconds slept. *)
Record Effort := {
  requests : nat;
  sleeps : list Z
}.

Module MongoToQdrantMigrator.

(** The loop of [create_embedding] over the attempts left; [api n] is the
    answer to request [n] for the text, [None] when it raises. *)
Fixpoint create_embedding_loop (api : nat -> option (list Q))
    (retry_count : Z) (attempts : list Z) (spent : Effort)
  : embedding_outcome * Effort :=
  match attempts with
  | [] => (ReturnedNone, spent)
  | attempt :: rest =>
      match api (requests spent) with
      | Some v =>
          (Embedding v,
           {| requests := S (requests spent); sleeps := sleeps spent |})
      | None =>
          if attempt <? retry_count - 1
          then
            let wait_time := 2 ^ attempt in
            create_embedding_loop api retry_count rest
              {| requests := S (requests spent);
                 sleeps := sleeps spent ++ [wait_time] |}
          else
            (FailedAfter retry_count,
             {| requests := S (requests spent); sleeps := sleeps spent |})
      end
  end.

Definition create_embedding (api : nat -> option (list Q))
    (retry_count : Z) : embedding_outcome * Effort :=
  match Py.range 0 retry_count 1 with
  | Ok attempts =>
      create_embedding_loop api retry_count attempts
        {| requests := 0; sleeps := [] |}
  | Raise _ => (ReturnedNone, {| requests := 0; sleeps := [] |})
  end.

End MongoToQdrantMigrator.

(** * Vocabulary of the properties *)

Import Py TextProcessor.

(** Ceiling of [a / b], for a positive [b]. *)
Definition ceil_div (a b : Z) : Z := - ((- a) / b).

(** The chunk count the specification announces. *)
Definition spec_chunk_count (n W O : Z) : Z :=
  ceil_div (Z.max (n - O) 0) (W - O).

(** The [k]-th window of [W] words, the windows being [step] apart. *)
Definition window (words : list string) (W step : Z) (k : nat)
  : list string :=
  take (Z.to_nat W) (drop (Z.to_nat (Z.of_nat k * step)) words).

(** No whitespace in [s]. *)
Fixpoint no_space (s : string) : bool :=
  match s with
  | EmptyString => true
  | String c s' => negb (isspace c) && no_space s'
  end.

(** A word: not empty, no whitespace. *)
Definition is_word (s : string) : bool := truthy s && no_space s.

(** What the specification asks of the tokenizer, "encode/decode
    round-trip sufficient to support prefix truncation": a prefix of the
    tokens of a text, decoded, encodes to that prefix again. *)
Definition prefix_round_trip (enc : Tokenizer) : Prop :=
  forall text tokens n,
    encode enc text = Ok tokens ->
    encode enc (decode enc (take n tokens)) = Ok (take n tokens).

(** The document [MongoDatabase.add_document] stores from world [w]. *)
Definition stored_document (env : Env) (w : World) (content : string)
    (metadata : option (gmap string scalar)) : Document :=
  {| doc_id := uuid4 env (uuid_counter w); doc_content := content;
     doc_metadata := or_empty metadata; created_at := utcnow env |}.

(** The points [RetrievalService.add_document] sends to the index from
    world [w], for the chunks and their embeddings. *)
Definition chunk_points (env : Env) (w : World)
    (metadata : option (gmap string scalar)) (chunks : list string)
    (embeddings : list (list Q)) : list PointStruct :=
  QdrantDatabase.zip_points
    (map (fun i => uuid4 env (S (uuid_counter w) + i)%nat)
       (seq 0 (length embeddings)))
    embeddings
    (imap (RetrievalService.chunk_payload (uuid4 env (uuid_counter w)) metadata)
       chunks).

(** The world after the requests [cs]. *)
Definition logged (w : World) (cs : list Call) : World :=
  {| documents := documents w; collection := collection w;
     uuid_counter := uuid_counter w; calls := calls w ++ cs |}.

(** The [Upsert] requests among the calls. *)
Definition upserts (cs : list Call) : list (list PointStruct) :=
  omap (fun c => match c with Upsert points => Some points | _ => None end) cs.

(** Best first. *)
Definition better (a b : Hit) : Prop := (score b <= score a)%Q.

(** ** Concrete instances *)

(** A tokenizer with one token per character, the token being the
    character's code. *)
Definition char_tokenizer : Tokenizer := {|
  encode := fun s => Ok (map (fun c => Z.of_nat (nat_of_ascii c))
                           (list_ascii_of_string s));
  decode := fun l => string_of_list_ascii
                       (map (fun t => ascii_of_nat (Z.to_nat t)) l)
|}.

(** *** A byte-pair tokenizer

    A tokenizer of the kind [tiktoken] provides, on texts given by their
    UTF-8 bytes, with a vocabulary cut down to the 256 bytes and two
    merged tokens. *)

Definition byte (n : nat) : ascii := ascii_of_nat n.

(** The replacement character U+FFFD. *)
Definition replacement : string :=
  String (byte 239) (String (byte 191) (String (byte 189) "")).

(** A hyphen and the letter U+0134, whose bytes are 196 and 180. *)
Definition hyphen_letter : string :=
  String "-" (String (byte 196) (String (byte 180) "")).

(** A hyphen and the replacement character. *)
Definition hyphen_replacement : string := String "-" replacement.

(** Token 256 is the hyphen with the first byte of a two-byte letter,
    token 257 the replacement character; the tokens below 256 are the
    single bytes. *)
Fixpoint merge_bytes (bytes : list ascii) : list Z :=
  match bytes with
  | [] => []
  | a :: rest =>
      match rest with
      | b :: rest' =>
          if Ascii.eqb a "-" && Ascii.eqb b (byte 196)
          then 256 :: merge_bytes rest'
          else
            match rest' with
            | c :: rest'' =>
                if Ascii.eqb a (byte 239) && Ascii.eqb b (byte 191)
                   && Ascii.eqb c (byte 189)
                then 257 :: merge_bytes rest''
                else Z.of_nat (nat_of_ascii a) :: merge_bytes rest
            | [] => Z.of_nat (nat_of_ascii a) :: merge_bytes rest
            end
      | [] => [Z.of_nat (nat_of_ascii a)]
      end
  end.

Definition token_bytes (t : Z) : list ascii :=
  if t =? 256 then ["-"%char; byte 196]
  else if t =? 257 then [byte 239; byte 191; byte 189]
  else [ascii_of_nat (Z.to_nat t)].

(** How many bytes follow a first byte [b] in UTF-8: [None] for a byte
    that starts nothing. *)
Definition continuation_bytes (b : ascii) : option nat :=
  let n := nat_of_ascii b in
  if (n <? 128)%nat then Some 0%nat
  else if (n <? 194)%nat then None
  else if (n <? 224)%nat then Some 1%nat
  else if (n <? 240)%nat then Some 2%nat
  else if (n <? 245)%nat then Some 3%nat
  else None.

Definition is_continuation (b : ascii) : bool :=
  let n := nat_of_ascii b in (128 <=? n)%nat && (n <? 192)%nat.

(** [bytes.decode("utf-8", errors="replace")]: bytes that are not the
    bytes of a character are replaced, a broken-off sequence by one
    replacement character. [pending] are the bytes of the character being
    read, of which [need] are still to come. *)
Fixpoint decode_replace (pending : string) (need : nat) (bytes : list ascii)
  : string :=
  match bytes with
  | [] => if (need =? 0)%nat then "" else replacement
  | b :: rest =>
      let fresh :=
        match continuation_bytes b with
        | Some O => String b (decode_replace "" 0 rest)
        | Some (S k) => decode_replace (String b "") (S k) rest
        | None => replacement +:+ decode_replace "" 0 rest
        end in
      match need with
      | O => fresh
      | S k =>
          if is_continuation b
          then
            match k with
            | O => pending +:+ String b (decode_replace "" 0 rest)
            | S _ => decode_replace (pending +:+ String b "") k rest
            end
          else replacement +:+ fresh
      end
  end.

(** The tokenizer: [encode] refuses a text that holds the special token,
    as [tiktoken] does when no special token is allowed. *)
Definition byte_pair_tokenizer : Tokenizer := {|
  encode := fun s =>
    if PyExt.contains s "<|endoftext|>"
    then Raise (ValueError "disallowed special token '<|endoftext|>'")
    else Ok (merge_bytes (list_ascii_of_string s));
  decode := fun l => decode_replace "" 0 (concat (map token_bytes l))
|}.

Definition dot (a b : list Q) : Q := foldr Qplus 0%Q (zip_with Qmult a b).

(** Both stores up, an embedder mapping every text to [(1, 0)], and the
    dot product as similarity (the cosine, on vectors of unit length). *)
Definition demo_env : Env := {|
  uuid4 := fun n => "uuid-" +:+ pretty n;
  utcnow := 0;
  mongo_up := true;
  qdrant_up := true;
  embedding_model := fun _ => Some [1%Q; 0%Q];
  similarity := dot
|}.

(** The same with the document store down. *)
Definition mongo_down_env : Env := {|
  uuid4 := uuid4 demo_env;
  utcnow := 0;
  mongo_up := false;
  qdrant_up := true;
  embedding_model := embedding_model demo_env;
  similarity := dot
|}.

(** The same with an embedder that fails on every text. *)
Definition embedder_down_env : Env := {|
  uuid4 := uuid4 demo_env;
  utcnow := 0;
  mongo_up := true;
  qdrant_up := true;
  embedding_model := fun _ => None;
  similarity := dot
|}.

Definition empty_world : World :=
  {| documents := []; collection := []; uuid_counter := 0; calls := [] |}.

Definition demo_point (id : string) (v : list Q) (text : string)
  : PointStruct :=
  {| point_id := id; vector := v;
     payload := RetrievalService.chunk_payload "d0" None 0 text |}.

(** An index of three points of unit length, scoring [1], [0] and [0.8]
    against the query vector [(1, 0)]. *)
Definition demo_world : World :=
  {| documents := [];
     collection := [demo_point "p0" [1%Q; 0%Q] "hello world";
                    demo_point "p1" [0%Q; 1%Q] "far away";
                    demo_point "p2" [(4 # 5)%Q; (3 # 5)%Q] "hello there"];
     uuid_counter := 0; calls := [] |}.

(** Settings with the overlap equal to the window. *)
Definition equal_overlap_settings : Settings := {|
  TOP_K_RESULTS := 5;
  MAX_CONTEXT_LENGTH := 3000;
  CHUNK_SIZE := 50;
  CHUNK_OVERLAP := 50
|}.

Fixpoint repeat_text (n : nat) (s : string) : string :=
  match n with
  | O => ""
  | S n' => s +:+ repeat_text n' s
  end.

(** ** Vocabulary of the further properties *)

(** A payload with a string under ["content"]. *)
Definition has_content (payload : gmap string pyval) : Prop :=
  exists s, payload !! "content" = Some (VStr s).

(** The backend with the stores replaced. *)
Definition with_stores (b : Backend) (w : World) : Backend :=
  {| stores := w; chat_sessions := chat_sessions b;
     completion_requests := completion_requests b |}.

(** The backend after one more chat-completion request. *)
Definition requested (b : Backend) (messages : list PromptMessage)
  : Backend :=
  {| stores := stores b; chat_sessions := chat_sessions b;
     completion_requests := completion_requests b ++ [messages] |}.

(** The first session stored under [id]. *)
Definition find_session (id : string) (l : list ChatSession)
  : option ChatSession :=
  List.find (fun s => bool_decide (session_id s = id)) l.

(** A stored message as it is sent to the chat model. *)
Definition prompt_of (msg : ChatMessage) : PromptMessage :=
  {| prompt_role := msg_role msg; prompt_content := msg_content msg |}.

(** The messages [chat] sends for a query, given the context assembled
    and the history read. *)
Definition chat_messages (query context : string)
    (history : list ChatMessage) : list PromptMessage :=
  [{| prompt_role := "system";
      prompt_content :=
        ChatService.system_prompt +:+ context
        +:+ (if ChatService._detect_contact_intent query
             then ChatService.contact_instruction
             else ChatService.fallback_instruction) |}]
  ++ map prompt_of (PyExt.slice_from history (-5))
  ++ [{| prompt_role := "user"; prompt_content := query |}].

(** The first step of [chat]: the session id given, or a new session. *)
Definition open_session (env : Env) (answers : nat -> bool)
    (session_id : option string) : B string :=
  if ChatService.no_session_id session_id
  then
    id <== on_stores (fresh_uuid env) ;;
    _ <== MongoSessions.create_session
            (ChatService.at_request env (answers 0%nat)) id ;;
    done id
  else done (default "" session_id).

(** The messages of the exchange, as [chat] stores them. *)
Definition exchange (env : Env) (query answer : string) : list ChatMessage :=
  [{| msg_role := "user"; msg_content := query;
      msg_timestamp := utcnow env |};
   {| msg_role := "assistant"; msg_content := answer;
      msg_timestamp := utcnow env |}].


(** What a source of the answer shows of the result it was made from: its
    score, and its content, whole up to 200 characters and otherwise cut
    to 200 characters and three dots. *)
Definition source_shows (h : Hit) (src : Source) : Prop :=
  source_score src = score h
  /\ exists c text,
       hit_payload h !! "content" = Some (VStr c)
       /\ source_content src = VStr text
       /\ ((String.length c <= 200)%nat -> text = c)
       /\ ((200 < String.length c)%nat ->
             text = PyExt.str_slice_to c 200 +:+ "...")
       /\ (String.length text <= 203)%nat.

(** A chat model with one answer. *)
Definition demo_llm : LanguageModel :=
  {| chat_completion := fun _ => Some "Happy to help." |}.

(** A document store that answers every request of a call, and one that
    fails on request [k] only. *)
Definition store_up : nat -> bool := fun _ => true.

Definition store_fails_at (k : nat) : nat -> bool :=
  fun n => negb (n =? k)%nat.

Definition demo_message (n : nat) : ChatMessage :=
  {| msg_role := if Nat.even n then "user" else "assistant";
     msg_content := "m" +:+ pretty n; msg_timestamp := 0 |}.

(** A session of seven messages, over the index [demo_world]. *)
Definition demo_session : ChatSession :=
  {| session_id := "s1"; messages := map demo_message (seq 0 7);
     session_created_at := 0; session_updated_at := 0 |}.

Definition demo_backend : Backend :=
  {| stores := demo_world; chat_sessions := [demo_session];
     completion_requests := [] |}.

Definition no_result : ChatResult :=
  {| answer := ""; sources := []; result_session_id := "" |}.

(** Parsers that read two paragraphs, two pages, the bytes as they are,
    and metadata naming another file. *)
Definition demo_parsers : Parsers :=
  {| docx_paragraphs := fun _ => Ok ["first"; "second"];
     pdf_page_texts := fun _ => Ok ["page one"; "page two"];
     decode_utf8 := fun content_bytes => Ok content_bytes;
     json_loads := fun _ => Ok (<["filename" := SStr "other.pdf"]> ∅) |}.

(** The seconds slept before attempt [k]: [1, 2, 4, ...]. *)
Definition backoff (k : nat) : list Z :=
  map (fun j => 2 ^ Z.of_nat j) (seq 0 k).

Definition total (l : list Z) : Z := foldr Z.add 0 l.

(** An embedding API that fails [failures] times and then answers. *)
Definition flaky_api (failures : nat) (n : nat) : option (list Q) :=
  if (n <? failures)%nat then None else Some [1%Q; 0%Q].

(** * Properties *)

(** ** The chunker *)

Section Chunker.

Variable cfg : Settings.

Lemma split_from_truthy cur s :
  Forall (fun w => truthy w = true) (split_from cur s).
Proof.
  revert cur. induction s as [|c s IH]; intros cur; simpl.
  - destruct (truthy cur) eqn:E; auto.
  - destruct (isspace c); [destruct (truthy cur) eqn:E|]; auto.
Qed.

Lemma split_truthy text : Forall (fun w => truthy w = true) (split text).
Proof. apply split_from_truthy. Qed.

Lemma truthy_app a b : truthy a = true -> truthy (a +:+ b) = true.
Proof. destruct a; simpl; [discriminate | reflexivity]. Qed.

Lemma join_truthy sep w l :
  truthy w = true -> truthy (join sep (w :: l)) = true.
Proof.
  intros H. simpl. destruct l; [assumption | now apply truthy_app].
Qed.

Lemma slice_window {A} (l : list A) (i W : Z) :
  0 <= i -> 0 < W ->
  slice l i (i + W) = take (Z.to_nat W) (drop (Z.to_nat i) l).
Proof.
  intros Hi HW. unfold slice, clip_index.
  destruct (Z.ltb_spec i 0); [lia|].
  destruct (Z.ltb_spec (i + W) 0); [lia|].
  set (n := Z.of_nat (length l)).
  destruct (Z.le_gt_cases n i) as [Hge|Hlt].
  - rewrite !drop_ge by lia. now rewrite !take_nil.
  - rewrite (Z.min_l i n) by lia.
    destruct (Z.le_gt_cases (i + W) n) as [Hfit|Hover].
    + rewrite Z.min_l by lia. f_equal. lia.
    + rewrite Z.min_r by lia.
      rewrite !take_ge; [reflexivity | |]; rewrite length_drop; lia.
Qed.

Lemma slice_prefix {A} (l : list A) (n : Z) :
  0 <= n -> slice l 0 n = take (Z.to_nat n) l.
Proof.
  intros Hn. unfold slice, clip_index.
  destruct (Z.ltb_spec n 0); [lia|]. cbn [Z.ltb Z.compare].
  rewrite (Z.min_l 0) by lia. cbn [Z.to_nat]. rewrite drop_0, Z.sub_0_r.
  destruct (Z.le_gt_cases n (Z.of_nat (length l))).
  - now rewrite Z.min_l by lia.
  - rewrite Z.min_r by lia. rewrite !take_ge by lia. reflexivity.
Qed.

Lemma window_truthy words W step k :
  Forall (fun w => truthy w = true) words ->
  0 < W -> 0 <= step ->
  Z.of_nat k * step < Z.of_nat (length words) ->
  truthy (join " " (window words W step k)) = true.
Proof.
  intros Hw HW Hs Hk. unfold window.
  destruct (drop (Z.to_nat (Z.of_nat k * step)) words) as [|w rest] eqn:E.
  - apply (f_equal length) in E. rewrite length_drop in E. simpl in E. lia.
  - destruct (Z.to_nat W) as [|m] eqn:EW; [lia|]. simpl take.
    apply join_truthy.
    assert (Hin : w ∈ words).
    { apply (subseteq_drop (Z.to_nat (Z.of_nat k * step)) words).
      rewrite E. left. }
    rewrite Forall_forall in Hw. auto.
Qed.

(** No window is skipped: the loop appends one chunk per index. *)
Lemma chunk_loop_windows words W step ks chunks :
  Forall (fun w => truthy w = true) words ->
  0 < W -> 0 <= step ->
  Forall (fun k => Z.of_nat k * step < Z.of_nat (length words)) ks ->
  chunk_loop words W (map (fun k => 0 + Z.of_nat k * step) ks) chunks
  = chunks ++ map (fun k => join " " (window words W step k)) ks.
Proof.
  intros Hw HW Hs Hks. revert chunks.
  induction Hks as [|k ks Hk Hks IH]; intros chunks; cbn [map chunk_loop].
  - now rewrite app_nil_r.
  - rewrite Z.add_0_l, slice_window by lia.
    change (take (Z.to_nat W) (drop (Z.to_nat (Z.of_nat k * step)) words))
      with (window words W step k).
    rewrite window_truthy by assumption.
    rewrite IH. now rewrite <- app_assoc.
Qed.

Lemma range_len_ceil n step :
  0 <= n -> 0 < step -> range_len 0 n step = ceil_div n step.
Proof.
  intros Hn Hs. unfold range_len, ceil_div.
  destruct (Z.ltb_spec 0 step); [|lia].
  destruct (Z.ltb_spec 0 n).
  - rewrite Z.sub_0_r.
    pose proof (Z.div_mod (n - 1) step ltac:(lia)) as Hq.
    pose proof (Z.mod_pos_bound (n - 1) step Hs) as Hr.
    set (q := (n - 1) / step) in *. set (r := (n - 1) mod step) in *.
    assert (- n / step = - (q + 1)) as Hd.
    { symmetry.
      apply (Z.div_unique_pos (- n) step (- (q + 1)) (step - 1 - r)); lia. }
    rewrite Hd. lia.
  - assert (n = 0) as -> by lia. reflexivity.
Qed.

Lemma ceil_div_bounds n step :
  0 < step ->
  (ceil_div n step - 1) * step < n <= ceil_div n step * step.
Proof.
  intros Hs. unfold ceil_div.
  pose proof (Z.div_mod (- n) step ltac:(lia)) as Hq.
  pose proof (Z.mod_pos_bound (- n) step Hs) as Hr.
  nia.
Qed.

Lemma ceil_div_zero step : ceil_div 0 step = 0.
Proof. unfold ceil_div. cbn [Z.opp]. now rewrite Zdiv_0_l. Qed.

Lemma ceil_div_one n step : 0 < n <= step -> ceil_div n step = 1.
Proof.
  intros H. pose proof (ceil_div_bounds n step ltac:(lia)) as Hb.
  set (c := ceil_div n step) in *.
  assert (0 < c) by nia. assert (c - 1 < 1) by nia. lia.
Qed.

(** What [chunk_text] computes once the window [W] and the overlap [O] it
    works with are known: the windows at [0], [W-O], [2(W-O)], ..., each
    joined by single spaces. *)
Lemma chunk_text_windows text chunk_size overlap :
  let W := or_default chunk_size (CHUNK_SIZE cfg) in
  let O := or_default overlap (CHUNK_OVERLAP cfg) in
  let words := split text in
  0 < W -> O < W ->
  chunk_text cfg text chunk_size overlap
  = Ok (map (fun k => join " " (window words W (W - O) k))
          (seq 0 (Z.to_nat (ceil_div (Z.of_nat (length words)) (W - O))))).
Proof.
  intros W O words HW HO. unfold chunk_text, range.
  fold W O words.
  destruct (Z.eqb_spec (W - O) 0); [lia|].
  rewrite range_len_ceil by lia.
  rewrite chunk_loop_windows; try lia; [reflexivity | apply split_truthy |].
  apply Forall_forall. intros k Hk. apply elem_of_seq in Hk.
  pose proof (ceil_div_bounds (Z.of_nat (length words)) (W - O) ltac:(lia)).
  nia.
Qed.

Lemma window_whole words W step :
  Z.of_nat (length words) <= W -> window words W step 0 = words.
Proof.
  intros H. unfold window. simpl. rewrite drop_0. apply take_ge. lia.
Qed.

Lemma window_length words W step k :
  (length (window words W step k) <= Z.to_nat W)%nat.
Proof. unfold window. rewrite length_take. lia. Qed.

(** Word [j] of window [k] is word [k * step + j] of the text. *)
Lemma window_lookup words W step k j :
  0 <= step -> (j < Z.to_nat W)%nat ->
  window words W step k !! j = words !! (Z.to_nat (Z.of_nat k * step) + j)%nat.
Proof.
  intros Hs Hj. unfold window.
  rewrite lookup_take_lt by assumption. now rewrite lookup_drop.
Qed.

(** The last [O] words of a window are the first [O] words of the next. *)
Lemma window_overlap words W O k :
  0 <= O < W ->
  drop (Z.to_nat (W - O)) (window words W (W - O) k)
  = take (Z.to_nat O) (window words W (W - O) (S k)).
Proof.
  intros HO. unfold window.
  rewrite take_take, Nat.min_l by lia.
  replace (Z.to_nat W) with (Z.to_nat (W - O) + Z.to_nat O)%nat at 1 by lia.
  rewrite <- take_drop_commute, drop_drop.
  rewrite Nat2Z.inj_succ, <- Z2Nat.inj_add by nia.
  do 3 f_equal. lia.
Qed.

(** For the window and overlap [chunk_text] works with, chunk [i] exists
    exactly when [i * (W - O)] is below the number of words, and is then
    window [i]. *)
Lemma chunk_text_lookup text chunk_size overlap chunks i :
  let W := or_default chunk_size (CHUNK_SIZE cfg) in
  let O := or_default overlap (CHUNK_OVERLAP cfg) in
  let words := split text in
  0 < W -> O < W ->
  chunk_text cfg text chunk_size overlap = Ok chunks ->
  chunks !! i
  = if Z.of_nat i * (W - O) <? Z.of_nat (length words)
    then Some (join " " (window words W (W - O) i))
    else None.
Proof.
  intros W O words HW HO H.
  rewrite (chunk_text_windows text chunk_size overlap HW HO) in H.
  fold W O words in H. injection H as <-.
  pose proof (ceil_div_bounds (Z.of_nat (length words)) (W - O)
                ltac:(lia)) as Hb.
  rewrite list_lookup_fmap.
  destruct (Z.ltb_spec (Z.of_nat i * (W - O)) (Z.of_nat (length words))).
  - rewrite lookup_seq_lt by nia. reflexivity.
  - rewrite lookup_seq_ge by nia. reflexivity.
Qed.

Lemma append_assoc a b c : (a +:+ b) +:+ c = a +:+ (b +:+ c).
Proof.
  induction a as [|x a IH]; [reflexivity|].
  change (String x ((a +:+ b) +:+ c) = String x (a +:+ (b +:+ c))).
  now rewrite IH.
Qed.

Lemma append_nil_r a : a +:+ "" = a.
Proof.
  induction a as [|x a IH]; [reflexivity|].
  change (String x (a +:+ "") = String x a). now rewrite IH.
Qed.

Lemma no_space_app a b :
  no_space (a +:+ b) = no_space a && no_space b.
Proof.
  induction a as [|x a IH]; [reflexivity|].
  change (negb (isspace x) && no_space (a +:+ b)
          = negb (isspace x) && no_space a && no_space b).
  rewrite IH. now rewrite andb_assoc.
Qed.

Lemma split_from_no_space cur s :
  no_space cur = true ->
  Forall (fun w => is_word w = true) (split_from cur s).
Proof.
  revert cur. induction s as [|c s IH]; intros cur Hcur; simpl.
  - unfold is_word. destruct (truthy cur) eqn:E; [|constructor].
    constructor; [|constructor]. now rewrite E, Hcur.
  - destruct (isspace c) eqn:Ec.
    + destruct (truthy cur) eqn:E; [|now apply IH].
      constructor; [|now apply IH]. unfold is_word. now rewrite E, Hcur.
    + apply IH. rewrite no_space_app, Hcur. simpl. now rewrite Ec.
Qed.

Lemma split_words text : Forall (fun w => is_word w = true) (split text).
Proof. now apply split_from_no_space. Qed.

Lemma split_from_word cur w rest :
  no_space w = true ->
  split_from cur (w +:+ rest) = split_from (cur +:+ w) rest.
Proof.
  revert cur. induction w as [|c w IH]; intros cur Hw; simpl.
  - now rewrite append_nil_r.
  - simpl in Hw. apply andb_prop in Hw as [Hc Hw].
    apply negb_true_iff in Hc. rewrite Hc, (IH _ Hw), append_assoc.
    reflexivity.
Qed.

Lemma split_from_one w :
  is_word w = true -> split_from "" w = [w].
Proof.
  unfold is_word. intros H. apply andb_prop in H as [Ht Hn].
  rewrite <- (append_nil_r w) at 1.
  rewrite (split_from_word "" w "" Hn).
  change ("" +:+ w) with w. cbn [split_from]. now rewrite Ht.
Qed.

Lemma split_join ws :
  Forall (fun w => is_word w = true) ws -> split (join " " ws) = ws.
Proof.
  unfold split. induction 1 as [|w ws Hw Hws IH].
  - reflexivity.
  - destruct ws as [|w' ws].
    + now apply split_from_one.
    + unfold is_word in Hw. apply andb_prop in Hw as [Ht Hn].
      change (join " " (w :: w' :: ws))
        with (w +:+ String " "%char (join " " (w' :: ws))).
      rewrite (split_from_word "" w _ Hn).
      change ("" +:+ w) with w. cbn [split_from].
      change (isspace " "%char) with true. cbn iota.
      rewrite Ht. now rewrite IH.
Qed.

(** Read back as text, chunk [i] is window [i]: it holds at most [W]
    words, the words [i * (W - O)] onwards of the text. *)
Lemma chunk_text_words text chunk_size overlap chunks i c :
  let W := or_default chunk_size (CHUNK_SIZE cfg) in
  let O := or_default overlap (CHUNK_OVERLAP cfg) in
  0 < W -> O < W ->
  chunk_text cfg text chunk_size overlap = Ok chunks ->
  chunks !! i = Some c ->
  split c = window (split text) W (W - O) i
  /\ (length (split c) <= Z.to_nat W)%nat.
Proof.
  intros W O HW HO H Hc.
  rewrite (chunk_text_lookup text chunk_size overlap chunks i HW HO H) in Hc.
  fold W O in Hc.
  destruct (Z.of_nat i * (W - O) <? Z.of_nat (length (split text)));
    [|discriminate].
  injection Hc as <-.
  assert (Hs : split (join " " (window (split text) W (W - O) i))
               = window (split text) W (W - O) i).
  { apply split_join. unfold window.
    apply Forall_take, Forall_drop, split_words. }
  rewrite Hs. split; [reflexivity | apply window_length].
Qed.

(** C1, as amended. For a window [W > 0] and an overlap [0 < O < W],
    [chunk_text] returns [ceil(n / (W - O))] chunks, [n] being the number
    of words of the text; the empty text gives no chunk, and a text of at
    least one and at most [W - O] words gives exactly one chunk, its words
    joined by single spaces. *)
Theorem chunk_count text W O :
  0 < W -> 0 < O < W ->
  exists chunks,
    chunk_text cfg text (Some W) (Some O) = Ok chunks
    /\ Z.of_nat (length chunks)
       = ceil_div (Z.of_nat (length (split text))) (W - O)
    /\ (text = "" -> chunks = [])
    /\ (0 < Z.of_nat (length (split text)) <= W - O ->
        chunks = [join " " (split text)]).
Proof.
  intros HW HO.
  pose proof (chunk_text_windows text (Some W) (Some O)) as H.
  cbn [or_default] in H.
  destruct (Z.eqb_spec W 0); [lia|]. destruct (Z.eqb_spec O 0); [lia|].
  specialize (H HW ltac:(lia)).
  pose proof (ceil_div_bounds (Z.of_nat (length (split text))) (W - O)
                ltac:(lia)) as Hb.
  eexists. split; [exact H|]. split; [|split].
  - rewrite length_map, length_seq. nia.
  - intros ->. cbn [split split_from truthy length].
    now rewrite ceil_div_zero.
  - intros Hn. rewrite ceil_div_one by lia.
    change (Z.to_nat 1) with 1%nat. cbn [seq map].
    now rewrite window_whole by lia.
Qed.

End Chunker.

(** Five words, window 3, overlap 1: three chunks. *)
Lemma chunk_count_witness :
  exists chunks,
    chunk_text settings "the quick brown fox jumps" (Some 3) (Some 1)
    = Ok chunks
    /\ Z.of_nat (length chunks) = 3.
Proof.
  destruct (chunk_count settings "the quick brown fox jumps" 3 1
              ltac:(lia) ltac:(lia)) as (chunks & H & Hlen & _).
  exists chunks. split; [exact H | exact Hlen].
Defined.

(** C1 fails as stated: one word with [W = 2], [O = 1] gives one chunk
    where the announced count is [0]; two words with [W = 3], [O = 2]
    (fewer words than [W]) give two chunks; and a text of one blank, which
    is not empty and has fewer than [W] words, gives none. *)
Lemma chunk_count_counterexample :
  (chunk_text settings "a" (Some 2) (Some 1) = Ok ["a"]
   /\ spec_chunk_count (Z.of_nat (length (split "a"))) 2 1 = 0)
  /\ chunk_text settings "a b" (Some 3) (Some 2) = Ok ["a b"; "b"]
  /\ chunk_text settings " " (Some 3) (Some 2) = Ok [].
Proof. repeat split; vm_compute; reflexivity. Qed.

(** C2, at the failing input. Called with [W = 51] and [O = 0] on three
    words, [chunk_text] steps by [51 - 50 = 1] word, the configured overlap
    having replaced the [0]: three chunks, starting at the words [0], [1]
    and [2], where C2 has chunk [1] start at word [51], past the end of
    the text, that is one chunk only. *)
Theorem chunk_text_zero_overlap :
  chunk_text settings "a b c" (Some 51) (Some 0)
  = Ok ["a b c"; "b c"; "c"]
  /\ Z.of_nat (length (split "a b c")) <= 1 * (51 - 0).
Proof. split; vm_compute; [reflexivity | discriminate]. Qed.

(** Layout of the chunks, for a window [W > 0] and an overlap
    [0 < O < W]: chunk [i] exists exactly when [i * (W - O)] is below the
    number of words; read back as text it holds at most [W] words, those
    from word [i * (W - O)] on; and the last [O] words of a chunk of [W]
    words are the first [O] words of the next chunk. *)
Theorem chunk_layout cfg text W O chunks :
  0 < W -> 0 < O < W ->
  chunk_text cfg text (Some W) (Some O) = Ok chunks ->
  (forall i, is_Some (chunks !! i)
             <-> Z.of_nat i * (W - O) < Z.of_nat (length (split text)))
  /\ (forall i c, chunks !! i = Some c ->
        split c = window (split text) W (W - O) i
        /\ Z.of_nat (length (split c)) <= W)
  /\ (forall i c c', chunks !! i = Some c -> chunks !! S i = Some c' ->
        Z.of_nat (length (split c)) = W ->
        drop (Z.to_nat (W - O)) (split c) = take (Z.to_nat O) (split c')
        /\ Z.of_nat (length (drop (Z.to_nat (W - O)) (split c))) = O).
Proof.
  intros HW HO H.
  assert (HWe : or_default (Some W) (CHUNK_SIZE cfg) = W).
  { cbn [or_default]. destruct (Z.eqb_spec W 0); [lia | reflexivity]. }
  assert (HOe : or_default (Some O) (CHUNK_OVERLAP cfg) = O).
  { cbn [or_default]. destruct (Z.eqb_spec O 0); [lia | reflexivity]. }
  pose proof (fun i => chunk_text_lookup cfg text (Some W) (Some O) chunks i)
    as Hlook.
  pose proof (fun i c => chunk_text_words cfg text (Some W) (Some O) chunks i c)
    as Hwords.
  cbv zeta in Hlook, Hwords. rewrite HWe, HOe in Hlook, Hwords.
  split; [|split].
  - intros i. rewrite (Hlook i HW ltac:(lia) H).
    destruct (Z.ltb_spec (Z.of_nat i * (W - O))
                (Z.of_nat (length (split text)))).
    + split; [auto | eauto].
    + split; [intros [x Hx]; discriminate | lia].
  - intros i c Hc.
    destruct (Hwords i c HW ltac:(lia) H Hc) as [Hs Hl].
    split; [exact Hs | lia].
  - intros i c c' Hc Hc' Hfull.
    destruct (Hwords i c HW ltac:(lia) H Hc) as [Hs _].
    destruct (Hwords (S i) c' HW ltac:(lia) H Hc') as [Hs' _].
    split.
    + rewrite Hs, Hs'. apply window_overlap. lia.
    + rewrite length_drop. lia.
Qed.

Lemma chunk_layout_witness :
  chunk_text settings "a b c d e" (Some 3) (Some 1)
  = Ok ["a b c"; "c d e"; "e"]
  /\ drop (Z.to_nat (3 - 1)) (split "a b c")
     = take (Z.to_nat 1) (split "c d e").
Proof.
  assert (H : chunk_text settings "a b c d e" (Some 3) (Some 1)
              = Ok ["a b c"; "c d e"; "e"]) by (vm_compute; reflexivity).
  split; [exact H|].
  apply (chunk_layout settings "a b c d e" 3 1 _ ltac:(lia) ltac:(lia) H)
    with (i := 0%nat); reflexivity.
Defined.

(** The scenario of the specification: 2000 words, window 500, overlap 50,
    here the configured defaults. *)
Example chunk_text_2000_words :
  let text := repeat_text 500 "the quick brown fox " in
  length (split text) = 2000%nat
  /\ match chunk_text settings text None None with
     | Ok chunks => map (fun c => length (split c)) chunks
     | Raise _ => []
     end = [500; 500; 500; 500; 200]%nat.
Proof. split; vm_compute; reflexivity. Qed.

(** ** The token budgeter *)

Section TokenBudget.

Variable enc : Tokenizer.

Lemma count_tokens_Ok text tokens :
  encode enc text = Ok tokens ->
  count_tokens enc text = Ok (Z.of_nat (length tokens)).
Proof. unfold count_tokens. now intros ->. Qed.

(** What [encode] raises, truncating and counting raise. *)
Lemma truncate_raises text N e :
  encode enc text = Raise e ->
  truncate_to_token_limit enc text N = Raise e
  /\ count_tokens enc text = Raise e.
Proof. unfold truncate_to_token_limit, count_tokens. now intros ->. Qed.

Lemma truncate_short text tokens N :
  encode enc text = Ok tokens -> Z.of_nat (length tokens) <= N ->
  truncate_to_token_limit enc text N = Ok text.
Proof.
  unfold truncate_to_token_limit. intros -> H.
  destruct (Z.leb_spec (Z.of_nat (length tokens)) N); [reflexivity | lia].
Qed.

Lemma truncate_long text tokens N :
  encode enc text = Ok tokens -> 0 <= N -> N < Z.of_nat (length tokens) ->
  truncate_to_token_limit enc text N
  = Ok (decode enc (take (Z.to_nat N) tokens)).
Proof.
  unfold truncate_to_token_limit. intros -> HN H.
  destruct (Z.leb_spec (Z.of_nat (length tokens)) N); [lia|].
  now rewrite slice_prefix.
Qed.

(** C3. The budget is exceeded where a token ends inside a character.
    Take a tokenizer that, as the encoding of the chat model does, gives
    the hyphen followed by the letter U+0134 more than one token, the
    first of which alone decodes to the hyphen and the replacement
    character, a text of two tokens. Truncated to a budget of one token,
    the text comes back as that text of two tokens. *)
Theorem truncate_exceeds_budget first rest a b :
  encode enc hyphen_letter = Ok (first :: rest) -> rest <> [] ->
  decode enc [first] = hyphen_replacement ->
  encode enc hyphen_replacement = Ok [a; b] ->
  truncate_to_token_limit enc hyphen_letter 1 = Ok hyphen_replacement
  /\ count_tokens enc hyphen_replacement = Ok 2.
Proof.
  intros Hletter Hrest Hfirst Hreplacement. split.
  - rewrite (truncate_long _ _ 1 Hletter) by
      (destruct rest; [congruence | simpl; lia]).
    change (Z.to_nat 1) with 1%nat. cbn [take]. rewrite take_0.
    now rewrite Hfirst.
  - now rewrite (count_tokens_Ok _ _ Hreplacement).
Qed.

(** C8. For the same reason truncating twice is not truncating once:
    when the first token of the hyphen and the replacement character
    decodes to the hyphen, the second truncation to one token cuts the
    result of the first down to the hyphen. *)
Theorem truncate_twice_differs first rest a b :
  encode enc hyphen_letter = Ok (first :: rest) -> rest <> [] ->
  decode enc [first] = hyphen_replacement ->
  encode enc hyphen_replacement = Ok [a; b] ->
  decode enc [a] = "-" ->
  exists once twice,
    truncate_to_token_limit enc hyphen_letter 1 = Ok once
    /\ truncate_to_token_limit enc once 1 = Ok twice
    /\ once = hyphen_replacement
    /\ twice = "-"
    /\ twice <> once.
Proof.
  intros Hletter Hrest Hfirst Hreplacement Ha.
  exists hyphen_replacement, "-". split; [|split].
  - rewrite (truncate_long _ _ 1 Hletter) by
      (destruct rest; [congruence | simpl; lia]).
    change (Z.to_nat 1) with 1%nat. cbn [take]. rewrite take_0.
    now rewrite Hfirst.
  - rewrite (truncate_long _ _ 1 Hreplacement) by (simpl; lia).
    change (Z.to_nat 1) with 1%nat. cbn [take]. now rewrite Ha.
  - repeat split. discriminate.
Qed.

Hypothesis round_trip : prefix_round_trip enc.

(** A text over budget is cut to exactly [N] tokens, with a tokenizer
    whose token prefixes round-trip. *)
Lemma count_truncate_long text tokens N :
  encode enc text = Ok tokens -> 0 <= N -> N < Z.of_nat (length tokens) ->
  encode enc (decode enc (take (Z.to_nat N) tokens))
  = Ok (take (Z.to_nat N) tokens)
  /\ Z.of_nat (length (take (Z.to_nat N) tokens)) = N.
Proof.
  intros He HN H. split; [now apply round_trip with text|].
  rewrite length_take. lia.
Qed.

(** With a tokenizer whose token prefixes round-trip and which encodes
    the text, the text truncated to a budget [N >= 0] counts at most [N]
    tokens, and a text that already fits its budget is returned
    unchanged. *)
Lemma round_trip_within_budget text tokens N :
  encode enc text = Ok tokens -> 0 <= N ->
  (exists text' n,
     truncate_to_token_limit enc text N = Ok text'
     /\ count_tokens enc text' = Ok n /\ n <= N)
  /\ (Z.of_nat (length tokens) <= N ->
      truncate_to_token_limit enc text N = Ok text).
Proof.
  intros He HN. split; [|now apply truncate_short].
  destruct (Z.le_gt_cases (Z.of_nat (length tokens)) N) as [Hle|Hgt].
  - exists text, (Z.of_nat (length tokens)).
    rewrite (truncate_short _ _ _ He Hle), (count_tokens_Ok _ _ He). auto.
  - destruct (count_truncate_long _ _ _ He HN ltac:(lia)) as [Hp Hl].
    eexists _, _. rewrite (truncate_long _ _ _ He HN) by lia.
    rewrite (count_tokens_Ok _ _ Hp). split; [reflexivity|].
    split; [reflexivity | lia].
Qed.

(** With such a tokenizer, truncating twice to the same budget [N >= 0]
    is truncating once. *)
Lemma round_trip_idempotent text text' N :
  0 <= N ->
  truncate_to_token_limit enc text N = Ok text' ->
  truncate_to_token_limit enc text' N = Ok text'.
Proof.
  intros HN H. destruct (encode enc text) as [tokens|e] eqn:He;
    [|destruct (truncate_raises text N e He); congruence].
  destruct (Z.le_gt_cases (Z.of_nat (length tokens)) N) as [Hle|Hgt].
  - rewrite (truncate_short _ _ _ He Hle) in H. injection H as <-.
    now apply truncate_short with tokens.
  - rewrite (truncate_long _ _ _ He HN) in H by lia. injection H as <-.
    destruct (count_truncate_long _ _ _ He HN ltac:(lia)) as [Hp Hl].
    apply truncate_short with (take (Z.to_nat N) tokens); [exact Hp | lia].
Qed.

End TokenBudget.

Lemma char_tokenizer_round_trip : prefix_round_trip char_tokenizer.
Proof.
  intros text tokens n [= <-]. simpl. f_equal.
  rewrite list_ascii_of_string_of_list_ascii, <- !fmap_take.
  rewrite <- !list_fmap_compose.
  apply list_fmap_ext. intros _ c _. simpl.
  now rewrite Nat2Z.id, ascii_nat_embedding.
Qed.

Example truncate_hello :
  truncate_to_token_limit char_tokenizer "hello world" 5 = Ok "hello".
Proof. vm_compute. reflexivity. Qed.

Lemma truncate_exceeds_budget_witness :
  truncate_to_token_limit byte_pair_tokenizer hyphen_letter 1
  = Ok hyphen_replacement
  /\ count_tokens byte_pair_tokenizer hyphen_replacement = Ok 2.
Proof.
  apply (truncate_exceeds_budget byte_pair_tokenizer 256 [180] 45 257);
    (vm_compute; reflexivity) || discriminate.
Defined.

Lemma truncate_twice_differs_witness :
  exists once twice,
    truncate_to_token_limit byte_pair_tokenizer hyphen_letter 1 = Ok once
    /\ truncate_to_token_limit byte_pair_tokenizer once 1 = Ok twice
    /\ once = hyphen_replacement
    /\ twice = "-"
    /\ twice <> once.
Proof.
  apply (truncate_twice_differs byte_pair_tokenizer 256 [180] 45 257);
    (vm_compute; reflexivity) || discriminate.
Defined.

(** The byte-pair tokenizer does not have the round trip. *)
Example byte_pair_tokenizer_no_round_trip :
  ~ prefix_round_trip byte_pair_tokenizer.
Proof.
  intros H. specialize (H hyphen_letter [256; 180] 1%nat eq_refl).
  vm_compute in H. discriminate H.
Qed.

(** ** Context assembly *)

(** C9. With a tokenizer that gives the empty text no token and decodes no
    token to the empty text, [get_context_string] of no result raises
    nothing and returns the empty text, whatever the configured budget. *)
Theorem get_context_string_empty cfg enc :
  encode enc "" = Ok [] -> decode enc [] = "" ->
  RetrievalService.get_context_string cfg enc [] = Ok "".
Proof.
  intros He Hd. unfold RetrievalService.get_context_string. simpl.
  unfold truncate_to_token_limit. rewrite He.
  destruct (Z.of_nat (length []) <=? MAX_CONTEXT_LENGTH cfg); [reflexivity|].
  unfold slice. rewrite drop_nil, take_nil. now rewrite Hd.
Qed.

Lemma get_context_string_empty_witness :
  RetrievalService.get_context_string settings char_tokenizer [] = Ok "".
Proof.
  apply (get_context_string_empty settings char_tokenizer); reflexivity.
Defined.

(** ** Ingest *)

Section Ingest.

Variable cfg : Settings.

Variable env : Env.

Lemma fresh_uuids_run {A} (vs : list A) w :
  QdrantDatabase.fresh_uuids env vs w
  = (Ok (map (fun i => uuid4 env (uuid_counter w + i)%nat)
           (seq 0 (length vs))),
     {| documents := documents w; collection := collection w;
        uuid_counter := (uuid_counter w + length vs)%nat;
        calls := calls w |}).
Proof.
  revert w. induction vs as [|v vs IH]; intros w; simpl.
  - unfold ret. destruct w; simpl. now rewrite Nat.add_0_r.
  - unfold bind, fresh_uuid at 1. rewrite IH. simpl. unfold ret.
    rewrite Nat.add_0_r. rewrite <- seq_shift, map_map.
    do 2 f_equal.
    + f_equal. apply map_ext. intros i. f_equal. lia.
    + f_equal. lia.
Qed.

(** Every way [add_document] can run, with the world it leaves. *)
Lemma add_document_run content metadata w :
  RetrievalService.add_document cfg env content metadata w
  = let doc := stored_document env w content metadata in
    if mongo_up env then
      match chunk_text cfg content None None with
      | Raise e =>
          (Raise e,
           {| documents := documents w ++ [doc]; collection := collection w;
              uuid_counter := S (uuid_counter w);
              calls := calls w ++ [InsertOne doc] |})
      | Ok chunks =>
          match EmbeddingService.embed_batch env chunks with
          | None =>
              (Raise EmbeddingFailure,
               {| documents := documents w ++ [doc];
                  collection := collection w;
                  uuid_counter := S (uuid_counter w);
                  calls := calls w ++ [InsertOne doc; Embeddings chunks] |})
          | Some embeddings =>
              let points := chunk_points env w metadata chunks embeddings in
              if qdrant_up env then
                if bool_decide (points = []) then
                  (Raise (UnexpectedResponse "Empty update request"),
                   {| documents := documents w ++ [doc];
                      collection := collection w;
                      uuid_counter :=
                        (S (uuid_counter w) + length embeddings)%nat;
                      calls := calls w ++ [InsertOne doc; Embeddings chunks;
                                           Upsert points] |})
                else
                  (Ok (doc_id doc),
                   {| documents := documents w ++ [doc];
                      collection :=
                        fold_left QdrantDatabase.upsert_point points
                          (collection w);
                      uuid_counter :=
                        (S (uuid_counter w) + length embeddings)%nat;
                      calls := calls w ++ [InsertOne doc; Embeddings chunks;
                                           Upsert points] |})
              else
                (Raise (StoreUnavailable "qdrant"),
                 {| documents := documents w ++ [doc];
                    collection := collection w;
                    uuid_counter :=
                      (S (uuid_counter w) + length embeddings)%nat;
                    calls := calls w ++ [InsertOne doc; Embeddings chunks;
                                         Upsert points] |})
          end
      end
    else
      (Raise (StoreUnavailable "mongodb"),
       {| documents := documents w; collection := collection w;
          uuid_counter := S (uuid_counter w);
          calls := calls w ++ [InsertOne doc] |}).
Proof.
  unfold RetrievalService.add_document, MongoDatabase.add_document,
    MongoDatabase.insert_one, EmbeddingService.get_embeddings,
    QdrantDatabase.add_vectors, QdrantDatabase.upsert,
    bind, fresh_uuid, log, lift, ret, raise, stored_document, chunk_points.
  cbn [documents collection uuid_counter calls].
  destruct (mongo_up env); [|reflexivity].
  destruct (chunk_text cfg content None None) as [chunks|e]; [|reflexivity].
  destruct (EmbeddingService.embed_batch env chunks) as [vs|].
  - rewrite fresh_uuids_run. cbn [documents collection uuid_counter calls].
    destruct (qdrant_up env); cbn [negb];
      [destruct (bool_decide _)|];
      cbn [documents collection uuid_counter calls];
      rewrite <- !app_assoc; reflexivity.
  - cbn [documents collection uuid_counter calls].
    rewrite <- app_assoc. reflexivity.
Qed.

Lemma embed_batch_Forall2 chunks vs :
  EmbeddingService.embed_batch env chunks = Some vs ->
  Forall2 (fun c v => embedding_model env c = Some v) chunks vs.
Proof.
  revert vs. induction chunks as [|c chunks IH]; intros vs; simpl.
  - intros [= <-]. constructor.
  - destruct (embedding_model env c) as [v|] eqn:Ec; [|discriminate].
    destruct (EmbeddingService.embed_batch env chunks) as [vs'|];
      [|discriminate].
    intros [= <-]. constructor; auto.
Qed.

Lemma embed_batch_None chunks c :
  c ∈ chunks -> embedding_model env c = None ->
  EmbeddingService.embed_batch env chunks = None.
Proof.
  intros Hin Hc. induction Hin as [c chunks|c c' chunks Hin IH]; simpl.
  - now rewrite Hc.
  - rewrite (IH Hc). now destruct (embedding_model env c').
Qed.

Lemma zip_points_lookup ids vs ps i :
  QdrantDatabase.zip_points ids vs ps !! i
  = match ids !! i, vs !! i, ps !! i with
    | Some a, Some v, Some p =>
        Some {| point_id := a; vector := v; payload := p |}
    | _, _, _ => None
    end.
Proof.
  revert vs ps i. induction ids as [|a ids IH]; intros vs ps i; simpl.
  - reflexivity.
  - destruct vs as [|v vs]; simpl.
    + destruct i; simpl; [reflexivity|]. now destruct (ids !! i).
    + destruct ps as [|p ps]; simpl.
      * destruct i; simpl; [reflexivity|].
        destruct (ids !! i); [|reflexivity]. now destruct (vs !! i).
      * destruct i; simpl; [reflexivity | apply IH].
Qed.

Lemma zip_points_length ids vs ps :
  length ids = length vs -> length ps = length vs ->
  length (QdrantDatabase.zip_points ids vs ps) = length vs.
Proof.
  revert vs ps. induction ids as [|a ids IH]; intros [|v vs] [|p ps];
    simpl; try discriminate; try reflexivity.
  intros [= H1] [= H2]. f_equal. now apply IH.
Qed.

(** One point per chunk, in chunk order, carrying the chunk's embedding
    and payload. *)
Lemma chunk_points_spec w metadata chunks embeddings :
  Forall2 (fun c v => embedding_model env c = Some v) chunks embeddings ->
  let points := chunk_points env w metadata chunks embeddings in
  length points = length chunks
  /\ forall i c, chunks !! i = Some c ->
       exists p, points !! i = Some p
         /\ embedding_model env c = Some (vector p)
         /\ payload p
            = RetrievalService.chunk_payload (uuid4 env (uuid_counter w))
                metadata i c.
Proof.
  intros HF points. pose proof (Forall2_length _ _ _ HF) as Hlen.
  split.
  - unfold points, chunk_points. rewrite zip_points_length; auto.
    + now rewrite length_map, length_seq.
    + now rewrite length_imap.
  - intros i c Hc.
    destruct (Forall2_lookup_l _ _ _ _ _ HF Hc) as (v & Hv & Hcv).
    unfold points, chunk_points. rewrite zip_points_lookup.
    rewrite list_lookup_fmap, lookup_seq_lt
      by (apply lookup_lt_Some in Hv; lia).
    rewrite Hv, list_lookup_imap, Hc. simpl.
    eexists. split; [reflexivity|]. simpl. auto.
Qed.

Lemma chunk_payload_lookup id metadata i c :
  let p := RetrievalService.chunk_payload id metadata i c in
  p !! "doc_id" = Some (VStr id)
  /\ p !! "chunk_index" = Some (VInt (Z.of_nat i))
  /\ p !! "content" = Some (VStr c)
  /\ p !! "metadata" = Some (VDict (or_empty metadata)).
Proof.
  unfold RetrievalService.chunk_payload. repeat split; by simplify_map_eq.
Qed.

Lemma upserts_snoc cs c :
  upserts (cs ++ [c])
  = upserts cs ++ match c with Upsert points => [points] | _ => [] end.
Proof. unfold upserts. rewrite omap_app. now destruct c. Qed.

(** C7. When [add_document] succeeds with chunks [c_0 .. c_(n-1)], the
    document store has received the document under the returned id, and
    one request has gone to the index, carrying one point per chunk: point
    [i] holds the embedding of [c_i] and a payload with the returned
    document id, the ordinal [i], the text [c_i] and the document's
    metadata. *)
Theorem add_document_payloads content metadata w id w' :
  RetrievalService.add_document cfg env content metadata w = (Ok id, w') ->
  exists chunks points,
    chunk_text cfg content None None = Ok chunks
    /\ documents w'
       = documents w ++ [{| doc_id := id; doc_content := content;
                            doc_metadata := or_empty metadata;
                            created_at := utcnow env |}]
    /\ upserts (calls w') = upserts (calls w) ++ [points]
    /\ length points = length chunks
    /\ forall i c, chunks !! i = Some c ->
         exists p, points !! i = Some p
           /\ embedding_model env c = Some (vector p)
           /\ payload p !! "doc_id" = Some (VStr id)
           /\ payload p !! "chunk_index" = Some (VInt (Z.of_nat i))
           /\ payload p !! "content" = Some (VStr c)
           /\ payload p !! "metadata" = Some (VDict (or_empty metadata)).
Proof.
  rewrite add_document_run. cbv zeta.
  destruct (mongo_up env); [|discriminate].
  destruct (chunk_text cfg content None None) as [chunks|e]; [|discriminate].
  destruct (EmbeddingService.embed_batch env chunks) as [vs|] eqn:Evs;
    [|discriminate].
  destruct (qdrant_up env); [|discriminate].
  destruct (bool_decide _); [discriminate|].
  intros [= <- <-]. cbn [documents calls].
  apply embed_batch_Forall2 in Evs.
  destruct (chunk_points_spec w metadata chunks vs Evs) as (Hlen & Hpts).
  exists chunks, (chunk_points env w metadata chunks vs).
  split; [reflexivity|]. split; [reflexivity|]. split.
  - unfold upserts. rewrite omap_app. simpl. reflexivity.
  - split; [exact Hlen|]. intros i c Hc.
    destruct (Hpts i c Hc) as (p & Hp & Hv & Hpay).
    exists p. split; [exact Hp|]. split; [exact Hv|]. rewrite Hpay.
    apply chunk_payload_lookup.
Qed.

(** C6. If the document store refuses the write, [add_document] raises
    and nothing is sent to the index; if the embedding of any chunk fails,
    it raises and nothing is sent to the index; whenever it raises, the
    index is as it was; and when it succeeds, one request has carried one
    point per chunk. *)
Theorem add_document_all_or_nothing content metadata w :
  let out := RetrievalService.add_document cfg env content metadata w in
  (mongo_up env = false ->
     out.1 = Raise (StoreUnavailable "mongodb")
     /\ collection out.2 = collection w
     /\ upserts (calls out.2) = upserts (calls w))
  /\ (forall chunks c,
        chunk_text cfg content None None = Ok chunks ->
        c ∈ chunks -> embedding_model env c = None ->
        is_ok out.1 = false
        /\ collection out.2 = collection w
        /\ upserts (calls out.2) = upserts (calls w))
  /\ (is_ok out.1 = false -> collection out.2 = collection w)
  /\ (is_ok out.1 = true ->
        exists chunks points,
          chunk_text cfg content None None = Ok chunks
          /\ length points = length chunks
          /\ upserts (calls out.2) = upserts (calls w) ++ [points]
          /\ collection out.2
             = fold_left QdrantDatabase.upsert_point points (collection w)).
Proof.
  cbv zeta. rewrite add_document_run. cbv zeta.
  split; [|split; [|split]].
  - intros ->. cbn. split; [reflexivity|]. split; [reflexivity|].
    rewrite upserts_snoc. now rewrite app_nil_r.
  - intros chunks c Hchunks Hin Hc. rewrite Hchunks.
    rewrite (embed_batch_None chunks c Hin Hc).
    destruct (mongo_up env); cbn; (split; [reflexivity|]);
      (split; [reflexivity|]); unfold upserts; rewrite omap_app; simpl;
      now rewrite app_nil_r.
  - destruct (mongo_up env); [|reflexivity].
    destruct (chunk_text cfg content None None) as [chunks|e]; [|reflexivity].
    destruct (EmbeddingService.embed_batch env chunks) as [vs|];
      [|reflexivity].
    destruct (qdrant_up env); [|reflexivity].
    destruct (bool_decide _); [reflexivity | discriminate].
  - destruct (mongo_up env); [|discriminate].
    destruct (chunk_text cfg content None None) as [chunks|e]; [|discriminate].
    destruct (EmbeddingService.embed_batch env chunks) as [vs|] eqn:Evs;
      [|discriminate].
    destruct (qdrant_up env); [|discriminate].
    destruct (bool_decide _); [discriminate|].
    intros _. cbn [fst snd calls collection].
    apply embed_batch_Forall2 in Evs.
    destruct (chunk_points_spec w metadata chunks vs Evs) as (Hlen & _).
    exists chunks, (chunk_points env w metadata chunks vs).
    split; [reflexivity|]. split; [exact Hlen|]. split; [|reflexivity].
    unfold upserts. rewrite omap_app. reflexivity.
Qed.

End Ingest.

(** Three words under window 2 and overlap 1: three chunks, three
    points. *)
Lemma add_document_payloads_witness :
  let cfg := {| TOP_K_RESULTS := 5; MAX_CONTEXT_LENGTH := 3000;
                CHUNK_SIZE := 2; CHUNK_OVERLAP := 1 |} in
  let out := RetrievalService.add_document cfg demo_env "a b c" None
               empty_world in
  exists chunks points,
    chunk_text cfg "a b c" None None = Ok chunks
    /\ upserts (calls out.2) = [points]
    /\ length points = length chunks.
Proof.
  cbv zeta.
  set (cfg := {| TOP_K_RESULTS := 5; MAX_CONTEXT_LENGTH := 3000;
                 CHUNK_SIZE := 2; CHUNK_OVERLAP := 1 |}).
  assert (Hrun :
    RetrievalService.add_document cfg demo_env "a b c" None empty_world
    = (Ok "uuid-0",
       (RetrievalService.add_document cfg demo_env "a b c" None
          empty_world).2)) by (vm_compute; reflexivity).
  destruct (add_document_payloads cfg demo_env "a b c" None empty_world
              "uuid-0" _ Hrun)
    as (chunks & points & Hc & _ & Hu & Hlen & _).
  exists chunks, points. split; [exact Hc|]. split; [exact Hu | exact Hlen].
Defined.

Example add_document_three_chunks :
  let cfg := {| TOP_K_RESULTS := 5; MAX_CONTEXT_LENGTH := 3000;
                CHUNK_SIZE := 2; CHUNK_OVERLAP := 1 |} in
  let out := RetrievalService.add_document cfg demo_env "a b c" None
               empty_world in
  out.1 = Ok "uuid-0"
  /\ map doc_id (documents out.2) = ["uuid-0"]
  /\ map point_id (collection out.2) = ["uuid-1"; "uuid-2"; "uuid-3"]
  /\ map (fun p => payload p !! "content") (collection out.2)
     = [Some (VStr "a b"); Some (VStr "b c"); Some (VStr "c")]
  /\ map (fun p => payload p !! "chunk_index") (collection out.2)
     = [Some (VInt 0); Some (VInt 1); Some (VInt 2)]
  /\ map (fun p => payload p !! "doc_id") (collection out.2)
     = [Some (VStr "uuid-0"); Some (VStr "uuid-0"); Some (VStr "uuid-0")].
Proof. repeat split; vm_compute; reflexivity. Qed.

(** The document store down, then the embedder down, on an index of three
    points. *)
Lemma add_document_all_or_nothing_witness :
  (let out := RetrievalService.add_document settings mongo_down_env "a b c"
                None demo_world in
   out.1 = Raise (StoreUnavailable "mongodb")
   /\ collection out.2 = collection demo_world
   /\ upserts (calls out.2) = upserts (calls demo_world))
  /\ (let out := RetrievalService.add_document settings embedder_down_env
                   "a b c" None demo_world in
      is_ok out.1 = false
      /\ collection out.2 = collection demo_world
      /\ upserts (calls out.2) = upserts (calls demo_world)).
Proof.
  cbv zeta. split.
  - apply (add_document_all_or_nothing settings mongo_down_env "a b c" None
             demo_world). reflexivity.
  - apply (add_document_all_or_nothing settings embedder_down_env "a b c"
             None demo_world) with (chunks := ["a b c"]) (c := "a b c");
      [vm_compute; reflexivity | left | reflexivity].
Defined.

(** A failure after the first step leaves the document in the document
    store: with the embedder down, [add_document] raises and the document
    is stored all the same. *)
Example add_document_keeps_document :
  let out := RetrievalService.add_document settings embedder_down_env
               "a b c" None empty_world in
  out.1 = Raise EmbeddingFailure
  /\ map doc_content (documents out.2) = ["a b c"]
  /\ collection out.2 = [].
Proof. repeat split; vm_compute; reflexivity. Qed.

(** ** Query *)

Section Retrieval.

Variable cfg : Settings.

Variable env : Env.

Lemma retrieve_run query top_k w :
  RetrievalService.retrieve_relevant_context cfg env query top_k w
  = let limit := or_default top_k (TOP_K_RESULTS cfg) in
    match embedding_model env query with
    | None => (Raise EmbeddingFailure, logged w [Embeddings [query]])
    | Some v =>
        QdrantDatabase.search env v limit
          QdrantDatabase.default_score_threshold
          (logged w [Embeddings [query]])
    end.
Proof.
  unfold RetrievalService.retrieve_relevant_context,
    EmbeddingService.get_embedding, bind, log, ret, raise, logged.
  destruct (embedding_model env query) as [v|]; [|reflexivity].
  destruct (QdrantDatabase.search _ _ _ _ _) as [[hits|e] w']; reflexivity.
Qed.

Lemma search_calls v limit threshold w :
  calls (QdrantDatabase.search env v limit threshold w).2
  = calls w ++ [QueryPoints v limit threshold].
Proof.
  unfold QdrantDatabase.search, QdrantDatabase.query_points, bind, log, ret,
    raise.
  cbn [calls]. destruct (qdrant_up env); cbn [negb]; [|reflexivity].
  destruct (limit <? 1); reflexivity.
Qed.

(** The requests of a query whose text the embedder accepts: the
    embedding, then the search, with the limit [top_k or TOP_K_RESULTS]. *)
Lemma retrieve_calls query top_k w v :
  embedding_model env query = Some v ->
  calls (RetrievalService.retrieve_relevant_context cfg env query top_k w).2
  = calls w ++ [Embeddings [query];
                QueryPoints v (or_default top_k (TOP_K_RESULTS cfg))
                  QdrantDatabase.default_score_threshold].
Proof.
  intros Hv. rewrite retrieve_run, Hv. cbv zeta.
  rewrite search_calls. unfold logged. cbn [calls].
  now rewrite <- app_assoc.
Qed.

Lemma insert_hit_Forall (P : Hit -> Prop) h l :
  P h -> Forall P l -> Forall P (QdrantDatabase.insert_hit h l).
Proof.
  intros Hh Hl. induction Hl as [|h' l Hh' Hl IH]; simpl.
  - auto.
  - destruct (Qle_bool (score h') (score h)); auto.
Qed.

Lemma sort_hits_Forall (P : Hit -> Prop) l :
  Forall P l -> Forall P (QdrantDatabase.sort_hits l).
Proof.
  unfold QdrantDatabase.sort_hits.
  induction 1; simpl; [constructor | now apply insert_hit_Forall].
Qed.

Lemma insert_hit_sorted h l :
  StronglySorted better l ->
  StronglySorted better (QdrantDatabase.insert_hit h l).
Proof.
  induction 1 as [|h' l Hl IH Hall]; simpl.
  - repeat constructor.
  - destruct (Qle_bool (score h') (score h)) eqn:E.
    + apply Qle_bool_iff in E.
      constructor; [now constructor|].
      constructor; [exact E|].
      eapply Forall_impl; [exact Hall|].
      intros x Hx. unfold better in *. now apply Qle_trans with (score h').
    + constructor; [exact IH|].
      apply insert_hit_Forall; [|exact Hall].
      unfold better. apply Qnot_lt_le. intros Hlt.
      apply Qlt_le_weak, Qle_bool_iff in Hlt. congruence.
Qed.

Lemma sort_hits_sorted l : StronglySorted better (QdrantDatabase.sort_hits l).
Proof.
  unfold QdrantDatabase.sort_hits.
  induction l; simpl; [constructor | now apply insert_hit_sorted].
Qed.

Lemma StronglySorted_take {A} (R : A -> A -> Prop) l n :
  StronglySorted R l -> StronglySorted R (take n l).
Proof.
  intros H. revert n. induction H as [|x l Hl IH Hall]; intros [|n]; simpl;
    try constructor; auto.
  now apply Forall_take.
Qed.

(** What a successful search returns: no more than a positive [limit],
    nothing below the threshold, best first. *)
Lemma search_results v limit threshold w hits w' :
  QdrantDatabase.search env v limit threshold w = (Ok hits, w') ->
  1 <= limit
  /\ Z.of_nat (length hits) <= limit
  /\ Forall (fun h => (threshold <= score h)%Q) hits
  /\ StronglySorted better hits.
Proof.
  unfold QdrantDatabase.search, QdrantDatabase.query_points, bind, log, ret,
    raise.
  destruct (qdrant_up env); cbn [negb]; [|discriminate].
  destruct (Z.ltb_spec limit 1); [discriminate|].
  intros [= <- _].
  match goal with |- context [map ?f (take ?n ?l)] =>
    replace (map f (take n l)) with (take n l) end.
  2:{ rewrite <- (map_id (take _ _)) at 1. apply map_ext. now intros []. }
  split; [assumption|]. split; [|split].
  - rewrite length_take. lia.
  - apply Forall_take, sort_hits_Forall, Forall_forall.
    intros h Hh. apply list_elem_of_In, filter_In in Hh as [_ Hh].
    apply negb_true_iff in Hh.
    destruct (Qlt_le_dec threshold (score h)) as [Hlt|Hle];
      [now apply Qlt_le_weak|].
    apply Qle_bool_iff in Hle. congruence.
  - apply StronglySorted_take, sort_hits_sorted.
Qed.

(** For a caller-supplied [top_k] other than [0], the limit sent to the
    index is [top_k], and it is the configured default when no [top_k] is
    supplied; a query that succeeds returns at most that many results,
    best first, every score at or above the threshold [0.7]. *)
Theorem retrieve_limit_and_results query top_k w :
  let limit := match top_k with Some k => k | None => TOP_K_RESULTS cfg end in
  let out := RetrievalService.retrieve_relevant_context cfg env query top_k w in
  top_k <> Some 0 ->
  (forall v, embedding_model env query = Some v ->
     calls out.2
     = calls w ++ [Embeddings [query];
                   QueryPoints v limit QdrantDatabase.default_score_threshold])
  /\ (forall hits, out.1 = Ok hits ->
        Z.of_nat (length hits) <= limit
        /\ Forall (fun h => (QdrantDatabase.default_score_threshold
                             <= score h)%Q) hits
        /\ StronglySorted better hits).
Proof.
  intros limit out Hk.
  assert (Hlim : or_default top_k (TOP_K_RESULTS cfg) = limit).
  { unfold limit, or_default. destruct top_k as [k|]; [|reflexivity].
    destruct (Z.eqb_spec k 0); [congruence | reflexivity]. }
  split.
  - intros v Hv. unfold out. now rewrite (retrieve_calls query top_k w v Hv), Hlim.
  - intros hits Hhits. unfold out in Hhits. rewrite retrieve_run in Hhits.
    cbv zeta in Hhits. rewrite Hlim in Hhits.
    destruct (embedding_model env query) as [v|]; [|discriminate].
    destruct (QdrantDatabase.search env v limit
                QdrantDatabase.default_score_threshold
                (logged w [Embeddings [query]])) as [r w'] eqn:Es.
    simpl in Hhits. subst r.
    apply search_results in Es. tauto.
Qed.

End Retrieval.

Lemma retrieve_limit_and_results_witness :
  let out := RetrievalService.retrieve_relevant_context settings demo_env
               "hello" (Some 1) demo_world in
  calls out.2 = [Embeddings ["hello"];
                 QueryPoints [1%Q; 0%Q] 1 QdrantDatabase.default_score_threshold]
  /\ forall hits, out.1 = Ok hits ->
       Z.of_nat (length hits) <= 1
       /\ Forall (fun h => (QdrantDatabase.default_score_threshold
                            <= score h)%Q) hits
       /\ StronglySorted better hits.
Proof.
  pose proof (retrieve_limit_and_results settings demo_env "hello" (Some 1)
                demo_world ltac:(discriminate)) as [Hcalls Hres].
  split; [exact (Hcalls _ eq_refl) | exact Hres].
Defined.

Example retrieve_top_1 :
  let out := RetrievalService.retrieve_relevant_context settings demo_env
               "hello" (Some 1) demo_world in
  match out.1 with
  | Ok hits => map hit_id hits
  | Raise _ => []
  end = ["p0"].
Proof. vm_compute. reflexivity. Qed.

(** C4, at the failing input. Asked for [top_k = 0] results on an index
    where two points score at least [0.7], [retrieve_relevant_context]
    sends the limit [5], the configured default having replaced the [0],
    and returns both points, where C4 has the limit [0] and at most [0]
    results. *)
Theorem retrieve_zero_top_k :
  let out := RetrievalService.retrieve_relevant_context settings demo_env
               "hello" (Some 0) demo_world in
  calls out.2 = [Embeddings ["hello"];
                 QueryPoints [1%Q; 0%Q] 5 QdrantDatabase.default_score_threshold]
  /\ match out.1 with
     | Ok hits => map hit_id hits
     | Raise _ => []
     end = ["p0"; "p2"].
Proof. split; vm_compute; reflexivity. Qed.

(** ** Defaults and configuration *)

Lemma or_default_same d : or_default (Some d) d = d.
Proof. unfold or_default. now destruct (d =? 0). Qed.

(** C10. A [0] passed for the overlap is replaced by the configured
    overlap: [chunk_text text chunk_size 0] is [chunk_text text chunk_size]
    with no overlap given, and for a window [W > CHUNK_OVERLAP] its chunks
    are the windows [W - CHUNK_OVERLAP] words apart. A [0] passed for
    [top_k] is replaced by the configured [TOP_K_RESULTS], which is the
    limit the index is queried with. *)
Theorem zero_means_default cfg env text chunk_size query w :
  chunk_text cfg text chunk_size (Some 0)
  = chunk_text cfg text chunk_size None
  /\ chunk_text cfg text chunk_size (Some 0)
     = chunk_text cfg text chunk_size (Some (CHUNK_OVERLAP cfg))
  /\ (forall W, 0 < W -> CHUNK_OVERLAP cfg < W ->
        chunk_text cfg text (Some W) (Some 0)
        = Ok (map (fun k => join " " (window (split text) W
                                        (W - CHUNK_OVERLAP cfg) k))
                (seq 0 (Z.to_nat (ceil_div (Z.of_nat (length (split text)))
                                    (W - CHUNK_OVERLAP cfg))))))
  /\ RetrievalService.retrieve_relevant_context cfg env query (Some 0) w
     = RetrievalService.retrieve_relevant_context cfg env query None w
  /\ RetrievalService.retrieve_relevant_context cfg env query (Some 0) w
     = RetrievalService.retrieve_relevant_context cfg env query
         (Some (TOP_K_RESULTS cfg)) w
  /\ (forall v, embedding_model env query = Some v ->
        calls (RetrievalService.retrieve_relevant_context cfg env query
                 (Some 0) w).2
        = calls w ++ [Embeddings [query];
                      QueryPoints v (TOP_K_RESULTS cfg)
                        QdrantDatabase.default_score_threshold]).
Proof.
  split; [reflexivity|]. split; [|split; [|split; [|split]]].
  - unfold chunk_text. now rewrite or_default_same.
  - intros W HW HO.
    pose proof (chunk_text_windows cfg text (Some W) (Some 0)) as H.
    cbn [or_default Z.eqb] in H.
    destruct (Z.eqb_spec W 0); [lia|]. exact (H HW HO).
  - reflexivity.
  - rewrite !retrieve_run. cbv zeta. now rewrite or_default_same.
  - intros v Hv. now rewrite (retrieve_calls cfg env query (Some 0) w v Hv).
Qed.

(** With the default settings: window 52 on four words steps by
    [52 - 50 = 2] words, and the index is asked for 5 results. *)
Lemma zero_means_default_witness :
  chunk_text settings "a b c d" (Some 52) (Some 0) = Ok ["a b c d"; "c d"]
  /\ calls (RetrievalService.retrieve_relevant_context settings demo_env
              "hello" (Some 0) demo_world).2
     = [Embeddings ["hello"];
        QueryPoints [1%Q; 0%Q] 5 QdrantDatabase.default_score_threshold].
Proof.
  destruct (zero_means_default settings demo_env "a b c d" (Some 52) "hello"
              demo_world) as (_ & _ & Hw & _ & _ & Hq).
  split.
  - rewrite (Hw 52 ltac:(lia) ltac:(simpl; lia)). vm_compute. reflexivity.
  - exact (Hq _ eq_refl).
Defined.

(** C5, as amended. Nothing is checked before the work starts. With a
    window [W > 0], an overlap above [W] gives no chunk and no error, and
    an overlap equal to [W] raises the [ValueError] of [range]; when the
    configured overlap equals the configured window, [add_document] raises
    that error after the document has been stored. A negative [top_k] is
    sent as it is to the index, after the query has been embedded. *)
Theorem configuration_not_validated cfg env text content metadata W O
    query k w :
  0 < W ->
  (W < O -> chunk_text cfg text (Some W) (Some O) = Ok [])
  /\ (O = W ->
      chunk_text cfg text (Some W) (Some O)
      = Raise (ValueError "range() arg 3 must not be zero"))
  /\ (CHUNK_SIZE cfg = CHUNK_OVERLAP cfg -> mongo_up env = true ->
      let out := RetrievalService.add_document cfg env content metadata w in
      out.1 = Raise (ValueError "range() arg 3 must not be zero")
      /\ documents out.2
         = documents w ++ [stored_document env w content metadata])
  /\ (k < 0 -> forall v, embedding_model env query = Some v ->
      calls (RetrievalService.retrieve_relevant_context cfg env query
               (Some k) w).2
      = calls w ++ [Embeddings [query];
                    QueryPoints v k QdrantDatabase.default_score_threshold]).
Proof.
  intros HW. split; [|split; [|split]].
  - intros HO. unfold chunk_text, range, range_len. cbn [or_default].
    destruct (Z.eqb_spec W 0); [lia|]. destruct (Z.eqb_spec O 0); [lia|].
    destruct (Z.eqb_spec (W - O) 0); [lia|].
    destruct (Z.ltb_spec 0 (W - O)); [lia|].
    destruct (Z.ltb_spec (Z.of_nat (length (split text))) 0); [lia|].
    reflexivity.
  - intros ->. unfold chunk_text, range. cbn [or_default].
    destruct (Z.eqb_spec W 0); [lia|]. now rewrite Z.sub_diag.
  - intros Hcfg Hup. cbv zeta. rewrite add_document_run, Hup. cbv zeta.
    unfold chunk_text, range. cbn [or_default]. rewrite Hcfg, Z.sub_diag.
    split; reflexivity.
  - intros Hk v Hv. rewrite (retrieve_calls cfg env query (Some k) w v Hv).
    cbn [or_default]. destruct (Z.eqb_spec k 0); [lia | reflexivity].
Qed.

Lemma configuration_not_validated_witness :
  chunk_text settings "a b c" (Some 2) (Some 3) = Ok []
  /\ chunk_text settings "a b c" (Some 2) (Some 2)
     = Raise (ValueError "range() arg 3 must not be zero")
  /\ calls (RetrievalService.retrieve_relevant_context settings demo_env
              "hello" (Some (-1)) demo_world).2
     = [Embeddings ["hello"];
        QueryPoints [1%Q; 0%Q] (-1) QdrantDatabase.default_score_threshold].
Proof.
  split; [|split].
  - apply (configuration_not_validated settings demo_env "a b c" "" None 2 3
             "hello" (-1) demo_world ltac:(lia)). lia.
  - apply (configuration_not_validated settings demo_env "a b c" "" None 2 2
             "hello" (-1) demo_world ltac:(lia)). reflexivity.
  - apply (configuration_not_validated settings demo_env "a b c" "" None 2 3
             "hello" (-1) demo_world ltac:(lia)); [lia | reflexivity].
Defined.

(** C5 fails as stated: overlap 3 on window 2 is accepted and yields no
    chunk for a text of three words; with overlap and window both
    configured as 50, [add_document] stores the document before it raises;
    and [top_k = -1] reaches the embedder and the index. *)
Lemma eager_rejection_counterexample :
  chunk_text settings "a b c" (Some 2) (Some 3) = Ok []
  /\ (let out := RetrievalService.add_document equal_overlap_settings
                   demo_env "a b c" None empty_world in
      out.1 = Raise (ValueError "range() arg 3 must not be zero")
      /\ map doc_content (documents out.2) = ["a b c"])
  /\ (let out := RetrievalService.retrieve_relevant_context settings demo_env
                   "hello" (Some (-1)) demo_world in
      calls out.2
      = [Embeddings ["hello"];
         QueryPoints [1%Q; 0%Q] (-1) QdrantDatabase.default_score_threshold]).
Proof. repeat split; vm_compute; reflexivity. Qed.

(** * Further properties of the code *)

(** ** More on the chunker *)

(** Every chunk the loop adds is the join of a slice of the words. *)
Lemma chunk_loop_elem words W idxs chunks c :
  c ∈ chunk_loop words W idxs chunks ->
  c ∈ chunks
  \/ exists i, c = join " " (slice words i (i + W)) /\ truthy c = true.
Proof.
  revert chunks. induction idxs as [|i idxs IH]; intros chunks; simpl.
  - auto.
  - intros H. apply IH in H as [H|H]; [|auto].
    destruct (truthy (join " " (slice words i (i + W)))) eqn:E; [|auto].
    apply elem_of_app in H as [H|H]; [auto|].
    apply list_elem_of_singleton in H. subst c. right. eauto.
Qed.

Lemma slice_words {A} (P : A -> Prop) (l : list A) lo hi :
  Forall P l -> Forall P (slice l lo hi).
Proof. intros H. unfold slice. now apply Forall_take, Forall_drop. Qed.

(** Whatever the window and the overlap, a chunk is never empty and is
    its own words joined by single spaces: no leading, trailing or doubled
    whitespace. *)
Theorem chunks_normalised cfg text chunk_size overlap chunks c :
  chunk_text cfg text chunk_size overlap = Ok chunks ->
  c ∈ chunks ->
  truthy c = true
  /\ join " " (split c) = c
  /\ Forall (fun w => w ∈ split text) (split c).
Proof.
  unfold chunk_text. intros H Hc.
  destruct (range _ _ _) as [idxs|e]; [|discriminate].
  injection H as <-.
  apply chunk_loop_elem in Hc as [Hc|(i & -> & Ht)].
  - now apply elem_of_nil in Hc.
  - split; [exact Ht|].
    assert (Hw : Forall (fun w => is_word w = true)
                   (slice (split text) i
                      (i + or_default chunk_size (CHUNK_SIZE cfg)))).
    { apply slice_words, split_words. }
    rewrite (split_join _ Hw). split; [reflexivity|].
    apply slice_words. apply Forall_forall. auto.
Qed.

Lemma chunks_normalised_witness :
  chunk_text settings "  the  quick brown   fox " (Some 3) (Some 1)
  = Ok ["the quick brown"; "brown fox"]
  /\ join " " (split "brown fox") = "brown fox".
Proof.
  assert (H : chunk_text settings "  the  quick brown   fox " (Some 3) (Some 1)
              = Ok ["the quick brown"; "brown fox"])
    by (vm_compute; reflexivity).
  split; [exact H|].
  apply (chunks_normalised settings _ _ _ _ "brown fox" H).
  right. left.
Defined.

(** For a window [W > 0] and an overlap [0 <= O < W] (as [chunk_text]
    works with them), no word is lost: word [j] of the text is word
    [j mod (W - O)] of chunk [j / (W - O)]. *)
Theorem chunk_text_covers cfg text chunk_size overlap chunks j w :
  let W := or_default chunk_size (CHUNK_SIZE cfg) in
  let O := or_default overlap (CHUNK_OVERLAP cfg) in
  0 < W -> 0 <= O < W ->
  chunk_text cfg text chunk_size overlap = Ok chunks ->
  split text !! j = Some w ->
  exists c,
    chunks !! (Z.to_nat (Z.of_nat j / (W - O))) = Some c
    /\ split c !! (Z.to_nat (Z.of_nat j mod (W - O))) = Some w.
Proof.
  intros W O HW HO H Hj.
  pose proof (lookup_lt_Some _ _ _ Hj) as Hlt.
  pose proof (Z.div_mod (Z.of_nat j) (W - O) ltac:(lia)) as Hdm.
  pose proof (Z.mod_pos_bound (Z.of_nat j) (W - O) ltac:(lia)) as Hm.
  assert (Hq : 0 <= Z.of_nat j / (W - O)) by (apply Z.div_pos; lia).
  set (i := Z.to_nat (Z.of_nat j / (W - O))).
  assert (Hi : Z.of_nat i = Z.of_nat j / (W - O)) by (unfold i; lia).
  pose proof (chunk_text_lookup cfg text chunk_size overlap chunks i
                HW ltac:(lia) H) as Hlook.
  cbv zeta in Hlook. fold W O in Hlook.
  destruct (Z.ltb_spec (Z.of_nat i * (W - O)) (Z.of_nat (length (split text))));
    [|nia].
  eexists. split; [exact Hlook|].
  assert (Hw : Forall (fun w => is_word w = true)
                 (window (split text) W (W - O) i)).
  { unfold window. apply Forall_take, Forall_drop, split_words. }
  rewrite (split_join _ Hw).
  rewrite window_lookup by lia.
  rewrite <- Hj. f_equal. nia.
Qed.

Lemma chunk_text_covers_witness :
  exists c,
    ["a b c"; "c d e"; "e"] !! 1%nat = Some c
    /\ split c !! 1%nat = Some "d".
Proof.
  assert (H : chunk_text settings "a b c d e" (Some 3) (Some 1)
              = Ok ["a b c"; "c d e"; "e"]) by (vm_compute; reflexivity).
  exact (chunk_text_covers settings "a b c d e" (Some 3) (Some 1) _ 3 "d"
           ltac:(simpl; lia) ltac:(simpl; lia) H eq_refl).
Defined.

(** A negative overlap is taken as it is and leaves gaps: with window 2
    and overlap -1 the words [c] and [f] are in no chunk. *)
Example chunk_text_negative_overlap :
  chunk_text settings "a b c d e f" (Some 2) (Some (-1))
  = Ok ["a b"; "d e"].
Proof. vm_compute. reflexivity. Qed.

(** ** More on the token budgeter and the context *)

Section TokenPrefix.

Variable enc : Tokenizer.

Hypothesis round_trip : prefix_round_trip enc.

(** With a tokenizer whose token prefixes round-trip, truncation to a
    budget [N >= 0] keeps exactly the first [N] tokens of the text: the
    count of the result is the smaller of [N] and the count of the text.
    A text the tokenizer refuses is refused by the truncation. *)
Theorem truncate_keeps_prefix text N :
  0 <= N ->
  match encode enc text with
  | Ok tokens =>
      exists text',
        truncate_to_token_limit enc text N = Ok text'
        /\ encode enc text' = Ok (take (Z.to_nat N) tokens)
        /\ count_tokens enc text' = Ok (Z.min N (Z.of_nat (length tokens)))
  | Raise e => truncate_to_token_limit enc text N = Raise e
  end.
Proof.
  intros HN. destruct (encode enc text) as [tokens|e] eqn:He;
    [|now apply truncate_raises].
  destruct (Z.le_gt_cases (Z.of_nat (length tokens)) N) as [Hle|Hgt].
  - exists text. rewrite (truncate_short _ _ _ _ He Hle).
    rewrite (count_tokens_Ok _ _ _ He), take_ge by lia.
    split; [reflexivity|]. split; [exact He|]. f_equal. lia.
  - destruct (count_truncate_long enc round_trip _ _ _ He HN ltac:(lia))
      as [Hp Hl].
    eexists. rewrite (truncate_long _ _ _ _ He HN) by lia.
    split; [reflexivity|]. split; [exact Hp|].
    rewrite (count_tokens_Ok _ _ _ Hp). f_equal. lia.
Qed.

(** A negative budget is not read as "nothing fits": [tokens[:N]] with
    [N < 0] drops the last [-N] tokens, so a text of [n] tokens keeps
    [n + N] of them (none when [n + N <= 0]). *)
Theorem truncate_negative_budget text N :
  N < 0 ->
  match encode enc text with
  | Ok tokens =>
      exists text',
        truncate_to_token_limit enc text N = Ok text'
        /\ encode enc text'
           = Ok (take (Z.to_nat (Z.of_nat (length tokens) + N)) tokens)
  | Raise e => truncate_to_token_limit enc text N = Raise e
  end.
Proof.
  intros HN. destruct (encode enc text) as [tokens|e] eqn:He;
    [|now apply truncate_raises].
  unfold truncate_to_token_limit. rewrite He.
  destruct (Z.leb_spec (Z.of_nat (length tokens)) N); [lia|].
  eexists. split; [reflexivity|].
  unfold slice, clip_index.
  destruct (Z.ltb_spec N 0); [|lia]. cbn [Z.ltb Z.compare].
  rewrite (Z.min_l 0) by lia. cbn [Z.to_nat]. rewrite drop_0, Z.sub_0_r.
  replace (Z.to_nat (Z.max (Z.of_nat (length tokens) + N) 0))
    with (Z.to_nat (Z.of_nat (length tokens) + N)) by lia.
  now apply round_trip with text.
Qed.

End TokenPrefix.

Lemma truncate_keeps_prefix_witness :
  exists text',
    truncate_to_token_limit char_tokenizer "hello world" 5 = Ok text'
    /\ encode char_tokenizer text'
       = Ok (take (Z.to_nat 5)
               (map (fun c => Z.of_nat (nat_of_ascii c))
                  (list_ascii_of_string "hello world")))
    /\ count_tokens char_tokenizer text'
       = Ok (Z.min 5
               (Z.of_nat
                  (length (map (fun c => Z.of_nat (nat_of_ascii c))
                             (list_ascii_of_string "hello world"))))).
Proof.
  exact (truncate_keeps_prefix char_tokenizer char_tokenizer_round_trip
           "hello world" 5 ltac:(lia)).
Defined.

Lemma truncate_negative_budget_witness :
  exists text',
    truncate_to_token_limit char_tokenizer "hello world" (-6) = Ok text'
    /\ encode char_tokenizer text'
       = Ok (take (Z.to_nat
                     (Z.of_nat
                        (length (map (fun c => Z.of_nat (nat_of_ascii c))
                                   (list_ascii_of_string "hello world")))
                      + -6))
               (map (fun c => Z.of_nat (nat_of_ascii c))
                  (list_ascii_of_string "hello world"))).
Proof.
  exact (truncate_negative_budget char_tokenizer char_tokenizer_round_trip
           "hello world" (-6) ltac:(lia)).
Defined.

Example truncate_minus_six :
  truncate_to_token_limit char_tokenizer "hello world" (-6) = Ok "hello".
Proof. vm_compute. reflexivity. Qed.

Section Context.

Variable cfg : Settings.

Variable enc : Tokenizer.

Lemma context_loop_cases results parts :
  (Exists (fun r => hit_payload r !! "content" = None) results
   /\ RetrievalService.context_loop results parts
      = Raise (KeyError "content"))
  \/ (exists vs,
        Forall2 (fun r v => hit_payload r !! "content" = Some v) results vs
        /\ RetrievalService.context_loop results parts = Ok (parts ++ vs)).
Proof.
  revert parts. induction results as [|r results IH]; intros parts; simpl.
  - right. exists []. split; [constructor | now rewrite app_nil_r].
  - destruct (hit_payload r !! "content") as [c|] eqn:E.
    + destruct (IH (parts ++ [c])) as [[Hex Hr]|(vs & HF & Hr)].
      * left. split; [now apply Exists_cons_tl | exact Hr].
      * right. exists (c :: vs). split; [now constructor|].
        rewrite Hr. now rewrite <- app_assoc.
    + left. split; [now apply Exists_cons_hd | reflexivity].
Qed.

Lemma as_strings_from_map i contents :
  RetrievalService.as_strings_from i (map VStr contents) = Ok contents.
Proof.
  revert i. induction contents as [|c contents IH]; intros i; simpl;
    [reflexivity|].
  now rewrite IH.
Qed.

Lemma as_strings_map contents :
  RetrievalService.as_strings (map VStr contents) = Ok contents.
Proof. apply as_strings_from_map. Qed.

Lemma as_strings_from_Ok i parts l :
  RetrievalService.as_strings_from i parts = Ok l -> parts = map VStr l.
Proof.
  revert i l. induction parts as [|p parts IH]; intros i l; simpl.
  - now intros [= <-].
  - destruct p; try discriminate.
    destruct (RetrievalService.as_strings_from (S i) parts) as [l'|] eqn:E;
      [|discriminate].
    intros [= <-]. simpl. now rewrite (IH _ l' E).
Qed.

Lemma as_strings_Ok parts l :
  RetrievalService.as_strings parts = Ok l -> parts = map VStr l.
Proof. apply as_strings_from_Ok. Qed.

(** [str.join] names the first item that is not a string. *)
Lemma as_strings_from_TypeError i contents v rest :
  (forall s, v <> VStr s) ->
  RetrievalService.as_strings_from i (map VStr contents ++ v :: rest)
  = Raise (TypeError
             (RetrievalService.join_error (i + length contents) v)).
Proof.
  intros Hv. revert i. induction contents as [|c contents IH]; intros i.
  - simpl. rewrite Nat.add_0_r. destruct v; [now destruct (Hv s)|..];
      reflexivity.
  - cbn [map app RetrievalService.as_strings_from length]. rewrite IH.
    now replace (S i + length contents)%nat
      with (i + S (length contents))%nat by lia.
Qed.

Lemma Forall2_contents results vs :
  Forall2 (fun r v => hit_payload r !! "content" = Some v) results vs ->
  forall l, vs = map VStr l <->
    Forall2 (fun r s => hit_payload r !! "content" = Some (VStr s)) results l.
Proof.
  induction 1 as [|r v results vs Hr HF IH]; intros l.
  - split.
    + destruct l; [constructor | discriminate].
    + intros H. now inversion H.
  - split.
    + destruct l as [|s l]; [discriminate|]. intros [= -> Hl].
      constructor; [exact Hr | now apply IH].
    + intros H. inversion H as [|? s ? l' Hs Hl]; subst. simpl.
      rewrite Hr in Hs. injection Hs as ->. f_equal. now apply IH.
Qed.

(** When every result carries a string content, [get_context_string]
    returns the contents in the order received, two newlines between
    them, truncated to the configured budget. *)
Lemma get_context_string_Ok results contents :
  Forall2 (fun r s => hit_payload r !! "content" = Some (VStr s))
    results contents ->
  RetrievalService.get_context_string cfg enc results
  = truncate_to_token_limit enc
      (join (String newline (String newline "")) contents)
      (MAX_CONTEXT_LENGTH cfg).
Proof.
  intros HF. unfold RetrievalService.get_context_string.
  destruct (context_loop_cases results []) as [[Hex _]|(vs & Hvs & ->)].
  - exfalso. apply Exists_exists in Hex as (r & Hin & Hr).
    apply list_elem_of_lookup in Hin as [i Hi].
    destruct (Forall2_lookup_l _ _ _ _ _ HF Hi) as (s & _ & Hs). congruence.
  - cbn [app]. apply (Forall2_contents _ _ Hvs) in HF. subst vs.
    now rewrite as_strings_map.
Qed.

Lemma Forall2_strings results :
  Forall (fun r => exists s, hit_payload r !! "content" = Some (VStr s))
    results ->
  exists contents,
    Forall2 (fun r s => hit_payload r !! "content" = Some (VStr s))
      results contents.
Proof.
  induction 1 as [|r results [s Hs] _ [contents IH]].
  - exists []. constructor.
  - exists (s :: contents). now constructor.
Qed.

Lemma Forall2_present results :
  Forall (fun r => is_Some (hit_payload r !! "content")) results ->
  exists vs,
    Forall2 (fun r v => hit_payload r !! "content" = Some v) results vs.
Proof.
  induction 1 as [|r results [v Hv] _ [vs IH]].
  - exists []. constructor.
  - exists (v :: vs). now constructor.
Qed.

Lemma context_loop_Ok results vs :
  Forall2 (fun r v => hit_payload r !! "content" = Some v) results vs ->
  RetrievalService.context_loop results [] = Ok vs.
Proof.
  intros HF.
  destruct (context_loop_cases results []) as [[Hex _]|(vs' & Hvs & ->)].
  - exfalso. apply Exists_exists in Hex as (r & Hin & Hr).
    apply list_elem_of_lookup in Hin as [i Hi].
    destruct (Forall2_lookup_l _ _ _ _ _ HF Hi) as (s & _ & Hs). congruence.
  - cbn [app]. f_equal. revert vs HF.
    induction Hvs as [|r v' results vs' Hr _ IH]; intros vs HF;
      inversion HF; subst; [reflexivity|].
    f_equal; [congruence | now apply IH].
Qed.

(** What [get_context_string] does is decided by the contents of the
    results. If some result has no ["content"], it raises [KeyError]. If
    every result has one and the first that is not a string is the content
    of result [i], it raises the [TypeError] of [str.join], which names
    [i] and the type found. If every content is a string, it does what the
    truncation of the joined contents does: it returns its text, or raises
    what the tokenizer raises on the joined contents. So it returns only
    when every content is a string, but not whenever. *)
Theorem get_context_string_errors results :
  (Exists (fun r => hit_payload r !! "content" = None) results ->
   RetrievalService.get_context_string cfg enc results
   = Raise (KeyError "content"))
  /\ (forall before r after v,
        results = before ++ r :: after ->
        Forall (fun r => exists s, hit_payload r !! "content" = Some (VStr s))
          before ->
        hit_payload r !! "content" = Some v -> (forall s, v <> VStr s) ->
        Forall (fun r => is_Some (hit_payload r !! "content")) after ->
        RetrievalService.get_context_string cfg enc results
        = Raise (TypeError (RetrievalService.join_error (length before) v)))
  /\ (forall contents,
        Forall2 (fun r s => hit_payload r !! "content" = Some (VStr s))
          results contents ->
        RetrievalService.get_context_string cfg enc results
        = truncate_to_token_limit enc
            (join (String newline (String newline "")) contents)
            (MAX_CONTEXT_LENGTH cfg))
  /\ (is_ok (RetrievalService.get_context_string cfg enc results) = true ->
      Forall (fun r => exists s, hit_payload r !! "content" = Some (VStr s))
        results).
Proof.
  split; [|split; [|split]].
  - intros Hex. unfold RetrievalService.get_context_string.
    destruct (context_loop_cases results []) as [[_ ->]|(vs & Hvs & _)];
      [reflexivity|].
    exfalso. apply Exists_exists in Hex as (r & Hin & Hr).
    apply list_elem_of_lookup in Hin as [i Hi].
    destruct (Forall2_lookup_l _ _ _ _ _ Hvs Hi) as (s & _ & Hs). congruence.
  - intros before r after v -> Hbefore Hr Hv Hafter.
    destruct (Forall2_strings _ Hbefore) as (contents & Hc).
    destruct (Forall2_present _ Hafter) as (vs & Hvs).
    unfold RetrievalService.get_context_string.
    rewrite (context_loop_Ok _ (map VStr contents ++ v :: vs)).
    + unfold RetrievalService.as_strings.
      rewrite as_strings_from_TypeError by exact Hv.
      now rewrite (Forall2_length _ _ _ Hc).
    + apply Forall2_app; [|now constructor].
      clear -Hc. induction Hc; simpl; constructor; auto.
  - apply get_context_string_Ok.
  - unfold RetrievalService.get_context_string.
    destruct (context_loop_cases results []) as [[_ ->]|(vs & Hvs & ->)];
      [discriminate|].
    cbn [app].
    destruct (RetrievalService.as_strings vs) as [l|e] eqn:Ea;
      [|discriminate].
    intros _. apply as_strings_Ok in Ea. subst vs.
    apply Forall_forall. intros r Hin.
    apply list_elem_of_lookup in Hin as [i Hi].
    destruct (Forall2_lookup_l _ _ _ _ _ Hvs Hi) as (v & Hv & Hs).
    apply list_lookup_fmap_Some in Hv as (s & -> & _). eauto.
Qed.

Lemma get_context_string_inv results s :
  RetrievalService.get_context_string cfg enc results = Ok s ->
  exists contents,
    Forall2 (fun r c => hit_payload r !! "content" = Some (VStr c))
      results contents
    /\ truncate_to_token_limit enc
         (join (String newline (String newline "")) contents)
         (MAX_CONTEXT_LENGTH cfg) = Ok s.
Proof.
  unfold RetrievalService.get_context_string.
  destruct (context_loop_cases results []) as [[_ ->]|(vs & Hvs & ->)];
    [discriminate|].
  cbn [app]. destruct (RetrievalService.as_strings vs) as [l|e] eqn:Ea;
    [|discriminate].
  intros H. apply as_strings_Ok in Ea. exists l.
  split; [|exact H]. now apply (Forall2_contents _ _ Hvs).
Qed.

End Context.

(** With a tokenizer whose token prefixes round-trip and a configured
    budget that is not negative, the context [get_context_string] returns
    is the contents of the results in the order received, two newlines
    between them, cut to the budget: it never counts more tokens than
    [MAX_CONTEXT_LENGTH]. *)
Theorem context_within_budget cfg enc results s :
  prefix_round_trip enc -> 0 <= MAX_CONTEXT_LENGTH cfg ->
  RetrievalService.get_context_string cfg enc results = Ok s ->
  (exists n, count_tokens enc s = Ok n /\ n <= MAX_CONTEXT_LENGTH cfg)
  /\ exists contents,
       Forall2 (fun r c => hit_payload r !! "content" = Some (VStr c))
         results contents
       /\ truncate_to_token_limit enc
            (join (String newline (String newline "")) contents)
            (MAX_CONTEXT_LENGTH cfg) = Ok s.
Proof.
  intros Hrt Hmax H.
  destruct (get_context_string_inv cfg enc results s H)
    as (contents & HF & Ht).
  split; [|eauto].
  set (text := join _ contents) in Ht.
  destruct (encode enc text) as [tokens|e] eqn:He;
    [|destruct (truncate_raises enc text (MAX_CONTEXT_LENGTH cfg) e He);
      congruence].
  destruct (Z.le_gt_cases (Z.of_nat (length tokens)) (MAX_CONTEXT_LENGTH cfg))
    as [Hle|Hgt].
  - rewrite (truncate_short _ _ _ _ He Hle) in Ht. injection Ht as <-.
    rewrite (count_tokens_Ok _ _ _ He). eauto.
  - rewrite (truncate_long _ _ _ _ He Hmax) in Ht by lia.
    injection Ht as <-.
    destruct (count_truncate_long enc Hrt _ _ _ He Hmax ltac:(lia))
      as [Hp Hl].
    rewrite (count_tokens_Ok _ _ _ Hp). eexists. split; [reflexivity | lia].
Qed.

Lemma context_within_budget_witness :
  let cfg := {| TOP_K_RESULTS := 5; MAX_CONTEXT_LENGTH := 12;
                CHUNK_SIZE := 500; CHUNK_OVERLAP := 50 |} in
  let results :=
    [{| hit_id := "p0"; score := 1;
        hit_payload := RetrievalService.chunk_payload "d0" None 0
                         "hello world" |};
     {| hit_id := "p2"; score := 4 # 5;
        hit_payload := RetrievalService.chunk_payload "d0" None 1
                         "hello there" |}] in
  RetrievalService.get_context_string cfg char_tokenizer results
  = Ok ("hello world" +:+ String newline "")
  /\ exists n,
       count_tokens char_tokenizer ("hello world" +:+ String newline "")
       = Ok n /\ n <= 12.
Proof.
  cbv zeta.
  match goal with
  | |- RetrievalService.get_context_string ?c _ ?r = _ /\ _ =>
      set (cfg := c); set (results := r)
  end.
  assert (H : RetrievalService.get_context_string cfg char_tokenizer results
              = Ok ("hello world" +:+ String newline ""))
    by (vm_compute; reflexivity).
  split; [exact H|].
  apply (context_within_budget cfg char_tokenizer results _
           char_tokenizer_round_trip ltac:(simpl; lia) H).
Defined.

(** A content that holds a special token of the encoding is a string, and
    yet no context is returned: the tokenizer refuses it. An integer as
    the content of the second result is named by the [TypeError]. *)
Example get_context_string_refused :
  RetrievalService.get_context_string settings byte_pair_tokenizer
    [{| hit_id := "p0"; score := 1;
        hit_payload := RetrievalService.chunk_payload "d0" None 0
                         "so <|endoftext|> it ends" |}]
  = Raise (ValueError "disallowed special token '<|endoftext|>'")
  /\ RetrievalService.get_context_string settings byte_pair_tokenizer
       [{| hit_id := "p0"; score := 1;
           hit_payload := RetrievalService.chunk_payload "d0" None 0 "a" |};
        {| hit_id := "p1"; score := 1;
           hit_payload := <["content" := VInt 7]> ∅ |}]
     = Raise (TypeError "sequence item 1: expected str instance, int found").
Proof. split; vm_compute; reflexivity. Qed.

(** ** The index: what is stored and what comes back *)

Section Index.

Variable cfg : Settings.

Variable env : Env.

Lemma upsert_point_Forall (P : PointStruct -> Prop) coll p :
  P p -> Forall P coll -> Forall P (QdrantDatabase.upsert_point coll p).
Proof.
  intros Hp Hc. unfold QdrantDatabase.upsert_point.
  destruct (existsb _ coll).
  - apply Forall_fmap. eapply Forall_impl; [exact Hc|].
    intros q Hq. simpl. now destruct (bool_decide _).
  - apply Forall_app. auto.
Qed.

Lemma upsert_points_Forall (P : PointStruct -> Prop) points coll :
  Forall P points -> Forall P coll ->
  Forall P (fold_left QdrantDatabase.upsert_point points coll).
Proof.
  intros Hp. revert coll. induction Hp as [|p points Hp _ IH]; intros coll Hc.
  - exact Hc.
  - simpl. apply IH. now apply upsert_point_Forall.
Qed.

Lemma chunk_points_content w metadata chunks embeddings :
  Forall (fun p => has_content (payload p))
    (chunk_points env w metadata chunks embeddings).
Proof.
  apply Forall_forall. intros p Hin.
  apply list_elem_of_lookup in Hin as [i Hi].
  unfold chunk_points in Hi. rewrite zip_points_lookup in Hi.
  destruct (_ !! i) as [a|]; [|discriminate].
  destruct (embeddings !! i) as [v|]; [|discriminate].
  rewrite list_lookup_imap in Hi.
  destruct (chunks !! i) as [c|]; [|discriminate].
  injection Hi as <-. exists c. apply chunk_payload_lookup.
Qed.

(** [add_document] keeps the index readable: if every stored point has a
    string content before, every stored point has one after, whether the
    call succeeds or raises. *)
Theorem add_document_keeps_content content metadata w :
  Forall (fun p => has_content (payload p)) (collection w) ->
  Forall (fun p => has_content (payload p))
    (collection (RetrievalService.add_document cfg env content metadata w).2).
Proof.
  intros H. rewrite add_document_run. cbv zeta.
  destruct (mongo_up env); [|exact H].
  destruct (chunk_text cfg content None None) as [chunks|e]; [|exact H].
  destruct (EmbeddingService.embed_batch env chunks) as [vs|]; [|exact H].
  destruct (qdrant_up env); [|exact H].
  destruct (bool_decide _); [exact H|].
  cbn [snd collection].
  apply upsert_points_Forall; [apply chunk_points_content | exact H].
Qed.

Lemma search_points (P : string -> gmap string pyval -> Prop) v limit
    threshold w hits w' :
  Forall (fun p => P (point_id p) (payload p)) (collection w) ->
  QdrantDatabase.search env v limit threshold w = (Ok hits, w') ->
  Forall (fun h => P (hit_id h) (hit_payload h)) hits
  /\ w' = logged w [QueryPoints v limit threshold].
Proof.
  intros HP.
  unfold QdrantDatabase.search, QdrantDatabase.query_points, bind, log, ret,
    raise.
  destruct (qdrant_up env); cbn [negb]; [|discriminate].
  destruct (limit <? 1); [discriminate|].
  intros [= <- <-]. split; [|reflexivity].
  apply Forall_fmap, Forall_take.
  apply (sort_hits_Forall (fun h => P (hit_id h) (hit_payload h))).
  apply Forall_forall. intros h Hh.
  apply list_elem_of_In, filter_In in Hh as [Hh _].
  apply list_elem_of_In, list_elem_of_fmap in Hh as (p & -> & Hp).
  rewrite Forall_forall in HP. exact (HP p Hp).
Qed.

(** Retrieval reads only: on an index where every stored point has a
    string content, a successful query leaves documents and points as
    they were, and every result carries a string content. So assembling
    the results into a context raises neither [KeyError] nor [TypeError]:
    it is the truncation of the joined contents, which returns unless the
    tokenizer refuses that text. *)
Theorem retrieved_context_ok enc query top_k w hits w' :
  Forall (fun p => has_content (payload p)) (collection w) ->
  RetrievalService.retrieve_relevant_context cfg env query top_k w
  = (Ok hits, w') ->
  documents w' = documents w
  /\ collection w' = collection w
  /\ exists contents,
       Forall2 (fun r c => hit_payload r !! "content" = Some (VStr c))
         hits contents
       /\ RetrievalService.get_context_string cfg enc hits
          = truncate_to_token_limit enc
              (join (String newline (String newline "")) contents)
              (MAX_CONTEXT_LENGTH cfg).
Proof.
  intros Hinv H. rewrite retrieve_run in H. cbv zeta in H.
  destruct (embedding_model env query) as [v|]; [|discriminate].
  apply (search_points (fun _ => has_content)) in H as [Hhits ->];
    [|exact Hinv].
  split; [reflexivity|]. split; [reflexivity|].
  assert (Hc : exists contents,
    Forall2 (fun r c => hit_payload r !! "content" = Some (VStr c))
      hits contents).
  { clear -Hhits. induction Hhits as [|h hits [s Hs] _ [l IH]].
    - exists []. constructor.
    - exists (s :: l). now constructor. }
  destruct Hc as [contents Hc]. exists contents. split; [exact Hc|].
  apply (get_context_string_Ok cfg enc hits contents Hc).
Qed.

Lemma zip_points_shape (ids : list string) vectors payloads :
  length ids = length vectors ->
  let points := QdrantDatabase.zip_points ids vectors payloads in
  length points = Nat.min (length vectors) (length payloads)
  /\ map point_id points = take (length points) ids
  /\ map vector points = take (length points) vectors
  /\ map payload points = take (length points) payloads.
Proof.
  cbv zeta. revert ids payloads.
  induction vectors as [|v vectors IH]; intros [|a ids] payloads Hids;
    try discriminate; simpl.
  - repeat split; reflexivity.
  - destruct payloads as [|p payloads]; simpl.
    + repeat split; reflexivity.
    + injection Hids as Hids.
      destruct (IH ids payloads Hids) as (Hl & Hi & Hv & Hp).
      repeat split; f_equal; assumption.
Qed.

(** [add_vectors] draws one id per vector and sends one request with a
    point only where a payload stands beside the vector. When there is
    such a point, it returns all the ids: with fewer payloads than
    vectors, the ids past the payloads name no point. Without any vector
    or without any payload the request is empty: the index refuses it,
    the call raises and the index is as it was. *)
Theorem add_vectors_ids vectors payloads w :
  qdrant_up env = true ->
  let out := QdrantDatabase.add_vectors env vectors payloads w in
  exists ids points,
    length ids = length vectors
    /\ calls out.2 = calls w ++ [Upsert points]
    /\ length points = Nat.min (length vectors) (length payloads)
    /\ map point_id points = take (length points) ids
    /\ map vector points = take (length points) vectors
    /\ map payload points = take (length points) payloads
    /\ (points <> [] ->
          out.1 = Ok ids
          /\ collection out.2
             = fold_left QdrantDatabase.upsert_point points (collection w))
    /\ (points = [] ->
          out.1 = Raise (UnexpectedResponse "Empty update request")
          /\ collection out.2 = collection w).
Proof.
  intros Hup. cbv zeta.
  unfold QdrantDatabase.add_vectors, QdrantDatabase.upsert, bind, log, ret,
    raise.
  rewrite fresh_uuids_run, Hup. cbn [calls collection negb].
  set (ids := map _ (seq 0 (length vectors))).
  assert (Hids : length ids = length vectors)
    by (unfold ids; now rewrite length_map, length_seq).
  destruct (zip_points_shape ids vectors payloads Hids)
    as (Hl & Hi & Hv & Hp).
  exists ids, (QdrantDatabase.zip_points ids vectors payloads).
  split; [exact Hids|].
  destruct (bool_decide _) eqn:E; cbn [fst snd calls collection].
  - apply bool_decide_eq_true in E.
    repeat (split; [assumption || reflexivity|]).
    split; [intros; contradiction | intros _; split; reflexivity].
  - apply bool_decide_eq_false in E.
    repeat (split; [assumption || reflexivity|]).
    split; [intros _; split; reflexivity | intros; contradiction].
Qed.

(** Once [delete_by_id] has succeeded, no search returns the deleted id,
    and the documents of the document store are as they were. *)
Theorem delete_by_id_search id v limit threshold w hits w' :
  qdrant_up env = true ->
  QdrantDatabase.search env v limit threshold
    (QdrantPoints.delete_by_id env id w).2 = (Ok hits, w') ->
  (QdrantPoints.delete_by_id env id w).1 = Ok tt
  /\ Forall (fun h => hit_id h <> id) hits
  /\ documents w' = documents w.
Proof.
  intros Hup. unfold QdrantPoints.delete_by_id. rewrite Hup. cbn [fst snd].
  intros H. split; [reflexivity|].
  apply (search_points (fun i _ => i <> id)) in H as [Hhits ->].
  - split; [exact Hhits | reflexivity].
  - cbn [collection]. apply Forall_forall. intros p Hp.
    apply list_elem_of_In, filter_In in Hp as [_ Hp].
    apply negb_true_iff, bool_decide_eq_false in Hp. exact Hp.
Qed.

(** The document store gives back what [add_document] stored: when the id
    drawn is not the id of a stored document, [get_document] of the
    returned id finds the content and the metadata, and after
    [delete_document] it finds nothing, while the points of the document
    stay in the index. *)
Theorem document_round_trip content metadata w id w1 :
  Forall (fun d => doc_id d <> uuid4 env (uuid_counter w)) (documents w) ->
  RetrievalService.add_document cfg env content metadata w = (Ok id, w1) ->
  (MongoDocuments.get_document env id w1).1
  = Ok (Some {| doc_id := id; doc_content := content;
                doc_metadata := or_empty metadata;
                created_at := utcnow env |})
  /\ (let w2 := (MongoDocuments.delete_document env id w1).2 in
      (MongoDocuments.get_document env id w2).1 = Ok None
      /\ documents w2 = documents w
      /\ collection w2 = collection w1).
Proof.
  intros Hfresh. rewrite add_document_run. cbv zeta.
  destruct (mongo_up env) eqn:Hup; [|discriminate].
  destruct (chunk_text cfg content None None) as [chunks|e]; [|discriminate].
  destruct (EmbeddingService.embed_batch env chunks) as [vs|]; [|discriminate].
  destruct (qdrant_up env); [|discriminate].
  destruct (bool_decide _); [discriminate|].
  intros [= <- <-].
  unfold MongoDocuments.get_document, MongoDocuments.delete_document.
  rewrite Hup. cbn [fst snd documents collection].
  change (doc_id (stored_document env w content metadata))
    with (uuid4 env (uuid_counter w)).
  assert (Hfind : forall l : list Document,
    Forall (fun d => doc_id d <> uuid4 env (uuid_counter w)) l ->
    List.find (fun d => bool_decide (doc_id d = uuid4 env (uuid_counter w))) l
    = None
    /\ forall d, doc_id d = uuid4 env (uuid_counter w) ->
       List.find (fun d => bool_decide (doc_id d = uuid4 env (uuid_counter w)))
         (l ++ [d]) = Some d
       /\ MongoDocuments.delete_first
            (fun d => bool_decide (doc_id d = uuid4 env (uuid_counter w)))
            (l ++ [d]) = l).
  { induction 1 as [|x l Hx Hl [IH1 IH2]]; simpl.
    - split; [reflexivity|]. intros d Hd.
      now rewrite bool_decide_eq_true_2.
    - rewrite bool_decide_eq_false_2 by assumption. split; [exact IH1|].
      intros d Hd. destruct (IH2 d Hd) as [-> ->]. auto. }
  destruct (Hfind (documents w) Hfresh) as [Hnone Hsome].
  destruct (Hsome (stored_document env w content metadata) eq_refl)
    as [Hf Hd].
  rewrite Hf, Hd. split; [reflexivity|]. now rewrite Hnone.
Qed.

End Index.

Lemma add_document_keeps_content_witness :
  Forall (fun p => has_content (payload p))
    (collection (RetrievalService.add_document settings demo_env "a b c"
                   None empty_world).2).
Proof.
  apply (add_document_keeps_content settings demo_env "a b c" None
           empty_world).
  constructor.
Defined.

Lemma demo_world_content :
  Forall (fun p => has_content (payload p)) (collection demo_world).
Proof.
  repeat constructor; eexists; unfold demo_point; cbn [payload];
    apply chunk_payload_lookup.
Qed.

Lemma retrieved_context_ok_witness :
  let hits :=
    match (RetrievalService.retrieve_relevant_context settings demo_env
             "hello" None demo_world).1 with
    | Ok hits => hits
    | Raise _ => []
    end in
  exists contents,
    Forall2 (fun r c => hit_payload r !! "content" = Some (VStr c))
      hits contents
    /\ RetrievalService.get_context_string settings char_tokenizer hits
       = truncate_to_token_limit char_tokenizer
           (join (String newline (String newline "")) contents)
           (MAX_CONTEXT_LENGTH settings).
Proof.
  cbv zeta.
  set (out := RetrievalService.retrieve_relevant_context settings demo_env
                "hello" None demo_world).
  assert (H : out = (Ok (match out.1 with Ok hits => hits | Raise _ => [] end),
                     out.2)) by (vm_compute; reflexivity).
  apply (retrieved_context_ok settings demo_env char_tokenizer "hello" None
           demo_world _ _ demo_world_content H).
Defined.

Lemma add_vectors_ids_witness :
  let out := QdrantDatabase.add_vectors demo_env [[1%Q; 0%Q]; [0%Q; 1%Q]]
               [RetrievalService.chunk_payload "d0" None 0 "only one"]
               empty_world in
  exists ids points,
    length ids = 2%nat
    /\ length points = 1%nat
    /\ calls out.2 = [Upsert points]
    /\ out.1 = Ok ids.
Proof.
  cbv zeta.
  destruct (add_vectors_ids demo_env [[1%Q; 0%Q]; [0%Q; 1%Q]]
              [RetrievalService.chunk_payload "d0" None 0 "only one"]
              empty_world eq_refl)
    as (ids & points & Hl & Hc & Hp & _ & _ & _ & Hok & _).
  exists ids, points. split; [exact Hl|]. split; [exact Hp|].
  split; [exact Hc|]. apply Hok. intros ->. discriminate Hp.
Defined.

(** A vector without a payload, and a text without a word: the empty
    request is refused, after the identifier was drawn and, for the text,
    after the document was stored. *)
Example empty_upsert_refused :
  (QdrantDatabase.add_vectors demo_env [[1%Q; 0%Q]] [] empty_world).1
  = Raise (UnexpectedResponse "Empty update request")
  /\ (let out := RetrievalService.add_document settings demo_env "  " None
                   empty_world in
      out.1 = Raise (UnexpectedResponse "Empty update request")
      /\ length (documents out.2) = 1%nat
      /\ collection out.2 = []).
Proof. repeat split; vm_compute; reflexivity. Qed.

Lemma delete_by_id_search_witness :
  Forall (fun h => hit_id h <> "p0")
    (match (QdrantDatabase.search demo_env [1%Q; 0%Q] 5 (7 # 10)
              (QdrantPoints.delete_by_id demo_env "p0" demo_world).2).1 with
     | Ok hits => hits
     | Raise _ => []
     end).
Proof.
  set (out := QdrantDatabase.search demo_env [1%Q; 0%Q] 5 (7 # 10)
                (QdrantPoints.delete_by_id demo_env "p0" demo_world).2).
  assert (H : out = (Ok (match out.1 with Ok hits => hits | Raise _ => [] end),
                     out.2)) by (vm_compute; reflexivity).
  apply (delete_by_id_search demo_env "p0" [1%Q; 0%Q] 5 (7 # 10) demo_world
           _ _ eq_refl H).
Defined.

Lemma document_round_trip_witness :
  let w1 := (RetrievalService.add_document settings demo_env "a b c" None
               empty_world).2 in
  (MongoDocuments.get_document demo_env "uuid-0" w1).1
  = Ok (Some {| doc_id := "uuid-0"; doc_content := "a b c";
                doc_metadata := or_empty None; created_at := utcnow demo_env |}).
Proof.
  cbv zeta.
  set (out := RetrievalService.add_document settings demo_env "a b c" None
                empty_world).
  assert (H : out = (Ok "uuid-0", out.2)) by (vm_compute; reflexivity).
  apply (document_round_trip settings demo_env "a b c" None empty_world
           "uuid-0" out.2 ltac:(constructor) H).
Defined.

(** ** Sessions *)

Section Sessions.

Variable env : Env.

Hypothesis mongo_is_up : mongo_up env = true.

Lemma slice_from_last {A} (l : list A) (n : Z) :
  0 < n -> PyExt.slice_from l (- n) = drop (length l - Z.to_nat n) l.
Proof.
  intros Hn. unfold PyExt.slice_from, clip_index.
  destruct (Z.ltb_spec (- n) 0); [|lia]. f_equal. lia.
Qed.

Lemma slice_from_zero {A} (l : list A) : PyExt.slice_from l (- 0) = l.
Proof.
  unfold PyExt.slice_from, clip_index. cbn [Z.opp Z.ltb Z.compare].
  rewrite Z.min_l by lia. apply drop_0.
Qed.

Lemma get_session_run id b :
  MongoSessions.get_session env id b
  = (Done (find_session id (chat_sessions b)), b).
Proof. unfold MongoSessions.get_session. now rewrite mongo_is_up. Qed.

Lemma get_session_history_run id limit b :
  MongoSessions.get_session_history env id limit b
  = (Done (match find_session id (chat_sessions b) with
           | Some s => PyExt.slice_from (messages s) (- limit)
           | None => []
           end), b).
Proof.
  unfold MongoSessions.get_session_history, and_then.
  rewrite get_session_run. now destruct (find_session _ _).
Qed.

(** [get_session_history] reads the last [limit] messages of the session
    for a positive [limit], oldest first, and all the messages when there
    are fewer; with [limit = 0] it reads every message of the session, not
    none; an unknown session has an empty history. Nothing is written. *)
Theorem session_history_limit id limit b :
  let out := MongoSessions.get_session_history env id limit b in
  out.2 = b
  /\ (find_session id (chat_sessions b) = None -> out.1 = Done [])
  /\ (forall s, find_session id (chat_sessions b) = Some s ->
        (0 < limit ->
           out.1 = Done (drop (length (messages s) - Z.to_nat limit)
                           (messages s))
           /\ length (drop (length (messages s) - Z.to_nat limit)
                        (messages s))
              = Nat.min (Z.to_nat limit) (length (messages s)))
        /\ (limit = 0 -> out.1 = Done (messages s))).
Proof.
  cbv zeta. rewrite get_session_history_run. cbn [fst snd].
  split; [reflexivity|]. split.
  - now intros ->.
  - intros s ->. split.
    + intros Hl. rewrite slice_from_last by assumption.
      split; [reflexivity|]. rewrite length_drop. lia.
    + intros ->. now rewrite slice_from_zero.
Qed.

Lemma push_message_unknown id message now l :
  find_session id l = None -> MongoSessions.push_message id message now l = l.
Proof.
  unfold find_session. induction l as [|s l IH]; simpl; [reflexivity|].
  destruct (bool_decide (session_id s = id)); [discriminate|].
  intros H. now rewrite IH.
Qed.

Lemma find_push_message id message now l s :
  find_session id l = Some s ->
  find_session id (MongoSessions.push_message id message now l)
  = Some {| session_id := session_id s;
            messages := messages s ++ [message];
            session_created_at := session_created_at s;
            session_updated_at := now |}.
Proof.
  unfold find_session. induction l as [|x l IH]; simpl; [discriminate|].
  destruct (bool_decide (session_id x = id)) eqn:E.
  - intros [= ->]. simpl. now rewrite E.
  - intros H. simpl. rewrite E. now apply IH.
Qed.

Lemma find_push_message_other id id' message now l :
  id' <> id ->
  find_session id' (MongoSessions.push_message id message now l)
  = find_session id' l.
Proof.
  intros Hne. unfold find_session. induction l as [|x l IH]; simpl;
    [reflexivity|].
  destruct (bool_decide (session_id x = id)) eqn:E; simpl.
  - apply bool_decide_eq_true in E.
    rewrite !bool_decide_eq_false_2 by congruence. reflexivity.
  - destruct (bool_decide (session_id x = id')); [reflexivity | exact IH].
Qed.

Lemma with_sessions_same b : with_sessions b (chat_sessions b) = b.
Proof. now destruct b. Qed.

(** [add_message] never creates a session: for an id under which no
    session is stored it returns without error and leaves the backend
    exactly as it was, so the message is lost. *)
Theorem add_message_unknown_session id role content b :
  find_session id (chat_sessions b) = None ->
  MongoSessions.add_message env id role content b = (Done tt, b).
Proof.
  intros H. unfold MongoSessions.add_message. rewrite mongo_is_up.
  rewrite push_message_unknown by assumption.
  now rewrite with_sessions_same.
Qed.

(** For a stored session, [add_message] appends the message at the end:
    read back with a positive limit, the history ends with it; the
    sessions under other ids read as before. *)
Theorem add_message_then_history id role content b s limit :
  find_session id (chat_sessions b) = Some s ->
  0 < limit ->
  let b' := (MongoSessions.add_message env id role content b).2 in
  let message := {| msg_role := role; msg_content := content;
                    msg_timestamp := utcnow env |} in
  (exists earlier,
     (MongoSessions.get_session_history env id limit b').1
     = Done (earlier ++ [message])
     /\ earlier = drop (S (length (messages s)) - Z.to_nat limit) (messages s))
  /\ (forall id', id' <> id ->
        (MongoSessions.get_session env id' b').1
        = (MongoSessions.get_session env id' b).1).
Proof.
  intros Hs Hl. cbv zeta. unfold MongoSessions.add_message.
  rewrite mongo_is_up. cbn [snd]. split.
  - rewrite get_session_history_run. cbn [fst with_sessions chat_sessions].
    rewrite (find_push_message _ _ _ _ _ Hs). cbn [messages].
    rewrite slice_from_last by assumption.
    rewrite length_app. cbn [length].
    eexists. split; [|reflexivity]. f_equal.
    rewrite drop_app_le by lia. f_equal. f_equal. lia.
  - intros id' Hne. rewrite !get_session_run.
    cbn [fst with_sessions chat_sessions].
    now rewrite find_push_message_other.
Qed.

Lemma find_session_existsb id l :
  existsb (fun s => bool_decide (session_id s = id)) l
  = bool_decide (is_Some (find_session id l)).
Proof.
  unfold find_session. induction l as [|s l IH]; [reflexivity|].
  cbn [existsb List.find].
  destruct (bool_decide (session_id s = id)); [reflexivity | exact IH].
Qed.

Lemma find_session_app_None id l l' :
  find_session id l = None ->
  find_session id (l ++ l') = find_session id l'.
Proof.
  unfold find_session. induction l as [|s l IH]; simpl; [reflexivity|].
  destruct (bool_decide (session_id s = id)); [discriminate | exact IH].
Qed.

(** [create_session] refuses an id already in use, leaving the sessions
    as they were, and otherwise stores a session with no message, whose
    history is empty. *)
Theorem create_session_unique id b :
  let out := MongoSessions.create_session env id b in
  (is_Some (find_session id (chat_sessions b)) ->
     out = (Fail (DuplicateKeyError "session_id"), b))
  /\ (find_session id (chat_sessions b) = None ->
        out.1 = Done id
        /\ chat_sessions out.2
           = chat_sessions b
             ++ [{| session_id := id; messages := [];
                    session_created_at := utcnow env;
                    session_updated_at := utcnow env |}]
        /\ forall limit,
             (MongoSessions.get_session_history env id limit out.2).1
             = Done []).
Proof.
  cbv zeta. unfold MongoSessions.create_session. rewrite mongo_is_up.
  rewrite find_session_existsb. split.
  - intros H. now rewrite bool_decide_eq_true_2.
  - intros H. rewrite bool_decide_eq_false_2
      by (rewrite H; intros [x Hx]; discriminate).
    cbn [fst snd with_sessions chat_sessions].
    split; [reflexivity|]. split; [reflexivity|].
    intros limit. rewrite get_session_history_run.
    cbn [fst with_sessions chat_sessions].
    rewrite find_session_app_None by assumption.
    unfold find_session. simpl. rewrite bool_decide_eq_true_2 by reflexivity.
    cbn [messages]. unfold PyExt.slice_from. now rewrite drop_nil.
Qed.

End Sessions.

Lemma session_history_limit_witness :
  (MongoSessions.get_session_history demo_env "s1" 3 demo_backend).1
  = Done (map demo_message [4; 5; 6]%nat).
Proof.
  destruct (session_history_limit demo_env eq_refl "s1" 3 demo_backend)
    as (_ & _ & H).
  destruct (H demo_session ltac:(vm_compute; reflexivity)) as [H3 _].
  exact (proj1 (H3 eq_refl)).
Defined.

Lemma add_message_unknown_session_witness :
  MongoSessions.add_message demo_env "nobody" "user" "hello" demo_backend
  = (Done tt, demo_backend).
Proof.
  apply (add_message_unknown_session demo_env eq_refl "nobody" "user" "hello"
           demo_backend).
  vm_compute; reflexivity.
Defined.

Lemma add_message_then_history_witness :
  exists earlier,
    (MongoSessions.get_session_history demo_env "s1" 3
       (MongoSessions.add_message demo_env "s1" "user" "hello"
          demo_backend).2).1
    = Done (earlier ++ [{| msg_role := "user"; msg_content := "hello";
                           msg_timestamp := utcnow demo_env |}])
    /\ earlier = map demo_message [5; 6]%nat.
Proof.
  destruct (add_message_then_history demo_env eq_refl "s1" "user" "hello"
              demo_backend demo_session 3 ltac:(vm_compute; reflexivity)
              eq_refl) as [(earlier & H & He) _].
  exists earlier. split; [exact H | exact He].
Defined.

Lemma create_session_unique_witness :
  MongoSessions.create_session demo_env "s1" demo_backend
  = (Fail (DuplicateKeyError "session_id"), demo_backend).
Proof.
  apply (create_session_unique demo_env eq_refl "s1" demo_backend).
  exists demo_session. vm_compute; reflexivity.
Defined.

(** ** The chat service *)

Section Chat.

Variable cfg : Settings.

Variable env : Env.

Variable answers : nat -> bool.

Variable enc : Tokenizer.

Variable llm : LanguageModel.

(** The first step of [chat]. *)
Lemma open_session_run sid b :
  open_session env answers sid b
  = if ChatService.no_session_id sid then
      let id := uuid4 env (uuid_counter (stores b)) in
      let b0 := with_stores b
                  {| documents := documents (stores b);
                     collection := collection (stores b);
                     uuid_counter := S (uuid_counter (stores b));
                     calls := calls (stores b) |} in
      if answers 0%nat then
        if bool_decide (is_Some (find_session id (chat_sessions b)))
        then (Fail (DuplicateKeyError "session_id"), b0)
        else (Done id,
              with_sessions b0
                (chat_sessions b
                 ++ [{| session_id := id; messages := [];
                        session_created_at := utcnow env;
                        session_updated_at := utcnow env |}]))
      else (Fail (Exn (StoreUnavailable "mongodb")), b0)
    else (Done (default "" sid), b).
Proof.
  unfold open_session.
  destruct (ChatService.no_session_id sid); [|reflexivity].
  unfold and_then, on_stores, fresh_uuid, MongoSessions.create_session, done,
    fail.
  cbn [mongo_up utcnow ChatService.at_request fst snd].
  destruct (answers 0%nat); [|reflexivity].
  cbn [chat_sessions]. rewrite find_session_existsb.
  cbv zeta. destruct (bool_decide _); reflexivity.
Qed.

(** Every way [chat] can run once the session is open. *)
Lemma chat_run query sid top_k b :
  ChatService.chat cfg env answers enc llm query sid top_k b
  = match open_session env answers sid b with
    | (Fail e, b1) => (Fail e, b1)
    | (Done id, b1) =>
        match RetrievalService.retrieve_relevant_context cfg env query top_k
                (stores b1) with
        | (Raise e, w) => (Fail (Exn e), with_stores b1 w)
        | (Ok hits, w) =>
            match RetrievalService.get_context_string cfg enc hits with
            | Raise e => (Fail (Exn e), with_stores b1 w)
            | Ok context =>
                if answers 1%nat then
                  let history :=
                    match find_session id (chat_sessions b1) with
                    | Some s => PyExt.slice_from (messages s) (- 10)
                    | None => []
                    end in
                  let msgs := chat_messages query context history in
                  let b2 := requested (with_stores b1 w) msgs in
                  match chat_completion llm msgs with
                  | None => (Fail APIError, b2)
                  | Some answer =>
                      if answers 2%nat then
                        let saved :=
                          MongoSessions.push_message id
                            {| msg_role := "user"; msg_content := query;
                               msg_timestamp := utcnow env |} (utcnow env)
                            (chat_sessions b1) in
                        if answers 3%nat then
                          let b3 :=
                            with_sessions b2
                              (MongoSessions.push_message id
                                 {| msg_role := "assistant";
                                    msg_content := answer;
                                    msg_timestamp := utcnow env |}
                                 (utcnow env) saved) in
                          match ChatService.sources_of hits with
                          | Raise e => (Fail (Exn e), b3)
                          | Ok l =>
                              (Done {| answer := answer; sources := l;
                                       result_session_id := id |}, b3)
                          end
                        else (Fail (Exn (StoreUnavailable "mongodb")),
                              with_sessions b2 saved)
                      else (Fail (Exn (StoreUnavailable "mongodb")), b2)
                  end
                else (Fail (Exn (StoreUnavailable "mongodb")),
                      with_stores b1 w)
            end
        end
    end.
Proof.
  unfold ChatService.chat. fold (open_session env answers sid).
  unfold and_then at 1.
  destruct (open_session env answers sid b) as [[id|e] b1]; [|reflexivity].
  unfold and_then at 1. unfold on_stores.
  destruct (RetrievalService.retrieve_relevant_context cfg env query top_k
              (stores b1)) as [[hits|e] w]; [|reflexivity].
  unfold and_then at 1.
  destruct (RetrievalService.get_context_string cfg enc hits)
    as [context|e]; [|reflexivity].
  cbn [ChatService.from_result done].
  unfold and_then at 1.
  destruct (answers 1%nat).
  2:{ unfold MongoSessions.get_session_history, MongoSessions.get_session,
        and_then, fail. reflexivity. }
  rewrite (get_session_history_run (ChatService.at_request env true) eq_refl).
  cbv zeta.
  set (msgs := chat_messages query context _).
  unfold and_then at 1. unfold ChatService.create_completion.
  repeat match goal with
         | |- context [chat_completion llm ?m] =>
             lazymatch m with
             | msgs => fail
             | _ => change m with msgs
             end
         end.
  destruct (chat_completion llm msgs) as [answer|]; [|reflexivity].
  unfold and_then, MongoSessions.add_message, fail.
  cbn [mongo_up utcnow ChatService.at_request].
  destruct (answers 2%nat); [|reflexivity].
  destruct (answers 3%nat); [|reflexivity].
  destruct (ChatService.sources_of hits) as [l|e]; reflexivity.
Qed.

Lemma history_last_five {A} (l : list A) :
  PyExt.slice_from (PyExt.slice_from l (- 10)) (- 5)
  = drop (length l - 5) l.
Proof.
  change (- 10) with (Z.opp 10). change (- 5) with (Z.opp 5).
  rewrite !slice_from_last by lia. rewrite length_drop, drop_drop.
  f_equal. lia.
Qed.

Lemma slice_from_nil {A} (n : Z) : PyExt.slice_from (@nil A) n = [].
Proof. unfold PyExt.slice_from. apply drop_nil. Qed.

Lemma sources_of_Ok hits contents :
  Forall2 (fun r c => hit_payload r !! "content" = Some (VStr c))
    hits contents ->
  exists l,
    ChatService.sources_of hits = Ok l
    /\ Forall2 (fun c s =>
                  source_content s
                  = VStr (if 200 <? Z.of_nat (String.length c)
                          then PyExt.str_slice_to c 200 +:+ "..."
                          else c)) contents l
    /\ Forall2 (fun r s => source_score s = score r) hits l.
Proof.
  induction 1 as [|r c hits contents Hr _ (l & Hl & Hc & Hs)]; simpl.
  - exists []. repeat split; constructor.
  - unfold ChatService.source_of. rewrite Hr, Hl.
    eexists. split; [reflexivity|]. split; constructor; auto.
Qed.

(** When the context could be assembled, the sources can be listed. *)
Lemma sources_of_context hits context :
  RetrievalService.get_context_string cfg enc hits = Ok context ->
  exists l, ChatService.sources_of hits = Ok l.
Proof.
  intros H. apply get_context_string_inv in H as (contents & H & _).
  destruct (sources_of_Ok _ _ H) as (l & Hl & _). eauto.
Qed.

Lemma find_session_one id m c u :
  find_session id
    [{| session_id := id; messages := m; session_created_at := c;
        session_updated_at := u |}]
  = Some {| session_id := id; messages := m; session_created_at := c;
            session_updated_at := u |}.
Proof.
  unfold find_session. cbn [List.find session_id].
  now rewrite bool_decide_eq_true_2 by reflexivity.
Qed.

Lemma push_message_app id message now l s :
  find_session id l = None -> session_id s = id ->
  MongoSessions.push_message id message now (l ++ [s])
  = l ++ [{| session_id := session_id s;
             messages := messages s ++ [message];
             session_created_at := session_created_at s;
             session_updated_at := now |}].
Proof.
  unfold find_session. intros Hnone Hs.
  induction l as [|x l IH]; simpl in *.
  - now rewrite bool_decide_eq_true_2.
  - destruct (bool_decide (session_id x = id)); [discriminate|].
    now rewrite IH.
Qed.

(** [chat] sends at most one request to the chat model. The request
    opens with the system message, made of the fixed prompt, the context
    assembled from the results retrieved for the query and one of the two
    closing instructions; then come at most five messages, the last five
    the session held before the call (none for a new or unknown session);
    then the query as the user's message. *)
Theorem chat_prompt query sid top_k b :
  let b' := (ChatService.chat cfg env answers enc llm query sid top_k b).2 in
  let stored :=
    if ChatService.no_session_id sid then []
    else match find_session (default "" sid) (chat_sessions b) with
         | Some s => messages s
         | None => []
         end in
  completion_requests b' = completion_requests b
  \/ exists hits w context,
       RetrievalService.retrieve_relevant_context cfg env query top_k
         (stores (open_session env answers sid b).2) = (Ok hits, w)
       /\ RetrievalService.get_context_string cfg enc hits = Ok context
       /\ completion_requests b'
          = completion_requests b
            ++ [{| prompt_role := "system";
                   prompt_content :=
                     ChatService.system_prompt +:+ context
                     +:+ (if ChatService._detect_contact_intent query
                          then ChatService.contact_instruction
                          else ChatService.fallback_instruction) |}
                :: map prompt_of (drop (length stored - 5) stored)
                ++ [{| prompt_role := "user"; prompt_content := query |}]]
       /\ (length (drop (length stored - 5) stored) <= 5)%nat.
Proof.
  cbv zeta. rewrite chat_run, open_session_run.
  assert (Hhist : forall id (l : list ChatSession),
    match find_session id l with
    | Some s => PyExt.slice_from (messages s) (- 10)
    | None => []
    end
    = PyExt.slice_from
        match find_session id l with Some s => messages s | None => [] end
        (- 10)).
  { intros id l. destruct (find_session id l); [reflexivity|].
    now rewrite slice_from_nil. }
  assert (Hmsgs : forall context (stored : list ChatMessage),
    chat_messages query context (PyExt.slice_from stored (- 10))
    = {| prompt_role := "system";
         prompt_content :=
           ChatService.system_prompt +:+ context
           +:+ (if ChatService._detect_contact_intent query
                then ChatService.contact_instruction
                else ChatService.fallback_instruction) |}
      :: map prompt_of (drop (length stored - 5) stored)
      ++ [{| prompt_role := "user"; prompt_content := query |}]).
  { intros context stored. unfold chat_messages.
    now rewrite history_last_five. }
  destruct (ChatService.no_session_id sid).
  - cbv zeta. destruct (answers 0%nat); [|left; reflexivity].
    destruct (bool_decide (is_Some (find_session _ (chat_sessions b))))
      eqn:Edup; [left; reflexivity|].
    apply bool_decide_eq_false in Edup.
    assert (Hnone : find_session (uuid4 env (uuid_counter (stores b)))
                      (chat_sessions b) = None).
    { destruct (find_session _ _); [exfalso; eauto | reflexivity]. }
    cbn [stores with_stores with_sessions chat_sessions snd].
    destruct (RetrievalService.retrieve_relevant_context _ _ _ _ _)
      as [[hits|e] w]; [|left; reflexivity].
    destruct (RetrievalService.get_context_string cfg enc hits)
      as [context|e] eqn:Hcontext; [|left; reflexivity].
    destruct (answers 1%nat); [|left; reflexivity].
    cbv zeta. rewrite find_session_app_None by exact Hnone.
    rewrite find_session_one. cbn [messages].
    right. exists hits, w, context. split; [reflexivity|].
    split; [exact Hcontext|]. split; [|simpl; lia].
    rewrite <- (Hmsgs context []). rewrite slice_from_nil.
    destruct (chat_completion llm _);
      [destruct (answers 2%nat); [destruct (answers 3%nat);
         [destruct (ChatService.sources_of hits)|]|]|]; reflexivity.
  - cbn [snd].
    destruct (RetrievalService.retrieve_relevant_context _ _ _ _ _)
      as [[hits|e] w]; [|left; reflexivity].
    destruct (RetrievalService.get_context_string cfg enc hits)
      as [context|e] eqn:Hcontext; [|left; reflexivity].
    destruct (answers 1%nat); [|left; reflexivity].
    cbv zeta. cbn [chat_sessions with_stores].
    rewrite Hhist.
    set (stored := match find_session _ _ with
                   | Some s => messages s
                   | None => []
                   end).
    right. exists hits, w, context. split; [reflexivity|].
    split; [exact Hcontext|]. split; [|rewrite length_drop; lia].
    rewrite Hmsgs.
    destruct (chat_completion llm _);
      [destruct (answers 2%nat); [destruct (answers 3%nat);
         [destruct (ChatService.sources_of hits)|]|]|]; reflexivity.
Qed.

(** A call without a session id (none, or the empty text) that succeeds
    has opened a session under a fresh identifier, which no stored session
    had; the sessions stored before are as they were, and the new session
    holds exactly the query and the answer, in this order. *)
Theorem chat_new_session query sid top_k b r b' :
  ChatService.no_session_id sid = true ->
  ChatService.chat cfg env answers enc llm query sid top_k b = (Done r, b') ->
  result_session_id r = uuid4 env (uuid_counter (stores b))
  /\ find_session (result_session_id r) (chat_sessions b) = None
  /\ chat_sessions b'
     = chat_sessions b
       ++ [{| session_id := result_session_id r;
              messages := exchange env query (answer r);
              session_created_at := utcnow env;
              session_updated_at := utcnow env |}].
Proof.
  intros Hnew H.
  rewrite chat_run, open_session_run, Hnew in H.
  cbv zeta in H.
  destruct (answers 0%nat); [|discriminate].
  destruct (bool_decide (is_Some (find_session _ (chat_sessions b))))
    eqn:Edup; [discriminate|].
  apply bool_decide_eq_false in Edup.
  assert (Hnone : find_session (uuid4 env (uuid_counter (stores b)))
                    (chat_sessions b) = None).
  { destruct (find_session _ _); [exfalso; eauto | reflexivity]. }
  destruct (RetrievalService.retrieve_relevant_context _ _ _ _ _)
    as [[hits|e] w]; [|discriminate].
  destruct (RetrievalService.get_context_string cfg enc hits)
    as [context|e]; [|discriminate].
  destruct (answers 1%nat); [|discriminate].
  cbv zeta in H.
  destruct (chat_completion llm _) as [reply|]; [|discriminate].
  destruct (answers 2%nat); [|discriminate].
  destruct (answers 3%nat); [|discriminate].
  destruct (ChatService.sources_of hits) as [l|e]; [|discriminate].
  injection H as <- <-.
  cbn [result_session_id answer chat_sessions with_sessions with_stores
       requested].
  split; [reflexivity|]. split; [exact Hnone|].
  rewrite push_message_app by (exact Hnone || reflexivity).
  rewrite push_message_app by (exact Hnone || reflexivity).
  reflexivity.
Qed.

(** A call under a session id that no stored session has is answered like
    any other, under that id, but stores nothing: whatever the outcome,
    the sessions are as they were, so neither the query nor the answer
    can be read back. *)
Theorem chat_unknown_session query id top_k b :
  truthy id = true ->
  find_session id (chat_sessions b) = None ->
  let out :=
    ChatService.chat cfg env answers enc llm query (Some id) top_k b in
  chat_sessions out.2 = chat_sessions b
  /\ forall r, out.1 = Done r -> result_session_id r = id.
Proof.
  intros Hid Hnone. cbv zeta.
  rewrite chat_run, open_session_run.
  cbn [ChatService.no_session_id]. rewrite Hid. cbn [negb].
  change (default "" (Some id)) with id.
  destruct (RetrievalService.retrieve_relevant_context _ _ _ _ _)
    as [[hits|e] w]; [|split; [reflexivity | discriminate]].
  destruct (RetrievalService.get_context_string cfg enc hits)
    as [context|e]; [|split; [reflexivity | discriminate]].
  destruct (answers 1%nat); [|split; [reflexivity | discriminate]].
  cbv zeta.
  destruct (chat_completion llm _) as [reply|];
    [|split; [reflexivity | discriminate]].
  rewrite !(push_message_unknown _ _ _ _ Hnone).
  destruct (answers 2%nat); [|split; [reflexivity | discriminate]].
  destruct (answers 3%nat); [|split; [reflexivity | discriminate]].
  destruct (ChatService.sources_of hits) as [l|e];
    (split; [reflexivity|]); [|discriminate].
  now intros r [= <-].
Qed.

(** A successful call under the id of a stored session appends the query
    and then the answer to that session, after the messages it held, and
    sets its update time; the sessions under other ids read as before. *)
Theorem chat_appends_exchange query id top_k b s r b' :
  truthy id = true ->
  find_session id (chat_sessions b) = Some s ->
  ChatService.chat cfg env answers enc llm query (Some id) top_k b
  = (Done r, b') ->
  result_session_id r = id
  /\ find_session id (chat_sessions b')
     = Some {| session_id := session_id s;
               messages := messages s ++ exchange env query (answer r);
               session_created_at := session_created_at s;
               session_updated_at := utcnow env |}
  /\ forall id', id' <> id ->
       find_session id' (chat_sessions b') = find_session id' (chat_sessions b).
Proof.
  intros Hid Hs H.
  rewrite chat_run, open_session_run in H.
  cbn [ChatService.no_session_id] in H. rewrite Hid in H.
  cbn [negb] in H. change (default "" (Some id)) with id in H.
  destruct (RetrievalService.retrieve_relevant_context _ _ _ _ _)
    as [[hits|e] w]; [|discriminate].
  destruct (RetrievalService.get_context_string cfg enc hits)
    as [context|e]; [|discriminate].
  destruct (answers 1%nat); [|discriminate].
  cbv zeta in H.
  destruct (chat_completion llm _) as [reply|]; [|discriminate].
  destruct (answers 2%nat); [|discriminate].
  destruct (answers 3%nat); [|discriminate].
  destruct (ChatService.sources_of hits) as [l|e]; [|discriminate].
  injection H as <- <-.
  cbn [result_session_id answer chat_sessions with_sessions].
  split; [reflexivity|]. split.
  - rewrite (find_push_message _ _ _ _ _
               (find_push_message _ _ _ _ _ Hs)).
    cbn [session_id messages session_created_at]. unfold exchange.
    now rewrite <- app_assoc.
  - intros id' Hne. now rewrite !find_push_message_other by exact Hne.
Qed.

(** A call that fails never stores the answer. It leaves the sessions as
    the opening of the session left them (as they were, or with the new
    session, which holds no message and is not removed), except in one
    case: when the document store has saved the query and then fails on
    the request that saves the answer, the query stays in the session
    without its answer. *)
Theorem chat_failure_stores_no_answer query sid top_k b e b' :
  ChatService.chat cfg env answers enc llm query sid top_k b = (Fail e, b') ->
  let opened := open_session env answers sid b in
  (chat_sessions opened.2 = chat_sessions b
   \/ (ChatService.no_session_id sid = true
       /\ chat_sessions opened.2
          = chat_sessions b
            ++ [{| session_id := uuid4 env (uuid_counter (stores b));
                   messages := [];
                   session_created_at := utcnow env;
                   session_updated_at := utcnow env |}]))
  /\ (chat_sessions b' = chat_sessions opened.2
      \/ (exists id,
            opened.1 = Done id
            /\ answers 2%nat = true /\ answers 3%nat = false
            /\ e = Exn (StoreUnavailable "mongodb")
            /\ chat_sessions b'
               = MongoSessions.push_message id
                   {| msg_role := "user"; msg_content := query;
                      msg_timestamp := utcnow env |} (utcnow env)
                   (chat_sessions opened.2))).
Proof.
  intros H. cbv zeta. rewrite chat_run in H. split.
  - rewrite open_session_run.
    destruct (ChatService.no_session_id sid); [|left; reflexivity].
    cbv zeta. destruct (answers 0%nat); [|left; reflexivity].
    destruct (bool_decide _); [left; reflexivity|].
    right. split; reflexivity.
  - destruct (open_session env answers sid b) as [[id|e1] b1];
      [|left; now injection H as _ <-].
    cbn [fst snd].
    destruct (RetrievalService.retrieve_relevant_context _ _ _ _ _)
      as [[hits|e1] w]; [|left; now injection H as _ <-].
    destruct (RetrievalService.get_context_string cfg enc hits)
      as [context|e1] eqn:Hc; [|left; now injection H as _ <-].
    destruct (answers 1%nat); [|left; now injection H as _ <-].
    cbv zeta in H.
    destruct (chat_completion llm _) as [reply|];
      [|left; now injection H as _ <-].
    destruct (answers 2%nat); [|left; now injection H as _ <-].
    destruct (answers 3%nat).
    + destruct (sources_of_context _ _ Hc) as (l & Hl).
      rewrite Hl in H. discriminate.
    + right. exists id. injection H as <- <-.
      repeat split; reflexivity.
Qed.

Lemma length_string_of_list_ascii l :
  String.length (string_of_list_ascii l) = length l.
Proof. induction l; simpl; congruence. Qed.

Lemma string_length_app a c :
  String.length (a +:+ c) = (String.length a + String.length c)%nat.
Proof.
  induction a as [|x a IH]; [reflexivity|].
  change (String x a +:+ c) with (String x (a +:+ c)). simpl. now rewrite IH.
Qed.

Lemma str_slice_to_length s n :
  0 <= n -> (String.length (PyExt.str_slice_to s n) <= Z.to_nat n)%nat.
Proof.
  intros Hn. unfold PyExt.str_slice_to, slice, clip_index.
  rewrite length_string_of_list_ascii, length_take.
  cbn [Z.ltb Z.compare]. destruct (Z.ltb_spec n 0); lia.
Qed.

(** A successful call lists one source for each result retrieved, in the
    same order and with its score. The content of a source is the content
    of the result when that has at most 200 characters, and otherwise its
    first 200 characters followed by three dots: never more than 203
    characters. *)
Theorem chat_sources query sid top_k b r b' :
  ChatService.chat cfg env answers enc llm query sid top_k b = (Done r, b') ->
  exists hits w,
    RetrievalService.retrieve_relevant_context cfg env query top_k
      (stores (open_session env answers sid b).2) = (Ok hits, w)
    /\ Forall2 source_shows hits (sources r).
Proof.
  intros H. rewrite chat_run in H.
  destruct (open_session env answers sid b) as [[id|e] b1]; [|discriminate].
  cbn [snd].
  destruct (RetrievalService.retrieve_relevant_context _ _ _ _ _)
    as [[hits|e] w]; [|discriminate].
  destruct (RetrievalService.get_context_string cfg enc hits)
    as [context|e] eqn:Hc; [|discriminate].
  destruct (answers 1%nat); [|discriminate].
  cbv zeta in H.
  destruct (chat_completion llm _) as [reply|]; [|discriminate].
  destruct (answers 2%nat); [|discriminate].
  destruct (answers 3%nat); [|discriminate].
  apply get_context_string_inv in Hc as (contents & Hc & _).
  destruct (sources_of_Ok _ _ Hc) as (l & Hl & Hcontent & Hscore).
  rewrite Hl in H. injection H as <- <-. cbn [sources].
  exists hits, w. split; [reflexivity|].
  clear Hl. revert l Hcontent Hscore.
  induction Hc as [|h c hits contents Hh _ IH]; intros l Hcontent Hscore.
  - inversion Hcontent. constructor.
  - inversion Hcontent as [|? src ? l' Hsrc Hrest]; subst.
    inversion Hscore; subst.
    constructor; [|now apply IH].
    split; [assumption|]. exists c. eexists.
    split; [exact Hh|]. split; [exact Hsrc|].
    destruct (Z.ltb_spec 200 (Z.of_nat (String.length c))).
    + split; [lia|]. split; [reflexivity|].
      rewrite string_length_app.
      pose proof (str_slice_to_length c 200 ltac:(lia)).
      change (String.length "...") with 3%nat. lia.
    + split; [reflexivity|]. split; lia.
Qed.

End Chat.

Lemma chat_prompt_witness :
  let b' := (ChatService.chat settings demo_env store_up char_tokenizer
               demo_llm "hello" (Some "s1") None demo_backend).2 in
  exists context,
    completion_requests b'
    = [{| prompt_role := "system";
          prompt_content :=
            ChatService.system_prompt +:+ context
            +:+ ChatService.fallback_instruction |}
       :: map prompt_of (map demo_message [2; 3; 4; 5; 6]%nat)
       ++ [{| prompt_role := "user"; prompt_content := "hello" |}]].
Proof.
  cbv zeta.
  destruct (chat_prompt settings demo_env store_up char_tokenizer demo_llm
              "hello" (Some "s1") None demo_backend)
    as [H|(hits & w & context & _ & _ & H & _)].
  - vm_compute in H. discriminate H.
  - exists context. exact H.
Defined.

Lemma chat_new_session_witness :
  exists r b',
    ChatService.chat settings demo_env store_up char_tokenizer demo_llm
      "hello" None None demo_backend = (Done r, b')
    /\ result_session_id r = uuid4 demo_env 0
    /\ chat_sessions b'
       = [demo_session;
          {| session_id := result_session_id r;
             messages := exchange demo_env "hello" (answer r);
             session_created_at := utcnow demo_env;
             session_updated_at := utcnow demo_env |}].
Proof.
  set (out := ChatService.chat settings demo_env store_up char_tokenizer
                demo_llm "hello" None None demo_backend).
  assert (H : out = (Done (match out.1 with
                           | Done r => r
                           | Fail _ => no_result
                           end), out.2)) by (vm_compute; reflexivity).
  eexists _, _. split; [exact H|].
  destruct (chat_new_session settings demo_env store_up char_tokenizer
              demo_llm "hello" None None demo_backend _ _ eq_refl H)
    as (H1 & _ & H3).
  split; [exact H1 | exact H3].
Defined.

Lemma chat_unknown_session_witness :
  chat_sessions
    (ChatService.chat settings demo_env store_up char_tokenizer demo_llm
       "hello" (Some "nobody") None demo_backend).2
  = chat_sessions demo_backend.
Proof.
  exact (proj1 (chat_unknown_session settings demo_env store_up
                  char_tokenizer demo_llm "hello" "nobody" None demo_backend
                  eq_refl ltac:(vm_compute; reflexivity))).
Defined.

Lemma chat_appends_exchange_witness :
  exists r b',
    ChatService.chat settings demo_env store_up char_tokenizer demo_llm
      "hello" (Some "s1") None demo_backend = (Done r, b')
    /\ find_session "s1" (chat_sessions b')
       = Some {| session_id := session_id demo_session;
                 messages := messages demo_session
                             ++ exchange demo_env "hello" (answer r);
                 session_created_at := session_created_at demo_session;
                 session_updated_at := utcnow demo_env |}.
Proof.
  set (out := ChatService.chat settings demo_env store_up char_tokenizer
                demo_llm "hello" (Some "s1") None demo_backend).
  assert (H : out = (Done (match out.1 with
                           | Done r => r
                           | Fail _ => no_result
                           end), out.2)) by (vm_compute; reflexivity).
  eexists _, _. split; [exact H|].
  exact (proj1 (proj2 (chat_appends_exchange settings demo_env store_up
                         char_tokenizer demo_llm "hello" "s1" None
                         demo_backend demo_session _ _ eq_refl
                         ltac:(vm_compute; reflexivity) H))).
Defined.

(** The store fails on the request that saves the answer: the call fails,
    and the session holds the query as its last message. *)
Lemma chat_failure_stores_no_answer_witness :
  let out := ChatService.chat settings demo_env (store_fails_at 3)
               char_tokenizer demo_llm "hello" (Some "s1") None
               demo_backend in
  out.1 = Fail (Exn (StoreUnavailable "mongodb"))
  /\ (chat_sessions out.2 = chat_sessions demo_backend
      \/ chat_sessions out.2
         = MongoSessions.push_message "s1"
             {| msg_role := "user"; msg_content := "hello";
                msg_timestamp := utcnow demo_env |} (utcnow demo_env)
             (chat_sessions demo_backend)).
Proof.
  cbv zeta.
  set (out := ChatService.chat settings demo_env (store_fails_at 3)
                char_tokenizer demo_llm "hello" (Some "s1") None
                demo_backend).
  assert (H : out = (Fail (Exn (StoreUnavailable "mongodb")), out.2))
    by (vm_compute; reflexivity).
  split; [now rewrite H|].
  destruct (chat_failure_stores_no_answer settings demo_env
              (store_fails_at 3) char_tokenizer demo_llm "hello" (Some "s1")
              None demo_backend _ _ H) as [_ [H1|(id & Hid & _ & _ & _ & H1)]].
  - left. exact H1.
  - right. injection Hid as <-. exact H1.
Defined.

Example chat_keeps_query_without_answer :
  let out := ChatService.chat settings demo_env (store_fails_at 3)
               char_tokenizer demo_llm "hello" (Some "s1") None
               demo_backend in
  out.1 = Fail (Exn (StoreUnavailable "mongodb"))
  /\ (match find_session "s1" (chat_sessions out.2) with
      | Some s => map msg_content (drop 6 (messages s))
      | None => []
      end) = ["m6"; "hello"].
Proof. split; vm_compute; reflexivity. Qed.

Lemma chat_sources_witness :
  exists r b' hits,
    ChatService.chat settings demo_env store_up char_tokenizer demo_llm
      "hello" (Some "s1") None demo_backend = (Done r, b')
    /\ Forall2 source_shows hits (sources r).
Proof.
  set (out := ChatService.chat settings demo_env store_up char_tokenizer
                demo_llm "hello" (Some "s1") None demo_backend).
  assert (H : out = (Done (match out.1 with
                           | Done r => r
                           | Fail _ => no_result
                           end), out.2)) by (vm_compute; reflexivity).
  destruct (chat_sources settings demo_env store_up char_tokenizer demo_llm
              "hello" (Some "s1") None demo_backend _ _ H)
    as (hits & w & _ & Hs).
  eexists _, _, hits. split; [exact H | exact Hs].
Defined.

(** ** The contact intent *)

Lemma startswith_spec s p :
  PyExt.startswith s p = true <-> exists rest, s = p +:+ rest.
Proof.
  revert s. induction p as [|a p IH]; intros s.
  - split; [exists s; reflexivity | destruct s; reflexivity].
  - destruct s as [|c s]; cbn [PyExt.startswith].
    + split; [discriminate | intros (rest & H); discriminate].
    + rewrite andb_true_iff, Ascii.eqb_eq, IH. split.
      * intros (-> & rest & ->). exists rest. reflexivity.
      * intros (rest & H). change (String a p +:+ rest)
          with (String a (p +:+ rest)) in H.
        injection H as -> ->. eauto.
Qed.

Lemma contains_spec s sub :
  PyExt.contains s sub = true
  <-> exists before after, s = before +:+ sub +:+ after.
Proof.
  induction s as [|c s IH]; cbn [PyExt.contains];
    rewrite orb_true_iff, startswith_spec.
  - split.
    + intros [(rest & H)|]; [|discriminate]. exists "", rest. exact H.
    + intros (before & after & H). left. destruct before; [|discriminate].
      exists after. exact H.
  - rewrite IH. split.
    + intros [(rest & H)|(before & after & ->)].
      * exists "", rest. exact H.
      * exists (String c before), after. reflexivity.
    + intros (before & after & H). destruct before as [|a before].
      * left. exists after. exact H.
      * right. change (String a before +:+ sub +:+ after)
          with (String a (before +:+ sub +:+ after)) in H.
        injection H as -> ->. eauto.
Qed.

Lemma lower_app a c : PyExt.lower (a +:+ c) = PyExt.lower a +:+ PyExt.lower c.
Proof.
  induction a as [|x a IH]; [reflexivity|].
  change (String x a +:+ c) with (String x (a +:+ c)).
  cbn [PyExt.lower]. now rewrite IH.
Qed.

Lemma lower_char_lower_char c :
  PyExt.lower_char (PyExt.lower_char c) = PyExt.lower_char c.
Proof. destruct c as [[] [] [] [] [] [] [] []]; vm_compute; reflexivity. Qed.

Lemma lower_lower s : PyExt.lower (PyExt.lower s) = PyExt.lower s.
Proof.
  induction s as [|c s IH]; [reflexivity|].
  cbn [PyExt.lower]. now rewrite lower_char_lower_char, IH.
Qed.

Lemma detect_contains query :
  ChatService._detect_contact_intent query = true
  <-> exists phrase,
        phrase ∈ ChatService.strong_contact_phrases
        /\ PyExt.contains (PyExt.lower query) phrase = true.
Proof.
  unfold ChatService._detect_contact_intent. cbv zeta.
  rewrite existsb_exists. split; intros (phrase & Hin & H);
    exists phrase; (split; [|exact H]).
  - now apply list_elem_of_In.
  - now apply list_elem_of_In.
Qed.

(** A query shows contact intent exactly when, put in lower case, it
    contains one of the phrases anywhere, also inside a longer word. So
    the spelling of capitals does not matter, and a query that shows the
    intent still shows it with any text before and after it. *)
Theorem contact_intent_spec query :
  (ChatService._detect_contact_intent query = true
   <-> exists phrase before after,
         phrase ∈ ChatService.strong_contact_phrases
         /\ PyExt.lower query = before +:+ phrase +:+ after)
  /\ ChatService._detect_contact_intent (PyExt.lower query)
     = ChatService._detect_contact_intent query
  /\ forall before after,
       ChatService._detect_contact_intent query = true ->
       ChatService._detect_contact_intent (before +:+ query +:+ after) = true.
Proof.
  split; [|split].
  - rewrite detect_contains. split.
    + intros (phrase & Hin & H). apply contains_spec in H as (x & y & H).
      eauto.
    + intros (phrase & x & y & Hin & H). exists phrase.
      split; [exact Hin|]. apply contains_spec. eauto.
  - unfold ChatService._detect_contact_intent. cbv zeta.
    now rewrite lower_lower.
  - intros before after. rewrite !detect_contains.
    intros (phrase & Hin & H). exists phrase. split; [exact Hin|].
    apply contains_spec in H as (x & y & H). apply contains_spec.
    rewrite !lower_app, H.
    exists (PyExt.lower before +:+ x), (y +:+ PyExt.lower after).
    now rewrite !append_assoc.
Qed.

(** The phrase "demo" inside "Democracy" counts. *)
Example contact_intent_inside_a_word :
  ChatService._detect_contact_intent "What is Democracy?" = true
  /\ ChatService._detect_contact_intent "What is a vector index?" = false.
Proof. split; vm_compute; reflexivity. Qed.

(** ** The routes *)

Lemma endswith_spec s suffix :
  PyExt.endswith s suffix = true <-> exists before, s = before +:+ suffix.
Proof.
  induction s as [|c s IH]; cbn [PyExt.endswith];
    rewrite orb_true_iff, String.eqb_eq.
  - split.
    + intros [->|]; [exists ""; reflexivity | discriminate].
    + intros (before & H). left. destruct before; [exact H | discriminate].
  - rewrite IH. split.
    + intros [->|(before & ->)]; [exists ""; reflexivity|].
      exists (String c before). reflexivity.
    + intros (before & H). destruct before as [|a before];
        [left; exact H|].
      right. change (String a before +:+ suffix)
        with (String a (before +:+ suffix)) in H.
      injection H as -> ->. eauto.
Qed.

Lemma split_on_no_sep sep cur s :
  forallb (fun c => negb (Ascii.eqb c sep)) (list_ascii_of_string s) = true ->
  PyExt.split_on sep cur s = [cur +:+ s].
Proof.
  revert cur. induction s as [|c s IH]; intros cur; simpl.
  - now rewrite append_nil_r.
  - rewrite andb_true_iff, negb_true_iff. intros [-> H].
    rewrite IH by exact H. now rewrite append_assoc.
Qed.

Lemma split_on_cons sep cur s :
  exists piece pieces, PyExt.split_on sep cur s = piece :: pieces.
Proof.
  revert cur. induction s as [|c s IH]; intros cur; simpl; [eauto|].
  destruct (Ascii.eqb c sep); eauto.
Qed.

Lemma last_split_on sep cur before ext :
  forallb (fun c => negb (Ascii.eqb c sep)) (list_ascii_of_string ext) = true ->
  List.last (PyExt.split_on sep cur (before +:+ String sep ext)) "" = ext.
Proof.
  intros Hext. revert cur.
  induction before as [|c before IH]; intros cur.
  - change ("" +:+ String sep ext) with (String sep ext).
    cbn [PyExt.split_on]. rewrite Ascii.eqb_refl.
    now rewrite split_on_no_sep by exact Hext.
  - change (String c before +:+ String sep ext)
      with (String c (before +:+ String sep ext)).
    cbn [PyExt.split_on]. destruct (Ascii.eqb c sep); [|apply IH].
    specialize (IH "").
    destruct (split_on_cons sep "" (before +:+ String sep ext))
      as (piece & pieces & H).
    rewrite H in IH |- *. exact IH.
Qed.

Lemma or_empty_insert k v (m : gmap string scalar) :
  or_empty (Some (<[k := v]> m)) = <[k := v]> m.
Proof.
  unfold or_empty. destruct (decide _) as [H|]; [|reflexivity].
  now apply insert_non_empty in H.
Qed.

Section Routes.

Variable cfg : Settings.

Variable env : Env.

Variable parsers : Parsers.

(** A failing upload always answers with status 500. In particular a file
    whose name ends in none of [.docx], [.pdf] and [.txt] is answered with
    status 500, not 400: the exception of status 400 raised for it is
    caught by the handler's own [except], and only its text survives, as
    the detail. Nothing is stored for such a file. *)
Theorem upload_document_failures filename content_bytes metadata b :
  let out := Routes.upload_document cfg env parsers filename content_bytes
               metadata b in
  (forall status_code d,
     out.1 = HTTPException status_code d -> status_code = 500)
  /\ (PyExt.endswith filename ".docx" = false ->
      PyExt.endswith filename ".pdf" = false ->
      PyExt.endswith filename ".txt" = false ->
      out = (HTTPException 500
               (StrOfHTTPException 400
                  "Unsupported file type. Use .docx, .pdf, or .txt"), b)).
Proof.
  cbv zeta. unfold Routes.upload_document, Routes.extract_text. split.
  - intros status_code d.
    assert (Hstore : forall content meta,
      (match on_stores (RetrievalService.add_document cfg env content
                          (Some meta)) b with
       | (Done doc_id, b') =>
           (Response {| uploaded_doc_id := doc_id;
                        uploaded_filename := filename;
                        uploaded_message :=
                          "File uploaded and processed successfully" |}, b')
       | (Fail e, b') => (HTTPException 500 (StrOfError e), b')
       end).1 = HTTPException status_code d -> status_code = 500).
    { intros content meta. destruct (on_stores _ b) as [[id|e] b'];
        cbn [fst]; congruence. }
    assert (Hparse : forall content,
      (match match metadata with
             | Some text => if truthy text then json_loads parsers text
                            else Ok ∅
             | None => Ok ∅
             end with
       | Raise e => (HTTPException 500 (StrOfError (Exn e)), b)
       | Ok meta =>
           match on_stores
                   (RetrievalService.add_document cfg env content
                      (Some (<["file_type" :=
                                 SStr (PyExt.last_piece "."%char filename)]>
                               (<["filename" := SStr filename]> meta)))) b with
           | (Done doc_id, b') =>
               (Response {| uploaded_doc_id := doc_id;
                            uploaded_filename := filename;
                            uploaded_message :=
                              "File uploaded and processed successfully" |},
                b')
           | (Fail e, b') => (HTTPException 500 (StrOfError e), b')
           end
       end).1 = HTTPException status_code d -> status_code = 500).
    { intros content.
      destruct (match metadata with Some _ => _ | None => _ end)
        as [meta|e]; [apply Hstore | cbn [fst]; congruence]. }
    destruct (PyExt.endswith filename ".docx");
      [destruct (docx_paragraphs parsers content_bytes);
       [apply Hparse | cbn [fst]; congruence]|].
    destruct (PyExt.endswith filename ".pdf");
      [destruct (pdf_page_texts parsers content_bytes);
       [apply Hparse | cbn [fst]; congruence]|].
    destruct (PyExt.endswith filename ".txt");
      [destruct (decode_utf8 parsers content_bytes);
       [apply Hparse | cbn [fst]; congruence]|].
    cbn [fst]. congruence.
  - now intros -> -> ->.
Qed.

Lemma add_document_stored content metadata w id w' :
  RetrievalService.add_document cfg env content metadata w = (Ok id, w') ->
  id = uuid4 env (uuid_counter w)
  /\ documents w' = documents w ++ [stored_document env w content metadata].
Proof.
  rewrite add_document_run. cbv zeta.
  destruct (mongo_up env); [|discriminate].
  destruct (chunk_text cfg content None None) as [chunks|e]; [|discriminate].
  destruct (EmbeddingService.embed_batch env chunks) as [embeddings|];
    [|discriminate].
  destruct (qdrant_up env); [|discriminate].
  destruct (bool_decide _); [discriminate|].
  intros [= <- <-]. split; reflexivity.
Qed.

(** After a successful upload the document stored last is the uploaded
    one, under the id returned. Its metadata give the file's name under
    [filename] and one of [docx], [pdf] and [txt] under [file_type], the
    ending of the name: whatever the metadata sent with the file say under
    these two keys is replaced. *)
Theorem upload_document_file_type filename content_bytes metadata b body b' :
  Routes.upload_document cfg env parsers filename content_bytes metadata b
  = (Response body, b') ->
  uploaded_filename body = filename
  /\ exists doc ext,
       last (documents (stores b')) = Some doc
       /\ doc_id doc = uploaded_doc_id body
       /\ doc_metadata doc !! "filename" = Some (SStr filename)
       /\ doc_metadata doc !! "file_type" = Some (SStr ext)
       /\ ext ∈ ["docx"; "pdf"; "txt"]
       /\ PyExt.endswith filename ("." +:+ ext) = true.
Proof.
  unfold Routes.upload_document. intros H.
  assert (Hext : exists ext,
    ext ∈ ["docx"; "pdf"; "txt"]
    /\ PyExt.endswith filename ("." +:+ ext) = true).
  { unfold Routes.extract_text in H.
    destruct (PyExt.endswith filename ".docx") eqn:E1;
      [exists "docx"; split; [set_solver | exact E1]|].
    destruct (PyExt.endswith filename ".pdf") eqn:E2;
      [exists "pdf"; split; [set_solver | exact E2]|].
    destruct (PyExt.endswith filename ".txt") eqn:E3;
      [exists "txt"; split; [set_solver | exact E3]|].
    discriminate. }
  destruct Hext as (ext & Hin & Hends).
  assert (Hlast : PyExt.last_piece "."%char filename = ext).
  { apply endswith_spec in Hends as (before & ->).
    unfold PyExt.last_piece.
    change ("." +:+ ext) with (String "."%char ext).
    apply last_split_on.
    repeat (apply elem_of_cons in Hin as [->|Hin]; [reflexivity|]).
    now apply elem_of_nil in Hin. }
  destruct (Routes.extract_text parsers filename content_bytes)
    as [content|]; [|discriminate].
  destruct (match metadata with Some _ => _ | None => _ end)
    as [meta|e]; [|discriminate].
  cbv zeta in H. unfold on_stores in H.
  destruct (RetrievalService.add_document cfg env content _ (stores b))
    as [[id|e] w] eqn:Hadd; [|discriminate].
  apply add_document_stored in Hadd as [-> Hdocs].
  injection H as <- <-. cbn [uploaded_filename uploaded_doc_id stores].
  split; [reflexivity|]. eexists. exists ext.
  rewrite Hdocs, last_snoc. split; [reflexivity|].
  unfold stored_document. cbn [doc_id doc_metadata].
  rewrite or_empty_insert.
  split; [reflexivity|]. rewrite Hlast. split.
  - rewrite lookup_insert_ne by discriminate. apply lookup_insert_eq.
  - split; [apply lookup_insert_eq|]. split; assumption.
Qed.

End Routes.

Lemma upload_document_file_type_witness :
  exists body b' doc,
    Routes.upload_document settings demo_env demo_parsers "notes.v2.txt"
      "a b c" (Some "{}") demo_backend = (Response body, b')
    /\ last (documents (stores b')) = Some doc
    /\ doc_id doc = uploaded_doc_id body
    /\ doc_metadata doc !! "filename" = Some (SStr "notes.v2.txt")
    /\ exists ext,
         doc_metadata doc !! "file_type" = Some (SStr ext)
         /\ ext ∈ ["docx"; "pdf"; "txt"].
Proof.
  set (out := Routes.upload_document settings demo_env demo_parsers
                "notes.v2.txt" "a b c" (Some "{}") demo_backend).
  assert (H : out = (Response
                       (match out.1 with
                        | Response body => body
                        | HTTPException _ _ =>
                            {| uploaded_doc_id := ""; uploaded_filename := "";
                               uploaded_message := "" |}
                        end), out.2)) by (vm_compute; reflexivity).
  destruct (upload_document_file_type settings demo_env demo_parsers
              "notes.v2.txt" "a b c" (Some "{}") demo_backend _ _ H)
    as (_ & doc & ext & Hlast & Hid & Hname & Htype & Hin & _).
  eexists _, _, doc. split; [exact H|].
  split; [exact Hlast|]. split; [exact Hid|]. split; [exact Hname|].
  exists ext. split; [exact Htype | exact Hin].
Defined.

(** ** The migration script: retries *)

Lemma total_backoff k : total (backoff k) = 2 ^ Z.of_nat k - 1.
Proof.
  unfold total, backoff. induction k as [|k IH]; [reflexivity|].
  rewrite seq_S, map_app, foldr_app. cbn [map foldr Nat.add].
  assert (H : forall (l : list Z) a, foldr Z.add a l = foldr Z.add 0 l + a).
  { induction l as [|x l IHl]; intros a; simpl; [lia|]. rewrite IHl. lia. }
  rewrite H, IH. rewrite Nat2Z.inj_succ, Z.pow_succ_r by lia. lia.
Qed.

Lemma backoff_S k : backoff (S k) = backoff k ++ [2 ^ Z.of_nat k].
Proof. unfold backoff. now rewrite seq_S, map_app. Qed.

(** The loop from attempt [i] on, after [i] failed requests. *)
Lemma create_embedding_loop_run api retry_count m i :
  (forall j, (j < i)%nat -> api j = None) ->
  Z.of_nat (i + m) = retry_count ->
  let out := MongoToQdrantMigrator.create_embedding_loop api retry_count
               (map (fun k => 0 + Z.of_nat k * 1) (seq i m))
               {| requests := i; sleeps := backoff i |} in
  (forall k v, (k < i + m)%nat -> (forall j, (j < k)%nat -> api j = None) ->
     api k = Some v ->
     out = (Embedding v, {| requests := S k; sleeps := backoff k |}))
  /\ ((0 < m)%nat -> (forall j, (j < i + m)%nat -> api j = None) ->
      out = (FailedAfter retry_count,
             {| requests := (i + m)%nat; sleeps := backoff (i + m - 1) |})).
Proof.
  revert i. induction m as [|m IH]; intros i Hfail Hn; cbv zeta.
  - split; [|lia]. intros k v Hk Hbefore Hv.
    rewrite Hfail in Hv by lia. discriminate.
  - cbn [seq map MongoToQdrantMigrator.create_embedding_loop requests sleeps].
    destruct (api i) as [v0|] eqn:Hi.
    + split.
      * intros k v Hk Hbefore Hv.
        destruct (lt_eq_lt_dec k i) as [[Hlt| ->]|Hgt].
        -- rewrite Hfail in Hv by exact Hlt. discriminate.
        -- congruence.
        -- rewrite Hbefore in Hi by exact Hgt. discriminate.
      * intros _ Hall. rewrite Hall in Hi by lia. discriminate.
    + assert (Hfail' : forall j, (j < S i)%nat -> api j = None).
      { intros j Hj. destruct (decide (j = i)) as [->|];
          [exact Hi | apply Hfail; lia]. }
      destruct (Z.ltb_spec (0 + Z.of_nat i * 1) (retry_count - 1)).
      * cbv zeta.
        replace (2 ^ (0 + Z.of_nat i * 1)) with (2 ^ Z.of_nat i)
          by (f_equal; lia).
        rewrite <- backoff_S.
        specialize (IH (S i) Hfail' ltac:(lia)). cbv zeta in IH.
        destruct IH as [IH1 IH2]. split.
        -- intros k v Hk. apply IH1. lia.
        -- intros _ Hall. rewrite IH2 by (lia || (intros; apply Hall; lia)).
           now replace (S i + m)%nat with (i + S m)%nat by lia.
      * assert (m = 0%nat) as -> by lia. split.
        -- intros k v Hk Hbefore Hv.
           assert (k = i) as -> by
             (destruct (lt_eq_lt_dec k i) as [[Hlt|]|]; [|assumption|lia];
              rewrite Hfail in Hv by exact Hlt; discriminate).
           congruence.
        -- intros _ _. replace (i + 1 - 1)%nat with i by lia.
           now replace (i + 1)%nat with (S i) by lia.
Qed.

(** [create_embedding] stops at the first request that is answered and
    returns that embedding, having slept 1, 2, 4, ... seconds after the
    failures before it: [2^k - 1] seconds after [k] failures. When all
    [retry_count] requests fail it raises after the last one without
    sleeping again, having slept [2^(retry_count-1) - 1] seconds. With a
    [retry_count] of zero or less it sends no request and returns [None]
    instead of raising. *)
Theorem create_embedding_retries api retry_count :
  let out := MongoToQdrantMigrator.create_embedding api retry_count in
  (retry_count <= 0 ->
     out = (ReturnedNone, {| requests := 0; sleeps := [] |}))
  /\ (forall k v,
        Z.of_nat k < retry_count ->
        (forall j, (j < k)%nat -> api j = None) ->
        api k = Some v ->
        out = (Embedding v, {| requests := S k; sleeps := backoff k |})
        /\ total (backoff k) = 2 ^ Z.of_nat k - 1)
  /\ (0 < retry_count ->
      (forall j, Z.of_nat j < retry_count -> api j = None) ->
      out = (FailedAfter retry_count,
             {| requests := Z.to_nat retry_count;
                sleeps := backoff (Z.to_nat retry_count - 1) |})
      /\ total (backoff (Z.to_nat retry_count - 1))
         = 2 ^ (retry_count - 1) - 1).
Proof.
  cbv zeta. unfold MongoToQdrantMigrator.create_embedding, range, range_len.
  cbn [Z.eqb Z.ltb Z.compare].
  destruct (Z.ltb_spec 0 retry_count) as [Hpos|Hneg].
  - replace (Z.to_nat ((retry_count - 0 - 1) / 1 + 1))
      with (Z.to_nat retry_count) by (rewrite Z.div_1_r; lia).
    destruct (create_embedding_loop_run api retry_count
                (Z.to_nat retry_count) 0 ltac:(lia) ltac:(lia))
      as [Hfirst Hnone].
    cbn [Nat.add] in Hfirst, Hnone.
    change (backoff 0) with (@nil Z) in Hfirst, Hnone.
    split; [lia|]. split.
    + intros k v Hk Hbefore Hv. split; [|apply total_backoff].
      apply Hfirst; [lia | exact Hbefore | exact Hv].
    + intros _ Hall. split.
      * apply Hnone; [lia|]. intros j Hj. apply Hall. lia.
      * rewrite total_backoff. f_equal. f_equal. lia.
  - split; [reflexivity|]. split; [intros; lia | lia].
Qed.

(** Two failures and an answer at the third of three attempts: three
    requests and 1 + 2 seconds slept; with three failures the call gives
    up after the same three seconds. *)
Example create_embedding_three_attempts :
  MongoToQdrantMigrator.create_embedding (flaky_api 2) 3
  = (Embedding [1%Q; 0%Q], {| requests := 3; sleeps := [1; 2] |})
  /\ MongoToQdrantMigrator.create_embedding (flaky_api 3) 3
     = (FailedAfter 3, {| requests := 3; sleeps := [1; 2] |})
  /\ MongoToQdrantMigrator.create_embedding (flaky_api 0) 0
     = (ReturnedNone, {| requests := 0; sleeps := [] |}).
Proof. repeat split; vm_compute; reflexivity. Qed.
